(** * simple-bookkeeping: ledger state, balance engine and Dropbox adapter

    A shallow embedding of the TypeScript sources

      - [src/types.ts]                      (Transaction, AppSettings, App handlers)
      - [src/components/Dashboard.tsx]      (the [stats] computation)
      - [src/components/SettingsDialog.tsx] (account vocabulary edits)
      - [src/components/TransactionForm.tsx](split-expense authoring)
      - [src/services/dropbox.ts]           (DropboxService)
      - [src/components/TransactionList.tsx](month filter, CSV export)
      - [src/components/Combobox.tsx]       (the options offered)

    Conventions of the embedding.

    - A JavaScript [number] is a binary64 double, a primitive [float]; the
      dashboard and the initial balances of the settings are computed and
      held in doubles, rounding included.
    - The amount of a transaction is a whole number ([Z]): the amount
      fields of the form are [<input type="number">] with the default step
      of 1, and on whole numbers [Math.floor(x / 2)] and the differences of
      the form agree with [Z.div _ 2] and [Z.sub].  Where the dashboard
      reads an amount it reads the double nearest to it.
    - The dictionary [balances] of the dashboard is a plain object: own
      properties in the order of their creation, under [Object.prototype].
      [initialBalances] is a [gmap string number] of own properties, read
      through the same prototype; an optional field is an [option].
    - [if (s)] on a string is [truthy]. *)

From Stdlib Require Import ZArith String Ascii List Permutation Lia Floats.
From stdpp Require Import base gmap strings list fin_maps sorting.

Open Scope string_scope.
Open Scope Z_scope.

(** ** JavaScript numbers

    A JavaScript [number] is an IEEE 754 binary64 value, here a primitive
    [float]: [+] and [-] are [PrimFloat.add] and [PrimFloat.sub], which
    round to nearest, ties to even. *)

Module JsNumber.

Definition number : Set := float.

(** The double nearest to a whole number. *)
Definition ofZ (z : Z) : number :=
  SF2Prim (binary_normalize prec emax z 0 false).

(** [!x]: of the numbers, [+0], [-0] and [NaN] are falsy. *)
Definition falsy (x : number) : bool := (x =? 0)%float || is_nan x.

(** The whole numbers below [2^53] in magnitude: binary64 holds each of
    them, and adds and subtracts them without rounding while the result is
    one of them. *)
Definition safe (z : Z) : Prop := Z.abs z < 2 ^ 53.

End JsNumber.

(** The representation of whole numbers in binary64, for the proofs that
    their sums are exact. *)

Module Binary64.

(** [n] zero bits appended to a mantissa. *)
Definition shl (p : positive) (n : nat) : positive := Nat.iter n xO p.

(** The canonical representation of a positive whole number of at most 53
    bits: the mantissa is brought to 53 bits. *)
Definition canon (s : bool) (v : positive) : spec_float :=
  S754_finite s (shl v (Z.to_nat (53 - Zpos (digits2_pos v))))
              (Zpos (digits2_pos v) - 53).

Definition signed (s : bool) (v : positive) : Z := if s then Zneg v else Zpos v.

Definition norm (z : Z) : spec_float := binary_normalize prec emax z 0 false.

End Binary64.

(** ** src/types.ts: the data model *)

Module Types.

Inductive TransactionType := EXPENSE | INCOME | TRANSFER.

Record Transaction := {
    id : string;
    date : string;                      (* YYYY/MM/DD *)
    type : option TransactionType;      (* defaults to EXPENSE if undefined *)
    source : string;
    destination : string;
    amount : Z;
    summary : string;
    payer : option string;
    projectCode : option string;
    invoiceNumber : option string
  }.

Record AppSettings := {
    commonSources : list string;        (* assets / accounts *)
    commonDestinations : list string;   (* expense categories *)
    commonIncomeSources : list string;  (* income categories *)
    commonNotes : list string;
    initialBalances : option (gmap string JsNumber.number)
  }.

#[global] Instance TransactionType_eq_dec : EqDecision TransactionType.
Proof. solve_decision. Defined.

#[global] Instance Transaction_eq_dec : EqDecision Transaction.
Proof. solve_decision. Defined.

End Types.

(** ** JavaScript idioms used by the sources *)

Module Js.

  (** [if (s)] for a string [s]: the empty string is falsy. *)
Definition truthy (s : string) : bool := negb (String.eqb s "").

  (** [s.replace(/c/g, d)] for single characters [c] and [d]. *)
Fixpoint replaceAll (c d : ascii) (s : string) : string :=
    match s with
    | EmptyString => EmptyString
    | String a r => String (if Ascii.eqb a c then d else a) (replaceAll c d r)
    end.

  (** [s.startsWith(p)] *)
Definition startsWith (s p : string) : bool := String.prefix p s.

  (** [s.includes(p)] *)
Fixpoint includes (s p : string) : bool :=
    String.prefix p s ||
    match s with
    | EmptyString => false
    | String _ r => includes r p
    end.

End Js.

(** ** Plain JavaScript objects used as dictionaries

    [balances] is created by [{}] and written by [balances[k] = v];
    [initialBalances] comes from [JSON.parse] or from an object spread.  Both
    have [Object.prototype] as prototype: a read of a key that is not an own
    property but a member of [Object.prototype] yields that member, and an
    assignment to [__proto__] creates no property. *)

Module JsObject.
Import JsNumber.

(** The values that occur in [balances]: numbers, and what a read through
    the prototype chain brings in. *)
Inductive Value :=
| Num (x : number)
| Alien.   (* a member of [Object.prototype] (a function, or the prototype
              object itself for [__proto__]), or a string that [+] built from
              one: truthy, and [NaN] when converted to a number *)

(** [ToNumber(v)] *)
Definition toNumber (v : Value) : number :=
  match v with Num x => x | Alien => nan end.

Definition truthyValue (v : Value) : bool :=
  match v with Num x => negb (falsy x) | Alien => true end.

(** [v || 0], where [None] is [undefined]. *)
Definition orZero (v : option Value) : Value :=
  match v with
  | Some v => if truthyValue v then v else Num 0%float
  | None => Num 0%float
  end.

(** [v - a]: both operands are converted to numbers. *)
Definition minus (v : Value) (a : number) : Value :=
  Num (toNumber v - a)%float.

(** [v + w]: the sum of two numbers; with an operand that is an object, a
    function or a string, the concatenation of two strings. *)
Definition plus (v w : Value) : Value :=
  match v, w with
  | Num x, Num y => Num (x + y)%float
  | _, _ => Alien
  end.

(** The property names of [Object.prototype]. *)
Definition objectPrototype : list string :=
  ["constructor"; "__defineGetter__"; "__defineSetter__"; "hasOwnProperty";
   "__lookupGetter__"; "__lookupSetter__"; "isPrototypeOf";
   "propertyIsEnumerable"; "toString"; "valueOf"; "__proto__";
   "toLocaleString"].

Definition inherited (k : string) : bool := bool_decide (k ∈ objectPrototype).

(** The own properties, in the order of their creation. *)
Definition Object := list (string * Value).

Fixpoint own (o : Object) (k : string) : option Value :=
  match o with
  | [] => None
  | (j, v) :: r => if String.eqb j k then Some v else own r k
  end.

(** [o[k]] *)
Definition get (o : Object) (k : string) : option Value :=
  match own o k with
  | Some v => Some v
  | None => if inherited k then Some Alien else None
  end.

Fixpoint update (k : string) (v : Value) (o : Object) : Object :=
  match o with
  | [] => [(k, v)]
  | (j, w) :: r => if String.eqb j k then (j, v) :: r else (j, w) :: update k v r
  end.

(** [o[k] = v].  [__proto__] is an accessor of [Object.prototype]: its
    setter ignores a primitive, and given the prototype itself it changes
    nothing; every other name becomes or stays an own property. *)
Definition set (k : string) (v : Value) (o : Object) : Object :=
  if String.eqb k "__proto__" then o else update k v o.

(** [m[k]] for an object holding the numbers of [m] as own properties. *)
Definition readProp (m : gmap string number) (k : string) : option Value :=
  match m !! k with
  | Some x => Some (Num x)
  | None => if inherited k then Some Alien else None
  end.

(** A property name that is an array index: the canonical decimal numeral
    of an integer below [2^32 - 1]. *)
Definition digit (c : ascii) : option N :=
  let n := N_of_ascii c in
  if (48 <=? n)%N && (n <=? 57)%N then Some (n - 48)%N else None.

Fixpoint numeral (s : string) (acc : N) : option N :=
  match s with
  | EmptyString => Some acc
  | String c r =>
      match digit c with
      | Some d => numeral r (10 * acc + d)%N
      | None => None
      end
  end.

Definition arrayIndex (s : string) : option N :=
  match s with
  | EmptyString => None
  | String c r =>
      if Ascii.eqb c "0" then
        match r with EmptyString => Some 0%N | _ => None end
      else
        match numeral s 0 with
        | Some n => if (n <? 4294967295)%N then Some n else None
        | None => None
        end
  end.

Definition indexed (o : Object) : list (N * Value) :=
  omap (fun kv => (fun n => (n, kv.2)) <$> arrayIndex kv.1) o.

Definition named (o : Object) : Object :=
  filter (fun kv => arrayIndex kv.1 = None) o.

Definition indexLe (x y : N * Value) : Prop := (x.1 ≤ y.1)%N.

#[global] Instance indexLe_dec : RelDecision indexLe.
Proof. intros x y. unfold indexLe. apply _. Defined.

(** [Object.values(o)]: the array indices in ascending order, then the
    other names in the order of their creation. *)
Definition values (o : Object) : list Value :=
  ((merge_sort indexLe (indexed o)).*2 ++ (named o).*2)%list.

End JsObject.

(** ** src/components/Dashboard.tsx: the balance engine *)

Module Dashboard.
Import Types Js JsNumber JsObject.

Record Stats := {
    balances : Object;
    totalAssets : Value;
    monthlyIncome : number;
    monthlyExpense : number
  }.

  (** The three accumulators the [useMemo] body threads through its loops. *)
Record Acc := {
    acc_balances : Object;
    acc_income : number;
    acc_expense : number
  }.

  (** [balances[k] = (balances[k] || 0) - amount] *)
Definition debit (k : string) (amt : number) (b : Object) : Object :=
    set k (minus (orZero (get b k)) amt) b.

  (** [balances[k] = (balances[k] || 0) + amount] *)
Definition credit (k : string) (amt : number) (b : Object) : Object :=
    set k (plus (orZero (get b k)) (Num amt)) b.

  (** [accounts.forEach(acc => { balances[acc] = initialBalances[acc] || 0 })] *)
Definition initAccounts (accounts : list string) (initial : gmap string number)
    : Object :=
    foldl (fun b acc => set acc (orZero (readProp initial acc)) b) [] accounts.

  (** [t.date.replace(/\//g, '-').startsWith(currentMonth)] *)
Definition isCurrentMonth (currentMonth : string) (t : Transaction) : bool :=
    startsWith (replaceAll "/" "-" (date t)) currentMonth.

  (** The body of [transactions.forEach(t => ...)].  [Number(t.amount)] is
      the stored amount, a whole number, as the double it is. *)
Definition step (currentMonth : string) (a : Acc) (t : Transaction) : Acc :=
    let amount := ofZ (amount t) in
    let cur := isCurrentMonth currentMonth t in
    match type t with
    | None | Some EXPENSE =>
        {| acc_balances :=
             if truthy (source t) then debit (source t) amount (acc_balances a)
             else acc_balances a;
           acc_income := acc_income a;
           acc_expense :=
             if cur then (acc_expense a + amount)%float else acc_expense a |}
    | Some INCOME =>
        {| acc_balances :=
             if truthy (destination t)
             then credit (destination t) amount (acc_balances a)
             else acc_balances a;
           acc_income :=
             if cur then (acc_income a + amount)%float else acc_income a;
           acc_expense := acc_expense a |}
    | Some TRANSFER =>
        let b1 := if truthy (source t) then debit (source t) amount (acc_balances a)
                  else acc_balances a in
        {| acc_balances :=
             if truthy (destination t) then credit (destination t) amount b1
             else b1;
           acc_income := acc_income a;
           acc_expense := acc_expense a |}
    end.

  (** [Object.values(balances).reduce((acc, val) => acc + val, 0)] *)
Definition sumValues (b : Object) : Value :=
    foldl plus (Num 0%float) (values b).

  (** The [stats] value.  [currentMonth] is
      [new Date().toISOString().slice(0, 7)], read once per evaluation; the
      optional [initialBalances] prop defaults to the empty object. *)
Definition computeStats (currentMonth : string) (transactions : list Transaction)
      (accounts : list string) (initialBalances : option (gmap string number))
    : Stats :=
    let initial := default ∅ initialBalances in
    let a0 := {| acc_balances := initAccounts accounts initial;
                 acc_income := 0%float; acc_expense := 0%float |} in
    let a := foldl (step currentMonth) a0 transactions in
    {| balances := acc_balances a;
       totalAssets := sumValues (acc_balances a);
       monthlyIncome := acc_income a;
       monthlyExpense := acc_expense a |}.

End Dashboard.

(** ** src/components/SettingsDialog.tsx: editing the account vocabulary *)

Module SettingsDialog.
Import Types Js.

  (** [l.filter((_, i) => p(i))], the index counted from [i0]. *)
Fixpoint filterIndexFrom {A} (i0 : nat) (p : nat -> bool) (l : list A) : list A :=
    match l with
    | [] => []
    | x :: r =>
        if p i0 then x :: filterIndexFrom (S i0) p r
        else filterIndexFrom (S i0) p r
    end.

Definition filterIndex {A} (p : nat -> bool) (l : list A) : list A :=
    filterIndexFrom 0 p l.

  (** [delete obj[name]] where [name] may be [undefined]: the property key
      is then the string ["undefined"]. *)
Definition deleteKey (name : option string) (obj : gmap string JsNumber.number)
    : gmap string JsNumber.number :=
    match name with
    | Some k => delete k obj
    | None => delete "undefined" obj
    end.

  (** [handleDeleteSource(index)] applied to the dialog's [localSettings]. *)
Definition handleDeleteSource (index : nat) (localSettings : AppSettings)
    : AppSettings :=
    let nameToRemove := commonSources localSettings !! index in
    let prev := localSettings in
    let newBalances := deleteKey nameToRemove (default ∅ (initialBalances prev)) in
    {| commonSources := filterIndex (fun i => negb (i =? index)%nat) (commonSources prev);
       commonDestinations := commonDestinations prev;
       commonIncomeSources := commonIncomeSources prev;
       commonNotes := commonNotes prev;
       initialBalances := Some newBalances |}.

End SettingsDialog.

(** ** src/components/TransactionForm.tsx: authoring, split expenses *)

Module TransactionForm.
Import Types Js.

  (** A [number | string] state cell fed by an [<input type="number">]:
      the text of the input (empty, or a numeral) or a number stored by
      the component itself. *)
Inductive NumberOrString :=
  | Text (value : option Z)
  | Num (n : Z).

  (** JavaScript truthiness: [''] and [0] are falsy, any other text (even
      the numeral of zero) and any other number are truthy. *)
Definition truthyCell (c : NumberOrString) : bool :=
    match c with
    | Text None => false
    | Text (Some _) => true
    | Num n => negb (n =? 0)
    end.

  (** [Number(c)]; [Number('')] is [0]. *)
Definition Number (c : NumberOrString) : Z :=
    match c with
    | Text None => 0
    | Text (Some n) => n
    | Num n => n
    end.

Record FormState := {
    type : TransactionType;
    date : string;
    source : string;
    destination : string;
    amount : NumberOrString;
    summary : string;
    payer : string;
    isSplit : bool;
    destinationA : string;
    destinationB : string;
    amountA : NumberOrString;
    amountB : NumberOrString
  }.

Definition withAmounts (a b : NumberOrString) (st : FormState) : FormState :=
    {| type := type st; date := date st; source := source st;
       destination := destination st; amount := amount st;
       summary := summary st; payer := payer st; isSplit := isSplit st;
       destinationA := destinationA st; destinationB := destinationB st;
       amountA := a; amountB := b |}.

Definition withAmount (v : NumberOrString) (st : FormState) : FormState :=
    {| type := type st; date := date st; source := source st;
       destination := destination st; amount := v;
       summary := summary st; payer := payer st; isSplit := isSplit st;
       destinationA := destinationA st; destinationB := destinationB st;
       amountA := amountA st; amountB := amountB st |}.

Definition withIsSplit (b : bool) (st : FormState) : FormState :=
    {| type := type st; date := date st; source := source st;
       destination := destination st; amount := amount st;
       summary := summary st; payer := payer st; isSplit := b;
       destinationA := destinationA st; destinationB := destinationB st;
       amountA := amountA st; amountB := amountB st |}.

Definition withDestinations (a b : string) (st : FormState) : FormState :=
    {| type := type st; date := date st; source := source st;
       destination := destination st; amount := amount st;
       summary := summary st; payer := payer st; isSplit := isSplit st;
       destinationA := a; destinationB := b;
       amountA := amountA st; amountB := amountB st |}.

  (** The effect on [[amount, isSplit]]: "auto calculate split amounts if
      total amount changes".  [isNaN(total)] never holds for the cells of
      the model. *)
Definition splitEffect (st : FormState) : FormState :=
    if isSplit st && truthyCell (amount st) then
      let total := Number (amount st) in
      let half := total / 2 in                (* Math.floor(total / 2) *)
      withAmounts (Num half) (Num (total - half)) st
    else st.

  (** [onChange] of the amount input, then the effect it triggers. *)
Definition changeAmount (value : option Z) (st : FormState) : FormState :=
    splitEffect (withAmount (Text value) st).

  (** [onClick] of the split toggle, then the effect it triggers. *)
Definition toggleSplit (st : FormState) : FormState :=
    splitEffect (withIsSplit (negb (isSplit st)) st).



  (** The sentinel category of an expense without one. *)
Definition uncategorized : string := "未分類".

  (** The reset at the end of [handleSubmit] when not editing. *)
Definition resetAfterSubmit (st : FormState) : FormState :=
    {| type := type st; date := date st; source := source st;
       destination := destination st; amount := Text None;
       summary := ""; payer := payer st; isSplit := isSplit st;
       destinationA := destinationA st; destinationB := destinationB st;
       amountA := Text None; amountB := Text None |}.

Section Submit.
    (** [uuidv4()]: the [n]-th identifier drawn in this session. *)
Variable uuidv4 : nat -> string.

Definition baseTransaction (st : FormState) (id0 dest : string) (amt : Z)
      : Transaction :=
      {| Types.id := id0;
         Types.date := replaceAll "-" "/" (date st);
         Types.type := Some (type st);
         Types.source := source st;
         Types.destination := dest;
         Types.amount := amt;
         Types.summary := summary st;
         Types.payer := Some (payer st);
         Types.projectCode := Some "";
         Types.invoiceNumber := Some "" |}.

Definition singleDestination (st : FormState) : string :=
      match type st with
      | EXPENSE => if truthy (destination st) then destination st else uncategorized
      | _ => destination st
      end.

    (** [handleSubmit]: the argument handed to [onSubmit] (if any), the
        form state afterwards and the number of identifiers drawn so far. *)
Definition handleSubmit (editingTransaction : option Transaction)
        (st : FormState) (drawn : nat)
      : option (list Transaction) * FormState * nat :=
      if negb (truthy (source st)) || negb (truthyCell (amount st)) then
        (None, st, drawn)
      else if (match type st with INCOME | TRANSFER => true | EXPENSE => false end)
              && negb (truthy (destination st)) then
        (None, st, drawn)
      else
        match editingTransaction with
        | Some e =>
            (* { ...editingTransaction, ...baseTransaction, destination } *)
            let updated :=
              baseTransaction st (Types.id e) (singleDestination st)
                              (Number (amount st)) in
            (Some [updated], st, drawn)
        | None =>
            match type st, isSplit st with
            | EXPENSE, true =>
                if negb (truthy (destinationA st)) || negb (truthy (destinationB st))
                then (None, st, drawn)
                else
                  let t1 := baseTransaction st (uuidv4 drawn)
                              (destinationA st) (Number (amountA st)) in
                  let t2 :=
                    {| Types.id := uuidv4 (S drawn);
                       Types.date := Types.date
                         (baseTransaction st "" "" 0);
                       Types.type := Some EXPENSE;
                       Types.source := source st;
                       Types.destination := destinationB st;
                       Types.amount := Number (amountB st);
                       Types.summary := summary st;
                       Types.payer := Some (payer st);
                       Types.projectCode := Some "";
                       Types.invoiceNumber := Some "" |} in
                  (Some [t1; t2], resetAfterSubmit st, S (S drawn))
            | _, _ =>
                let t1 := baseTransaction st (uuidv4 drawn) (singleDestination st)
                            (Number (amount st)) in
                (Some [t1], resetAfterSubmit st, S drawn)
            end
        end.
End Submit.

End TransactionForm.

(** ** Thrown values, the Dropbox SDK, the browser

    The Dropbox SDK and the user are the environment of the program.  The
    SDK is a record of handlers over an abstract remote state, so that a
    statement quantified over [Env] holds whatever the remote store answers
    (success, "not found", transport failure, rejected token).  Every SDK
    call is appended to the log [calls] of the world. *)

Module Runtime.
Import Types.

(** What the sources read off a caught value [error]. *)
Record Thrown := {
  status : option Z;                (* error.status *)
  error_tag : option string;        (* error.error['.tag'] *)
  path_lookup_tag : option string;  (* error.error.path_lookup['.tag'] *)
  error_summary : option string;    (* error.error_summary *)
  message : option string;          (* error.message *)
  stringified : string              (* JSON.stringify(error) *)
}.

(** [new Error(msg)]: it has no enumerable property of its own. *)
Definition Error (msg : string) : Thrown :=
  {| status := None; error_tag := None; path_lookup_tag := None;
     error_summary := None; message := Some msg; stringified := "{}" |}.

Inductive Outcome (A : Type) :=
| Returned (a : A)
| Threw (error : Thrown).
Arguments Returned {A} a.
Arguments Threw {A} error.

(** The options a [Dropbox] client object is built from. *)
Record Client := {
  accessToken : string;
  refreshToken : option string;
  clientId : option string
}.

Inductive SdkCall (Blob : Type) :=
| FilesGetMetadata (path : string)
| FilesUpload (path : string) (contents : Blob)
| FilesDownload (path : string)
| FilesMoveV2 (from_path to_path : string)
| FilesDeleteV2 (path : string)
| AuthTokenRevoke.
Arguments FilesGetMetadata {Blob} path.
Arguments FilesUpload {Blob} path contents.
Arguments FilesDownload {Blob} path.
Arguments FilesMoveV2 {Blob} from_path to_path.
Arguments FilesDeleteV2 {Blob} path.
Arguments AuthTokenRevoke {Blob}.

(** [filesDownload] answers with the blob of the response
    ([result.fileBlob] or [result.fileBinary]), if it carries one. *)
Record Sdk (Remote Blob : Type) := {
  filesGetMetadata : Client -> string -> Remote -> Outcome unit * Remote;
  filesUpload : Client -> string -> Blob -> Remote -> Outcome unit * Remote;
  filesDownload : Client -> string -> Remote -> Outcome (option Blob) * Remote;
  filesMoveV2 : Client -> string -> string -> Remote -> Outcome unit * Remote;
  filesDeleteV2 : Client -> string -> Remote -> Outcome unit * Remote;
  authTokenRevoke : Client -> Remote -> Outcome unit * Remote
}.
Arguments filesGetMetadata {Remote Blob} _ _ _ _.
Arguments filesUpload {Remote Blob} _ _ _ _ _.
Arguments filesDownload {Remote Blob} _ _ _ _.
Arguments filesMoveV2 {Remote Blob} _ _ _ _ _.
Arguments filesDeleteV2 {Remote Blob} _ _ _ _.
Arguments authTokenRevoke {Remote Blob} _ _ _.

(** [JSON.stringify(data, null, 2)] and [JSON.parse(text) as T] at one
    type [T]; parsing may throw, and may yield [null]. *)
Record Codec (Blob T : Type) := {
  stringify : T -> Blob;
  parse : Blob -> Outcome (option T)
}.
Arguments stringify {Blob T} _ _.
Arguments parse {Blob T} _ _.

(** The document of [/profiles.json]: [{ profiles: string[] }], the field
    possibly missing in what was downloaded. *)
Record Registry := { profiles : option (list string) }.

Inductive ConfirmMsg :=
| ConfirmLogout             (* "確定要登出嗎？..." *)
| ConfirmOpenDropboxLogout  (* "已清除本機登入資訊。..." *)
| ConfirmDeleteRecord.      (* "確定要刪除這筆紀錄嗎？" *)

Inductive AlertMsg :=
| AlertAuthExpired              (* "授權已過期，請重新登入 Dropbox。" *)
| AlertCannotCheckFile          (* "無法檢查檔案狀態 ... 將暫停載入。" *)
| AlertLoadFailed               (* "載入資料時發生錯誤" *)
| AlertEditDone                 (* "修改完成！" *)
| AlertSaveFailed (msg : string)(* "儲存失敗！資料未同步到 Dropbox 錯誤代碼: msg" *)
| AlertDeleteFailed             (* "刪除失敗！資料未同步到 Dropbox" *)
| AlertSettingsSaveFailed.      (* "設定儲存失敗，無法同步至 Dropbox" *)

Inductive UiEvent :=
| Alert (msg : AlertMsg)
| WindowOpen (url : string)
| ScrollToTop.

Record Env (Remote Blob : Type) := {
  sdk : Sdk Remote Blob;
  transactionsJson : Codec Blob (list Transaction);
  settingsJson : Codec Blob AppSettings;
  registryJson : Codec Blob Registry;
  confirm : ConfirmMsg -> bool       (* the user's answer to [confirm(msg)] *)
}.
Arguments sdk {Remote Blob} _.
Arguments transactionsJson {Remote Blob} _.
Arguments settingsJson {Remote Blob} _.
Arguments registryJson {Remote Blob} _.
Arguments confirm {Remote Blob} _ _.

End Runtime.

(** ** The state of the [DropboxService] singleton and of the [App] component *)

Module DropboxState.
Import Runtime.

Record Service := {
  dbx : option Client;          (* Dropbox | null *)
  auth : option string;         (* DropboxAuth | null, by its clientId *)
  currentProfile : string
}.

Definition set_dbx (v : option Client) (s : Service) : Service :=
  {| dbx := v; auth := auth s; currentProfile := currentProfile s |}.

Definition set_auth (v : option string) (s : Service) : Service :=
  {| dbx := dbx s; auth := v; currentProfile := currentProfile s |}.

Definition set_currentProfile (v : string) (s : Service) : Service :=
  {| dbx := dbx s; auth := auth s; currentProfile := v |}.

End DropboxState.

Module AppState.
Import Types.

Record State := {
  transactions : list Transaction;
  editingTransaction : option Transaction;
  isAuthenticated : bool;
  isLoading : bool;
  settings : AppSettings;
  isSettingsOpen : bool;
  profiles : list string;
  currentProfile : string;
  recentSources : list string;
  recentDestinations : list string
}.

Definition with_transactions (v : list Transaction) (s : State) : State :=
  {| transactions := v; editingTransaction := editingTransaction s;
     isAuthenticated := isAuthenticated s; isLoading := isLoading s;
     settings := settings s; isSettingsOpen := isSettingsOpen s;
     profiles := profiles s; currentProfile := currentProfile s;
     recentSources := recentSources s;
     recentDestinations := recentDestinations s |}.

Definition with_editingTransaction (v : option Transaction) (s : State) : State :=
  {| transactions := transactions s; editingTransaction := v;
     isAuthenticated := isAuthenticated s; isLoading := isLoading s;
     settings := settings s; isSettingsOpen := isSettingsOpen s;
     profiles := profiles s; currentProfile := currentProfile s;
     recentSources := recentSources s;
     recentDestinations := recentDestinations s |}.

Definition with_isAuthenticated (v : bool) (s : State) : State :=
  {| transactions := transactions s; editingTransaction := editingTransaction s;
     isAuthenticated := v; isLoading := isLoading s;
     settings := settings s; isSettingsOpen := isSettingsOpen s;
     profiles := profiles s; currentProfile := currentProfile s;
     recentSources := recentSources s;
     recentDestinations := recentDestinations s |}.

Definition with_isLoading (v : bool) (s : State) : State :=
  {| transactions := transactions s; editingTransaction := editingTransaction s;
     isAuthenticated := isAuthenticated s; isLoading := v;
     settings := settings s; isSettingsOpen := isSettingsOpen s;
     profiles := profiles s; currentProfile := currentProfile s;
     recentSources := recentSources s;
     recentDestinations := recentDestinations s |}.

Definition with_settings (v : AppSettings) (s : State) : State :=
  {| transactions := transactions s; editingTransaction := editingTransaction s;
     isAuthenticated := isAuthenticated s; isLoading := isLoading s;
     settings := v; isSettingsOpen := isSettingsOpen s;
     profiles := profiles s; currentProfile := currentProfile s;
     recentSources := recentSources s;
     recentDestinations := recentDestinations s |}.

Definition with_recent (srcs dests : list string) (s : State) : State :=
  {| transactions := transactions s; editingTransaction := editingTransaction s;
     isAuthenticated := isAuthenticated s; isLoading := isLoading s;
     settings := settings s; isSettingsOpen := isSettingsOpen s;
     profiles := profiles s; currentProfile := currentProfile s;
     recentSources := srcs; recentDestinations := dests |}.

End AppState.

(** ** The world and the monad of the asynchronous code

    An [async] function is a state transformer that either returns or
    throws; [await] is sequencing.  The model is sequential: a call that the
    source does not await is run to completion where it is made. *)

Module World.
Import Types Runtime.

Record World (Remote Blob : Type) := {
  remote : Remote;
  calls : list (SdkCall Blob);           (* oldest first *)
  svc : DropboxState.Service;
  localStorage : gmap string string;
  app : AppState.State;
  ui : list UiEvent                      (* oldest first *)
}.
Arguments remote {Remote Blob} _.
Arguments calls {Remote Blob} _.
Arguments svc {Remote Blob} _.
Arguments localStorage {Remote Blob} _.
Arguments app {Remote Blob} _.
Arguments ui {Remote Blob} _.

Section Monad.
Context {Remote Blob : Type}.

#[local] Abbreviation W := (World Remote Blob).

Definition M (A : Type) : Type := W -> Outcome A * W.

Definition ret {A} (a : A) : M A := fun w => (Returned a, w).

Definition bind {A B} (m : M A) (k : A -> M B) : M B :=
  fun w =>
    match m w with
    | (Returned a, w') => k a w'
    | (Threw e, w') => (Threw e, w')
    end.

Definition throw {A} (e : Thrown) : M A := fun w => (Threw e, w).

(** [try { m } catch (error) { h(error) }] *)
Definition tryCatch {A} (m : M A) (h : Thrown -> M A) : M A :=
  fun w =>
    match m w with
    | (Returned a, w') => (Returned a, w')
    | (Threw e, w') => h e w'
    end.

(** [try { m } finally { f }], for an [f] that does not throw. *)
Definition tryFinally {A} (m : M A) (f : W -> W) : M A :=
  fun w => let '(r, w') := m w in (r, f w').

(** A call whose promise is dropped: its effects happen, its completion
    value and any rejection are lost. *)
Definition detached {A} (m : M A) : M unit :=
  fun w => (Returned tt, (m w).2).

Definition get {A} (f : W -> A) : M A := fun w => (Returned (f w), w).

Definition modify (f : W -> W) : M unit := fun w => (Returned tt, f w).

Definition set_remote (r : Remote) (w : W) : W :=
  {| remote := r; calls := calls w; svc := svc w;
     localStorage := localStorage w; app := app w; ui := ui w |}.

Definition add_call (c : SdkCall Blob) (w : W) : W :=
  {| remote := remote w; calls := calls w ++ [c]; svc := svc w;
     localStorage := localStorage w; app := app w; ui := ui w |}.

Definition set_svc (s : DropboxState.Service) (w : W) : W :=
  {| remote := remote w; calls := calls w; svc := s;
     localStorage := localStorage w; app := app w; ui := ui w |}.

Definition set_localStorage (l : gmap string string) (w : W) : W :=
  {| remote := remote w; calls := calls w; svc := svc w;
     localStorage := l; app := app w; ui := ui w |}.

Definition set_app (a : AppState.State) (w : W) : W :=
  {| remote := remote w; calls := calls w; svc := svc w;
     localStorage := localStorage w; app := a; ui := ui w |}.

Definition add_ui (e : UiEvent) (w : W) : W :=
  {| remote := remote w; calls := calls w; svc := svc w;
     localStorage := localStorage w; app := app w; ui := ui w ++ [e] |}.

(** One SDK request: logged, then answered by the environment. *)
Definition request {A} (c : SdkCall Blob) (handler : Remote -> Outcome A * Remote)
  : M A :=
  fun w =>
    let '(r, rem) := handler (remote w) in
    (r, set_remote rem (add_call c w)).

Definition liftOutcome {A} (o : Outcome A) : M A := fun w => (o, w).

Definition alert (msg : AlertMsg) : M unit := modify (add_ui (Alert msg)).

End Monad.

Declare Scope js_scope.
Delimit Scope js_scope with js.
Notation "x <- m ;; k" := (bind m (fun x => k))
  (at level 100, m at next level, k at level 200, right associativity) : js_scope.
Notation "m ;; k" := (bind m (fun _ => k))
  (at level 100, k at level 200, right associativity) : js_scope.

End World.

(** ** src/services/dropbox.ts: class DropboxService *)

Module Dropbox.
Import Types Js Runtime DropboxState World.
Open Scope js_scope.

Section Service.
Context {Remote Blob : Type}.
Variable env : Env Remote Blob.

#[local] Abbreviation W := (World Remote Blob).
#[local] Abbreviation M := (@M Remote Blob).

Definition notAuthenticated : Thrown := Error "Not authenticated".

(** The [TypeError] of a property access on [null]. *)
Definition nullDereference : Thrown :=
  Error "Cannot read properties of null".

Definition setAccessToken (token : string) (refresh : option string) : M unit :=
  modify (fun w =>
    set_svc (set_dbx (Some
      match refresh with
      | Some r => if truthy r
                  then {| accessToken := token; refreshToken := Some r;
                          clientId := Some "oa453zne5pnx0u4" |}
                  else {| accessToken := token; refreshToken := None;
                          clientId := None |}
      | None => {| accessToken := token; refreshToken := None; clientId := None |}
      end) (svc w)) w).

Definition isAuthenticated : M bool :=
  get (fun w => bool_decide (is_Some (dbx (svc w)))).

(** [logout()]: a failed revocation is logged to the console only. *)
Definition logout : M unit :=
  d <- get (fun w => dbx (svc w)) ;;
  (match d with
   | Some client =>
       tryCatch (request AuthTokenRevoke (authTokenRevoke (sdk env) client))
                (fun _ => ret tt)
   | None => ret tt
   end) ;;
  modify (fun w => set_svc (set_dbx None (svc w)) w) ;;
  modify (fun w => set_svc (set_auth None (svc w)) w) ;;
  modify (fun w => set_localStorage (delete "dropbox_token" (localStorage w)) w) ;;
  modify (fun w =>
    set_localStorage (delete "dropbox_refresh_token" (localStorage w)) w).

Definition setProfile (profileName : string) : M unit :=
  modify (fun w => set_svc (set_currentProfile profileName (svc w)) w).

Definition getProfile : M string := get (fun w => currentProfile (svc w)).

(** [getPath(filename)] for the profile held by the service. *)
Definition getPath (s : Service) (filename : string) : string :=
  let cleanName :=
    if startsWith filename "/" then
      match filename with String _ r => r | EmptyString => EmptyString end
    else filename in
  if String.eqb (currentProfile s) "Default" then "/" ++ cleanName
  else "/profiles/" ++ currentProfile s ++ "/" ++ cleanName.

Definition resolve (filename : string) (isAbsolute : bool) : M string :=
  get (fun w => if isAbsolute then filename else getPath (svc w) filename).

(** The test of the [catch] in [checkFileExists]:
    [tag === 'path_not_found' || JSON.stringify(error).includes('path_not_found')]
    with [tag = errorData['.tag'] || errorData.path_lookup?.['.tag']]. *)
Definition saysPathNotFound (error : Thrown) : bool :=
  let tag :=
    match error_tag error with
    | Some t => if truthy t then Some t else path_lookup_tag error
    | None => path_lookup_tag error
    end in
  bool_decide (tag = Some "path_not_found")
  || includes (stringified error) "path_not_found".

Definition checkFileExists (filename : string) (isAbsolute : bool) : M bool :=
  d <- get (fun w => dbx (svc w)) ;;
  match d with
  | None => ret false
  | Some client =>
      path <- resolve filename isAbsolute ;;
      tryCatch
        (request (FilesGetMetadata path) (filesGetMetadata (sdk env) client path) ;;
         ret true)
        (fun error =>
           if saysPathNotFound error then ret false else throw error)
  end.

Definition uploadFile {T} (json : Codec Blob T) (data : T)
    (filename : string) (isAbsolute : bool) : M unit :=
  d <- get (fun w => dbx (svc w)) ;;
  match d with
  | None => throw notAuthenticated
  | Some client =>
      path <- resolve filename isAbsolute ;;
      let fileContent := stringify json data in
      request (FilesUpload path fileContent)
              (filesUpload (sdk env) client path fileContent)
  end.

Definition downloadFile {T} (json : Codec Blob T)
    (filename : string) (isAbsolute : bool) : M (option T) :=
  d <- get (fun w => dbx (svc w)) ;;
  match d with
  | None => throw notAuthenticated
  | Some client =>
      path <- resolve filename isAbsolute ;;
      tryCatch
        (fileBlob <- request (FilesDownload path)
                             (filesDownload (sdk env) client path) ;;
         match fileBlob with
         | Some blob => liftOutcome (parse json blob)
         | None => ret None
         end)
        (fun error =>
           if includes (stringified error) "path_not_found" then ret None
           else throw error)
  end.

Definition getProfiles : M (list string) :=
  d <- get (fun w => dbx (svc w)) ;;
  match d with
  | None => ret ["Default"]
  | Some _ =>
      tryCatch
        (data <- downloadFile (registryJson env) "/profiles.json" true ;;
         ret (match data with
              | Some {| profiles := Some l |} => l
              | _ => ["Default"]
              end))
        (fun _ => ret ["Default"])
  end.

(** [profiles.includes(name)] *)
Definition includesName (profiles : list string) (name : string) : bool :=
  existsb (String.eqb name) profiles.

Definition addProfile (name : string) : M unit :=
  profiles <- getProfiles ;;
  if negb (includesName profiles name) then
    uploadFile (registryJson env) {| Runtime.profiles := Some (profiles ++ [name])%list |}
               "/profiles.json" true
  else ret tt.

Definition renameProfile (oldName newName : string) : M unit :=
  d <- get (fun w => dbx (svc w)) ;;
  if negb (bool_decide (is_Some d)) then throw notAuthenticated
  else if String.eqb oldName "Default" then
    throw (Error "Cannot rename Default profile")
  else
    profiles <- getProfiles ;;
    if includesName profiles newName then
      throw (Error "Profile name already exists")
    else
      (* 1. Update profiles.json first to secure the new name *)
      let newProfiles :=
        map (fun p => if String.eqb p oldName then newName else p) profiles in
      uploadFile (registryJson env) {| Runtime.profiles := Some newProfiles |}
                 "/profiles.json" true ;;
      (* 2. Move Folder *)
      let oldPath := "/profiles/" ++ oldName in
      let newPath := "/profiles/" ++ newName in
      tryCatch
        (d' <- get (fun w => dbx (svc w)) ;;
         match d' with
         | Some client =>
             request (FilesMoveV2 oldPath newPath)
                     (filesMoveV2 (sdk env) client oldPath newPath)
         | None => throw nullDereference
         end)
        (fun _ => ret tt) ;;
      (* 3. Update current profile state *)
      cur <- get (fun w => currentProfile (svc w)) ;;
      if String.eqb cur oldName then
        modify (fun w => set_svc (set_currentProfile newName (svc w)) w)
      else ret tt.

Definition deleteProfile (name : string) : M unit :=
  d <- get (fun w => dbx (svc w)) ;;
  if negb (bool_decide (is_Some d)) then throw notAuthenticated
  else if String.eqb name "Default" then
    throw (Error "Cannot delete Default profile")
  else
    (* 1. Delete Folder *)
    tryCatch
      (d' <- get (fun w => dbx (svc w)) ;;
       match d' with
       | Some client =>
           request (FilesDeleteV2 ("/profiles/" ++ name))
                   (filesDeleteV2 (sdk env) client ("/profiles/" ++ name))
       | None => throw nullDereference
       end)
      (fun _ => ret tt) ;;
    (* 2. Update profiles.json *)
    profiles <- getProfiles ;;
    let newProfiles := filter (fun p => p ≠ name) profiles in
    uploadFile (registryJson env) {| Runtime.profiles := Some newProfiles |}
               "/profiles.json" true ;;
    (* 3. Reset state *)
    cur <- get (fun w => currentProfile (svc w)) ;;
    if String.eqb cur name then
      modify (fun w => set_svc (set_currentProfile "Default" (svc w)) w)
    else ret tt.

Definition loadSettings : M (option AppSettings) :=
  downloadFile (settingsJson env) "settings.json" false.

Definition saveSettings (settings : AppSettings) : M unit :=
  uploadFile (settingsJson env) settings "settings.json" false.

End Service.

End Dropbox.

(** ** src/types.ts (second part): the [App] component's handlers *)

Module App.
Import Types Js Runtime DropboxState AppState World.
Open Scope js_scope.

Definition DEFAULT_SETTINGS : AppSettings :=
  {| commonSources := ["國泰PLAY(街口)"; "現金"; "中信LINE PAY"; "台新GoGo"; "聯邦賴點卡"];
     commonDestinations :=
       ["早餐"; "午餐"; "晚餐"; "飲料"; "交通"; "超市"; "房租"; "娛樂"; "醫療"; "其他"];
     commonIncomeSources := ["薪資"; "獎金"; "投資"; "回饋"; "其他"];
     commonNotes := ["早餐"; "午餐"; "晚餐"; "飲料"; "交通"];
     initialBalances := None |}.

(** [Array.from(new Set(l))]: first occurrences, in order. *)
Fixpoint distinct (seen l : list string) : list string :=
  match l with
  | [] => []
  | x :: r =>
      if existsb (String.eqb x) seen then distinct seen r
      else x :: distinct (x :: seen) r
  end.

Section Handlers.
Context {Remote Blob : Type}.
Variable env : Env Remote Blob.

#[local] Abbreviation W := (World Remote Blob).
#[local] Abbreviation M := (@M Remote Blob).

Definition onApp (f : State -> State) : M unit :=
  modify (fun w => set_app (f (app w)) w).

Definition setTransactions (v : list Transaction) : M unit :=
  onApp (with_transactions v).
Definition setEditingTransaction (v : option Transaction) : M unit :=
  onApp (with_editingTransaction v).
Definition setIsAuthenticated (v : bool) : M unit :=
  onApp (with_isAuthenticated v).
Definition setIsLoading (v : bool) : M unit :=
  onApp (with_isLoading v).
Definition setSettings (v : AppSettings) : M unit :=
  onApp (with_settings v).

Definition updateSuggestions (data : list Transaction) : M unit :=
  let sources := take 10 (distinct [] (map source data)) in
  let dests := take 10 (distinct [] (map destination data)) in
  onApp (with_recent sources dests).

Definition handleLogout : M unit :=
  if confirm env ConfirmLogout then
    Dropbox.logout env ;;
    setIsAuthenticated false ;;
    setTransactions [] ;;
    if confirm env ConfirmOpenDropboxLogout then
      modify (add_ui (WindowOpen "https://www.dropbox.com/logout"))
    else ret tt
  else ret tt.

(** [status === 401 || status === 400] where
    [status = error.status || (error.reponse && error.response.status)];
    no thrown value has a property [reponse], so the second operand is
    [undefined]. *)
Definition statusUnauthorized (error : Thrown) : bool :=
  bool_decide (status error = Some 401) || bool_decide (status error = Some 400).

(** The test of the outer [catch] of [loadDataAndSettings]. *)
Definition unauthorizedOrBadToken (error : Thrown) : bool :=
  statusUnauthorized error
  || bool_decide (error_tag error = Some "invalid_access_token").

(** The blocks of [loadDataAndSettings], in the order of the source. *)

(** The [catch] around [checkFileExists('bookkeeping_data.json')]; both of
    its branches end in [return], rendered as [None]. *)
Definition onCheckFailed (error : Thrown) : M (option bool) :=
  if statusUnauthorized error then
    alert AlertAuthExpired ;;
    detached handleLogout ;;
    ret None
  else
    alert AlertCannotCheckFile ;;
    setIsLoading false ;;
    ret None.                         (* STOP here to protect data *)

(** [if (exists) { ... } else { ... }] *)
Definition loadTransactions (exists_ : bool) : M unit :=
  if exists_ then
    data <- Dropbox.downloadFile env (transactionsJson env)
              "bookkeeping_data.json" false ;;
    match data with
    | Some data => setTransactions data ;; updateSuggestions data
    | None => ret tt
    end
  else
    (* Only if we are SURE it doesn't exist do we create a new one *)
    Dropbox.uploadFile env (transactionsJson env) []
      "bookkeeping_data.json" false ;;
    setTransactions [].

(** The [try]/[catch] under "Load Settings". *)
Definition loadSettingsOrDefaults : M unit :=
  tryCatch
    (settingsExists <- Dropbox.checkFileExists env "settings.json" false ;;
     if settingsExists : bool then
       loadedSettings <- Dropbox.loadSettings env ;;
       match loadedSettings with
       | Some s => setSettings s
       | None => ret tt
       end
     else
       (* New profile might not have settings yet, use defaults *)
       setSettings DEFAULT_SETTINGS)
    (fun _ => setSettings DEFAULT_SETTINGS).

(** The outer [catch]. *)
Definition onLoadFailed (error : Thrown) : M unit :=
  if unauthorizedOrBadToken error then
    alert AlertAuthExpired ;;
    detached handleLogout
  else alert AlertLoadFailed.

Definition loadDataAndSettings : M unit :=
  setIsLoading true ;;
  tryFinally
    (tryCatch
       (checked <-
          tryCatch
            (e <- Dropbox.checkFileExists env "bookkeeping_data.json" false ;;
             ret (Some e))
            onCheckFailed ;;
        match checked with
        | None => ret tt                       (* return *)
        | Some exists_ =>
            loadTransactions exists_ ;;
            loadSettingsOrDefaults
        end)
       onLoadFailed)
    (fun w => set_app (with_isLoading false (app w)) w).

(** What is left of [loadDataAndSettings] when
    [await dropboxService.downloadFile('bookkeeping_data.json')] hands it
    [data]: the rest of the outer [try], under its [catch] and [finally].
    Whatever ran while the load was suspended has run on the state it
    resumes in. *)
Definition resumeAfterDownload (data : option (list Transaction)) : M unit :=
  tryFinally
    (tryCatch
       (match data with
        | Some data => setTransactions data ;; updateSuggestions data
        | None => ret tt
        end ;;
        loadSettingsOrDefaults)
       onLoadFailed)
    (fun w => set_app (with_isLoading false (app w)) w).

(** [error.error_summary || error.message || JSON.stringify(error)] *)
Definition errorText (error : Thrown) : string :=
  match error_summary error with
  | Some s => if truthy s then s else
      match message error with
      | Some m => if truthy m then m else stringified error
      | None => stringified error
      end
  | None =>
      match message error with
      | Some m => if truthy m then m else stringified error
      | None => stringified error
      end
  end.

Definition handleAddTransaction (newTransactions : list Transaction) : M unit :=
  transactions <- get (fun w => transactions (app w)) ;;
  editing <- get (fun w => editingTransaction (app w)) ;;
  updated <-
    match editing, newTransactions with
    | Some _, [t0] =>
        (* Update mode *)
        setEditingTransaction None ;;
        alert AlertEditDone ;;
        ret (map (fun t => if String.eqb (id t) (id t0) then t0 else t)
                 transactions)
    | _, _ =>
        (* Create mode (or split) *)
        ret (transactions ++ newTransactions)%list
    end ;;
  setTransactions updated ;;
  updateSuggestions updated ;;
  tryCatch
    (Dropbox.uploadFile env (transactionsJson env) updated
       "bookkeeping_data.json" false)
    (fun error => alert (AlertSaveFailed (errorText error))).

Definition handleEditTransaction (t : Transaction) : M unit :=
  setEditingTransaction (Some t) ;;
  modify (add_ui ScrollToTop).

Definition handleDeleteTransaction (id0 : string) : M unit :=
  if negb (confirm env ConfirmDeleteRecord) then ret tt
  else
    transactions <- get (fun w => transactions (app w)) ;;
    let updated := filter (fun t => id t ≠ id0) transactions in
    setTransactions updated ;;
    tryCatch
      (Dropbox.uploadFile env (transactionsJson env) updated
         "bookkeeping_data.json" false)
      (fun _ => alert AlertDeleteFailed).

Definition handleSaveSettings (newSettings : AppSettings) : M unit :=
  setSettings newSettings ;;
  tryCatch (Dropbox.saveSettings env newSettings)
           (fun _ => alert AlertSettingsSaveFailed).

End Handlers.

End App.

(** ** The balance rules in the words of the specification

    Section 4.5: an [EXPENSE] decrements [balances[source]], an [INCOME]
    increments [balances[destination]], a [TRANSFER] does both; a record
    without a type is an expense; every listed account starts at its initial
    balance, or at 0 without one. *)

Module LedgerSpec.
Import Types.

Definition balanceChange (k : string) (t : Transaction) : Z :=
  match type t with
  | None | Some EXPENSE => if decide (source t = k) then - amount t else 0
  | Some INCOME => if decide (destination t = k) then amount t else 0
  | Some TRANSFER =>
      (if decide (source t = k) then - amount t else 0)
      + (if decide (destination t = k) then amount t else 0)
  end.

Definition startingBalance (accounts : list string)
    (initialBalances : option (gmap string Z)) (k : string) : Z :=
  if decide (k ∈ accounts) then default 0 (default ∅ initialBalances !! k) else 0.

Definition total (l : list Z) : Z := foldr Z.add 0 l.

(** The monthly figures: each transaction contributes by itself, an INCOME
    of the month to the income, an EXPENSE of the month to the expense, a
    TRANSFER to neither. *)
Definition incomeOf (inMonth : Transaction → bool) (t : Transaction) : Z :=
  match type t with
  | Some INCOME => if inMonth t then amount t else 0
  | _ => 0
  end.

Definition expenseOf (inMonth : Transaction → bool) (t : Transaction) : Z :=
  match type t with
  | None | Some EXPENSE => if inMonth t then amount t else 0
  | _ => 0
  end.

(** The balance of account [k]: its start plus the changes of all
    transactions. *)
Definition balanceOf (transactions : list Transaction) (accounts : list string)
    (initialBalances : option (gmap string Z)) (k : string) : Z :=
  startingBalance accounts initialBalances k
  + total (map (balanceChange k) transactions).

(** Section 4.3 and 8: the mutations of the ledger and their pure meaning
    on a collection: [add] appends, [update] replaces the transaction with
    the matching [id] (no-op if there is none), [remove] filters by [id].
    An update carries the record as listed and as edited. *)
Inductive Mutation :=
| Add (newTransactions : list Transaction)
| Update (original edited : Transaction)
| Remove (id0 : string).

Definition applyMutation (l : list Transaction) (m : Mutation) : list Transaction :=
  match m with
  | Add ts => (l ++ ts)%list
  | Update _ t => map (fun x => if decide (id x = id t) then t else x) l
  | Remove i => filter (fun x => id x ≠ i) l
  end.

End LedgerSpec.

(** ** The balance computation in exact arithmetic

    The computation as the specification describes it: whole amounts, exact
    sums and a finite map of balances.  The dashboard is compared with it
    where doubles are exact (see [computeStats_exact]). *)

Module ExactLedger.
Import Types Js.

(** A missing entry counts as 0. *)
Definition orZero (x : option Z) : Z := default 0 x.

Record Stats := {
    balances : gmap string Z;
    totalAssets : Z;
    monthlyIncome : Z;
    monthlyExpense : Z
  }.

Record Acc := {
    acc_balances : gmap string Z;
    acc_income : Z;
    acc_expense : Z
  }.

(** An EXPENSE or a TRANSFER decrements the balance of its source. *)
Definition debit (k : string) (amt : Z) (b : gmap string Z) : gmap string Z :=
    <[k := orZero (b !! k) - amt]> b.

(** An INCOME or a TRANSFER increments the balance of its destination. *)
Definition credit (k : string) (amt : Z) (b : gmap string Z) : gmap string Z :=
    <[k := orZero (b !! k) + amt]> b.

(** Both are one guarded adjustment of a balance. *)
Definition adjust (k : string) (d : Z) (b : gmap string Z) : gmap string Z :=
  if truthy k then <[k := orZero (b !! k) + d]> b else b.

(** Each account starts at its initial balance, 0 if absent. *)
Definition initAccounts (accounts : list string) (initial : gmap string Z)
    : gmap string Z :=
    foldl (fun b acc => <[acc := orZero (initial !! acc)]> b) ∅ accounts.

Definition step (currentMonth : string) (a : Acc) (t : Transaction) : Acc :=
    let amount := amount t in
    let cur := Dashboard.isCurrentMonth currentMonth t in
    match type t with
    | None | Some EXPENSE =>
        {| acc_balances :=
             if truthy (source t) then debit (source t) amount (acc_balances a)
             else acc_balances a;
           acc_income := acc_income a;
           acc_expense := if cur then acc_expense a + amount else acc_expense a |}
    | Some INCOME =>
        {| acc_balances :=
             if truthy (destination t)
             then credit (destination t) amount (acc_balances a)
             else acc_balances a;
           acc_income := if cur then acc_income a + amount else acc_income a;
           acc_expense := acc_expense a |}
    | Some TRANSFER =>
        let b1 := if truthy (source t) then debit (source t) amount (acc_balances a)
                  else acc_balances a in
        {| acc_balances :=
             if truthy (destination t) then credit (destination t) amount b1
             else b1;
           acc_income := acc_income a;
           acc_expense := acc_expense a |}
    end.

Definition sumValues (b : gmap string Z) : Z :=
    map_fold (fun _ val acc => acc + val) 0 b.

(** The sum of the magnitudes of the balances. *)
Definition sumAbs (b : gmap string Z) : Z :=
    map_fold (fun _ val acc => acc + Z.abs val) 0 b.

Definition computeStats (currentMonth : string) (transactions : list Transaction)
      (accounts : list string) (initialBalances : option (gmap string Z)) : Stats :=
    let initial := default ∅ initialBalances in
    let a0 := {| acc_balances := initAccounts accounts initial;
                 acc_income := 0; acc_expense := 0 |} in
    let a := foldl (step currentMonth) a0 transactions in
    {| balances := acc_balances a;
       totalAssets := sumValues (acc_balances a);
       monthlyIncome := acc_income a;
       monthlyExpense := acc_expense a |}.

(** The inputs on which the doubles of the dashboard are exact: no account
    name is a member of [Object.prototype], and the magnitudes of the
    initial balances of the listed accounts plus twice those of the amounts
    stay below [2^53]. *)
Definition magnitude (initial : gmap string Z) (accounts : list string)
    (transactions : list Transaction) : Z :=
  LedgerSpec.total (map (fun k => Z.abs (orZero (initial !! k))) accounts)
  + 2 * LedgerSpec.total (map (fun t => Z.abs (amount t)) transactions).

Definition exactRegime (initial : gmap string Z) (accounts : list string)
    (transactions : list Transaction) : Prop :=
  Forall (fun k => JsObject.inherited k = false) accounts
  ∧ Forall (fun t => JsObject.inherited (source t) = false
                     ∧ JsObject.inherited (destination t) = false) transactions
  ∧ magnitude initial accounts transactions < 2 ^ 53.

(** The object [o] holds, under the names of [m], the doubles of the whole
    numbers of [m]. *)
Definition represents (o : JsObject.Object) (m : gmap string Z) : Prop :=
  NoDup o.*1
  ∧ ∀ k, JsObject.own o k
         = (fun z => JsObject.Num (JsNumber.ofZ z)) <$> m !! k.

(** The accumulators of the dashboard are the doubles of those of the
    exact ledger. *)
Definition matches (a : Dashboard.Acc) (z : Acc) : Prop :=
  represents (Dashboard.acc_balances a) (acc_balances z)
  ∧ Dashboard.acc_income a = JsNumber.ofZ (acc_income z)
  ∧ Dashboard.acc_expense a = JsNumber.ofZ (acc_expense z).

(** The initial balances as the settings hold them: doubles. *)
Definition asNumbers (initialBalances : option (gmap string Z))
    : option (gmap string JsNumber.number) :=
  fmap (M := option) (fmap JsNumber.ofZ) initialBalances.

End ExactLedger.

(** ** What one transaction does to the value read under one account *)

Module Postings.
Import Types Js JsNumber JsObject.

(** [t] takes its amount from [balances[k]]. *)
Definition debits (k : string) (t : Transaction) : bool :=
  truthy (source t) && bool_decide (source t = k)
  && match type t with
     | None | Some EXPENSE | Some TRANSFER => true
     | Some INCOME => false
     end.

(** [t] adds its amount to [balances[k]]. *)
Definition credits (k : string) (t : Transaction) : bool :=
  truthy (destination t) && bool_decide (destination t = k)
  && match type t with
     | Some INCOME | Some TRANSFER => true
     | None | Some EXPENSE => false
     end.

(** The value read under [k] after [t], from the value read before. *)
Definition post (k : string) (slot : option Value) (t : Transaction)
    : option Value :=
  let amount := ofZ (amount t) in
  let afterDebit :=
    if debits k t then Some (minus (orZero slot) amount) else slot in
  if credits k t then Some (plus (orZero afterDebit) (Num amount))
  else afterDebit.

(** The value read under [k] before the first transaction: for a listed
    account what [initialBalances[k] || 0] gives, which is its initial
    balance, 0 if that is absent or falsy, and the member of
    [Object.prototype] of that name if there is one and no initial balance;
    for another name nothing, unless [Object.prototype] has a member of that
    name. *)
Definition start (accounts : list string) (initial : gmap string number)
    (k : string) : option Value :=
  if decide (k ∈ accounts) then Some (orZero (readProp initial k))
  else if inherited k then Some Alien else None.

End Postings.

(** ** Auxiliary definitions of the proofs *)

Module Aux.
Import Types Js.

Section Frames.
Import Runtime DropboxState AppState World.
Context {Remote Blob : Type}.

#[local] Abbreviation W := (World Remote Blob).

(** [keeps R m]: every run of [m], whether it returns or throws, takes a
    world to an [R]-related one. *)
Definition keeps (R : W → W → Prop) {A} (m : M A) : Prop :=
  ∀ w, R w (m w).2.

(** The log grows by requests that satisfy [P] only. *)
Definition logGrowsBy (P : SdkCall Blob → Prop) (w w' : W) : Prop :=
  ∃ l, calls w' = (calls w ++ l)%list ∧ Forall P l.

(** The requests that leave the remote files as they are. *)
Definition readOnly (c : SdkCall Blob) : Prop :=
  match c with
  | FilesGetMetadata _ | FilesDownload _ | AuthTokenRevoke => True
  | FilesUpload _ _ | FilesMoveV2 _ _ | FilesDeleteV2 _ => False
  end.

(** The session: the adapter's state with its client object, the stored
    tokens, the signed-in flag. *)
Definition sameSession (w w' : W) : Prop :=
  svc w' = svc w ∧ localStorage w' = localStorage w
  ∧ isAuthenticated (app w') = isAuthenticated (app w).

(** The state of the [App] component. *)
Definition sameApp (w w' : W) : Prop := app w' = app w.

(** Everything on this side of the network: only the remote state and the
    log of requests may differ. *)
Definition sameLocal (w w' : W) : Prop :=
  svc w' = svc w ∧ localStorage w' = localStorage w
  ∧ app w' = app w ∧ ui w' = ui w.

(** The requests made since [w]. *)
Definition requestsSince (w w' : W) : list (SdkCall Blob) :=
  drop (length (calls w)) (calls w').

(** [out] is the outcome of uploading [data] from the world [w0] the way
    the persisting handlers do: a failure of the upload is caught and turned
    into the alert [failure]. *)
Definition uploadsOrAlerts (env : Env Remote Blob) {T} (json : Codec Blob T)
    (data : T) (filename : string) (failure : Thrown → AlertMsg)
    (w0 : W) (out : Outcome unit * W) : Prop :=
  match Dropbox.uploadFile env json data filename false w0 with
  | (Returned _, w1) => out = (Returned tt, w1)
  | (Threw error, w1) => out = (Returned tt, add_ui (Alert (failure error)) w1)
  end.

(** How the user interface carries out a mutation: a submission of the
    form, a submission after the Edit button of a listed record, the
    Delete button. *)
Definition perform (env : Env Remote Blob) (m : LedgerSpec.Mutation) : M unit :=
  match m with
  | LedgerSpec.Add ts => App.handleAddTransaction env ts
  | LedgerSpec.Update original edited =>
      bind (App.handleEditTransaction original)
           (fun _ => App.handleAddTransaction env [edited])
  | LedgerSpec.Remove i => App.handleDeleteTransaction env i
  end.

Fixpoint performAll (env : Env Remote Blob) (ms : list LedgerSpec.Mutation)
  : M unit :=
  match ms with
  | [] => ret tt
  | m :: rest => bind (perform env m) (fun _ => performAll env rest)
  end.

End Frames.


End Aux.

(** ** A scripted Dropbox and a browser session, for concrete runs

    The remote state is the list of answers still to be given, one per
    request, in order; when the script is exhausted the connection is lost. *)

Module Scenario.
Import Types Runtime DropboxState AppState World.

Inductive Doc :=
| TransactionsDoc (l : list Transaction)
| SettingsDoc (s : AppSettings)
| RegistryDoc (r : Registry).

Inductive Answer :=
| Done                      (* the request succeeds *)
| Body (b : option Doc)     (* the request succeeds with this blob *)
| Fails (e : Thrown).       (* the request is rejected with [e] *)

(** [TypeError: Failed to fetch] *)
Definition offline : Thrown :=
  {| status := None; error_tag := None; path_lookup_tag := None;
     error_summary := None; message := Some "Failed to fetch";
     stringified := "{}" |}.

(** HTTP 401 with an [invalid_access_token] body. *)
Definition expiredToken : Thrown :=
  {| status := Some 401; error_tag := Some "invalid_access_token";
     path_lookup_tag := None;
     error_summary := Some "invalid_access_token/";
     message := Some "Response failed with a 401 code";
     stringified := "{status:401,error:{error_summary:invalid_access_token/}}" |}.

(** The answer of the Dropbox API for a path that does not exist: HTTP 409
    with the body [{error_summary: 'path/not_found/..', error: {'.tag':
    'path', path: {'.tag': 'not_found'}}}], which the SDK hands over as the
    property [error] of the thrown value.  That value has no [error['.tag']]
    and no [error_summary] of its own, and its serialisation (given here
    without the quotes) does not contain the text [path_not_found]. *)
Definition pathNotFound : Thrown :=
  {| status := Some 409; error_tag := None;
     path_lookup_tag := None;
     error_summary := None;
     message := Some "Response failed with a 409 code";
     stringified :=
       "{name:DropboxResponseError,status:409,error:{error_summary:path/not_found/..,error:{.tag:path,path:{.tag:not_found}}}}" |}.

(** A thrown value of the shape the tests of the adapter look for: its tag
    and its serialisation carry the text [path_not_found]. *)
Definition notFoundLiteral : Thrown :=
  {| status := Some 409; error_tag := Some "path_not_found";
     path_lookup_tag := None;
     error_summary := Some "path_not_found/";
     message := Some "Response failed with a 409 code";
     stringified := "{status:409,error:{error_summary:path_not_found/}}" |}.

(** HTTP 429: the move is refused for the moment. *)
Definition tooManyWrites : Thrown :=
  {| status := Some 429; error_tag := Some "too_many_write_operations";
     path_lookup_tag := None;
     error_summary := Some "too_many_write_operations/";
     message := Some "Response failed with a 429 code";
     stringified := "{status:429,error:{error_summary:too_many_write_operations/}}" |}.

Definition answerUnit (script : list Answer) : Outcome unit * list Answer :=
  match script with
  | [] => (Threw offline, [])
  | Fails e :: rest => (Threw e, rest)
  | _ :: rest => (Returned tt, rest)
  end.

Definition answerBlob (script : list Answer) : Outcome (option Doc) * list Answer :=
  match script with
  | [] => (Threw offline, [])
  | Fails e :: rest => (Threw e, rest)
  | Body b :: rest => (Returned b, rest)
  | Done :: rest => (Returned None, rest)
  end.

Definition scripted : Sdk (list Answer) Doc :=
  {| filesGetMetadata := fun _ _ => answerUnit;
     filesUpload := fun _ _ _ => answerUnit;
     filesDownload := fun _ _ => answerBlob;
     filesMoveV2 := fun _ _ _ => answerUnit;
     filesDeleteV2 := fun _ _ => answerUnit;
     authTokenRevoke := fun _ => answerUnit |}.

Definition unexpectedDocument : Thrown := Error "Unexpected document".

Definition transactionsDoc : Codec Doc (list Transaction) :=
  {| stringify := TransactionsDoc;
     parse := fun d => match d with
                       | TransactionsDoc l => Returned (Some l)
                       | _ => Threw unexpectedDocument
                       end |}.

Definition settingsDoc : Codec Doc AppSettings :=
  {| stringify := SettingsDoc;
     parse := fun d => match d with
                       | SettingsDoc s => Returned (Some s)
                       | _ => Threw unexpectedDocument
                       end |}.

Definition registryDoc : Codec Doc Registry :=
  {| stringify := RegistryDoc;
     parse := fun d => match d with
                       | RegistryDoc r => Returned (Some r)
                       | _ => Threw unexpectedDocument
                       end |}.

(** The environment with a user who answers every [confirm] with [yes]. *)
Definition scriptedEnv (yes : bool) : Env (list Answer) Doc :=
  {| sdk := scripted;
     transactionsJson := transactionsDoc;
     settingsJson := settingsDoc;
     registryJson := registryDoc;
     confirm := fun _ => yes |}.

Definition client0 : Client :=
  {| accessToken := "token"; refreshToken := None; clientId := None |}.

Definition lunch : Transaction :=
  {| id := "t1"; date := "2026/11/02"; type := Some EXPENSE;
     source := "Cash"; destination := "Food"; amount := 30;
     summary := "lunch"; payer := None;
     projectCode := None; invoiceNumber := None |}.

Definition salary : Transaction :=
  {| id := "t2"; date := "2026/11/01"; type := Some INCOME;
     source := "Salary"; destination := "Bank"; amount := 1000;
     summary := ""; payer := None;
     projectCode := None; invoiceNumber := None |}.

Definition app0 (txs : list Transaction) : State :=
  {| transactions := txs; editingTransaction := None;
     isAuthenticated := true; isLoading := false;
     settings := App.DEFAULT_SETTINGS; isSettingsOpen := false;
     profiles := ["Default"]; AppState.currentProfile := "Default";
     recentSources := []; recentDestinations := [] |}.

(** A signed-in session on profile [profile] holding [txs], in front of a
    remote that will give the answers of [script]. *)
Definition signedIn (profile : string) (txs : list Transaction)
    (script : list Answer) : World (list Answer) Doc :=
  {| remote := script; calls := [];
     svc := {| dbx := Some client0; auth := None;
               DropboxState.currentProfile := profile |};
     localStorage := {["dropbox_token" := "token"]};
     app := app0 txs; ui := [] |}.

(** The same browser after the client object has been dropped. *)
Definition signedOut (txs : list Transaction) (script : list Answer)
  : World (list Answer) Doc :=
  set_svc (set_dbx None (svc (signedIn "Default" txs script)))
          (signedIn "Default" txs script).

(** The answer to a download of a registry that knows the profile Work. *)
Definition registryWithWork : Answer :=
  Body (Some (RegistryDoc {| Runtime.profiles := Some ["Default"; "Work"] |})).

(** A split expense being authored. *)
Definition splitForm (total : option Z) : TransactionForm.FormState :=
  {| TransactionForm.type := EXPENSE;
     TransactionForm.date := "2026-11-02";
     TransactionForm.source := "Cash";
     TransactionForm.destination := "";
     TransactionForm.amount := TransactionForm.Text total;
     TransactionForm.summary := "dinner";
     TransactionForm.payer := "me";
     TransactionForm.isSplit := true;
     TransactionForm.destinationA := "Food";
     TransactionForm.destinationB := "Drinks";
     TransactionForm.amountA := TransactionForm.Text None;
     TransactionForm.amountB := TransactionForm.Text None |}.

(** The [n]-th identifier of a session: [n] letters. *)
Fixpoint uuidOfNat (n : nat) : string :=
  match n with
  | O => "id"
  | S m => String "x" (uuidOfNat m)
  end.

End Scenario.

(** ** src/components/SettingsDialog.tsx: the other edits of the dialog *)

Module SettingsEdits.
Import Types Js SettingsDialog.

(** The state of the dialog: the settings being edited and the four text
    inputs. *)
Record Dialog := {
  localSettings : AppSettings;
  newSource : string;
  newDestination : string;
  newIncomeSource : string;
  newNote : string
}.

Definition withSettings (s : AppSettings) (d : Dialog) : Dialog :=
  {| localSettings := s; newSource := newSource d;
     newDestination := newDestination d;
     newIncomeSource := newIncomeSource d; newNote := newNote d |}.

Section Edits.
(** [String.prototype.trim] *)
Variable trim : string → string.

Definition handleAddSource (d : Dialog) : Dialog :=
  if truthy (trim (newSource d)) then
    let name := trim (newSource d) in
    let prev := localSettings d in
    {| localSettings :=
         {| commonSources := commonSources prev ++ [name];
            commonDestinations := commonDestinations prev;
            commonIncomeSources := commonIncomeSources prev;
            commonNotes := commonNotes prev;
            initialBalances :=
              Some (<[name := 0%float]> (default ∅ (initialBalances prev))) |};
       newSource := "";
       newDestination := newDestination d;
       newIncomeSource := newIncomeSource d;
       newNote := newNote d |}
  else d.

Definition handleAddIncomeSource (d : Dialog) : Dialog :=
  if truthy (trim (newIncomeSource d)) then
    let prev := localSettings d in
    {| localSettings :=
         {| commonSources := commonSources prev;
            commonDestinations := commonDestinations prev;
            commonIncomeSources :=
              commonIncomeSources prev ++ [trim (newIncomeSource d)];
            commonNotes := commonNotes prev;
            initialBalances := initialBalances prev |};
       newSource := newSource d;
       newDestination := newDestination d;
       newIncomeSource := "";
       newNote := newNote d |}
  else d.

Definition handleAddDestination (d : Dialog) : Dialog :=
  if truthy (trim (newDestination d)) then
    let prev := localSettings d in
    {| localSettings :=
         {| commonSources := commonSources prev;
            commonDestinations :=
              commonDestinations prev ++ [trim (newDestination d)];
            commonIncomeSources := commonIncomeSources prev;
            commonNotes := commonNotes prev;
            initialBalances := initialBalances prev |};
       newSource := newSource d;
       newDestination := "";
       newIncomeSource := newIncomeSource d;
       newNote := newNote d |}
  else d.

Definition handleAddNote (d : Dialog) : Dialog :=
  if truthy (trim (newNote d)) then
    let prev := localSettings d in
    {| localSettings :=
         {| commonSources := commonSources prev;
            commonDestinations := commonDestinations prev;
            commonIncomeSources := commonIncomeSources prev;
            commonNotes := commonNotes prev ++ [trim (newNote d)];
            initialBalances := initialBalances prev |};
       newSource := newSource d;
       newDestination := newDestination d;
       newIncomeSource := newIncomeSource d;
       newNote := "" |}
  else d.

End Edits.

(** [Number(amount)] for the text of a number input: the empty text gives
    0, a numeral the double nearest to it. *)
Definition NumberOfInput (amount : option JsNumber.number) : JsNumber.number :=
  default 0%float amount.

(** [handleInitialBalanceChange(account, amount)]; [amount] is the text of
    a number input, [None] when empty and else the double its numeral
    denotes. *)
Definition handleInitialBalanceChange (account : string)
    (amount : option JsNumber.number) (prev : AppSettings) : AppSettings :=
  {| commonSources := commonSources prev;
     commonDestinations := commonDestinations prev;
     commonIncomeSources := commonIncomeSources prev;
     commonNotes := commonNotes prev;
     initialBalances :=
       Some (<[account := NumberOfInput amount]>
               (default ∅ (initialBalances prev))) |}.

Definition handleDeleteIncomeSource (index : nat) (prev : AppSettings) : AppSettings :=
  {| commonSources := commonSources prev;
     commonDestinations := commonDestinations prev;
     commonIncomeSources :=
       filterIndex (fun i => negb (i =? index)%nat) (commonIncomeSources prev);
     commonNotes := commonNotes prev;
     initialBalances := initialBalances prev |}.

Definition handleDeleteDestination (index : nat) (prev : AppSettings) : AppSettings :=
  {| commonSources := commonSources prev;
     commonDestinations :=
       filterIndex (fun i => negb (i =? index)%nat) (commonDestinations prev);
     commonIncomeSources := commonIncomeSources prev;
     commonNotes := commonNotes prev;
     initialBalances := initialBalances prev |}.

Definition handleDeleteNote (index : nat) (prev : AppSettings) : AppSettings :=
  {| commonSources := commonSources prev;
     commonDestinations := commonDestinations prev;
     commonIncomeSources := commonIncomeSources prev;
     commonNotes :=
       filterIndex (fun i => negb (i =? index)%nat) (commonNotes prev);
     initialBalances := initialBalances prev |}.

(** The invariant of the data model: every account with an initial balance
    is a listed account. *)
Definition balancesListed (s : AppSettings) : Prop :=
  ∀ k, is_Some (default ∅ (initialBalances s) !! k) → k ∈ commonSources s.

End SettingsEdits.

(** ** src/components/TransactionForm.tsx: entering edit mode *)

Module FormEdits.
Import Types Js TransactionForm.

(** The effect on [[editingTransaction]], for a transaction being edited:
    the form is filled from it and the split mode is switched off. *)
Definition populate (e : Transaction) (st : FormState) : FormState :=
  {| type := default EXPENSE (Types.type e);
     date := Types.date e;
     source := Types.source e;
     destination := Types.destination e;
     amount := Num (Types.amount e);
     summary := Types.summary e;
     payer := match Types.payer e with
              | Some p => if truthy p then p else ""
              | None => ""
              end;
     isSplit := false;
     destinationA := destinationA st;
     destinationB := destinationB st;
     amountA := amountA st;
     amountB := amountB st |}.

(** The conditions under which [handleSubmit] goes through to [onSubmit]. *)
Definition submittable (editing : bool) (st : FormState) : bool :=
  truthy (source st) && truthyCell (amount st)
  && match type st with
     | EXPENSE =>
         editing || negb (isSplit st)
         || (truthy (destinationA st) && truthy (destinationB st))
     | _ => truthy (destination st)
     end.

(** The transactions the form can hand over. *)
Definition wellFormed (st : FormState) (t : Transaction) : Prop :=
  Types.source t ≠ "" ∧ Types.destination t ≠ ""
  ∧ Types.type t = Some (type st)
  ∧ includes (Types.date t) "-" = false
  ∧ Types.source t = source st
  ∧ Types.summary t = summary st.

End FormEdits.

(** ** src/components/TransactionList.tsx: the month filter and the export *)

Module TransactionList.
Import Types Js.

(** [t.date.replace(/\//g, '-').startsWith(filterMonth)] *)
Definition inMonth (filterMonth : string) (t : Transaction) : bool :=
  startsWith (replaceAll "/" "-" (date t)) filterMonth.

(** The rows of the table:
    [transactions.filter(t => !filterMonth || ...).slice().reverse()]. *)
Definition rows (filterMonth : string) (transactions : list Transaction)
  : list Transaction :=
  reverse (filter (fun t => negb (truthy filterMonth) || inMonth filterMonth t)
                  transactions).

(** One line of the CSV, by column. *)
Record CsvRow := {
  col_date : string;           (* 記錄日期 *)
  col_source : string;         (* 來源項目 *)
  col_destination : string;    (* 目的帳目 *)
  col_amount : Z;              (* 異動金額 *)
  col_summary : string;        (* 摘要 *)
  col_payer : string;          (* 收付人 *)
  col_projectCode : string;    (* 專案代號 *)
  col_invoiceNumber : string   (* 發票號碼 *)
}.

(** [x || ''] on an optional string. *)
Definition orEmpty (x : option string) : string := default "" x.

Definition csvRow (t : Transaction) : CsvRow :=
  {| col_date := date t; col_source := source t;
     col_destination := destination t; col_amount := amount t;
     col_summary := summary t; col_payer := orEmpty (payer t);
     col_projectCode := orEmpty (projectCode t);
     col_invoiceNumber := orEmpty (invoiceNumber t) |}.

Inductive ExportOutcome :=
| NothingToExport                  (* alert("沒有符合條件的資料可匯出") *)
| Exported (csvData : list CsvRow). (* handed to [Papa.unparse], then saved *)

Definition handleExportCSV (filterMonth : string)
    (transactions : list Transaction) : ExportOutcome :=
  let dataToExport :=
    if truthy filterMonth
    then filter (fun t => inMonth filterMonth t) transactions
    else transactions in
  if (length dataToExport =? 0)%nat then NothingToExport
  else Exported (map csvRow dataToExport).

End TransactionList.

(** ** src/components/Combobox.tsx: the options offered *)

Module Combobox.
Import Types Js.

Section Options.
(** [String.prototype.toLowerCase] *)
Variable toLowerCase : string → string.

(** [Array.from(new Set(options))] *)
Definition uniqueOptions (options : list string) : list string :=
  App.distinct [] options.

Definition filteredOptions (value : string) (options : list string) : list string :=
  filter (fun opt => includes (toLowerCase opt) (toLowerCase value))
         (uniqueOptions options).

Definition displayOptions (value : string) (options : list string) : list string :=
  if truthy value then filteredOptions value options else uniqueOptions options.

End Options.

End Combobox.

(** ** src/services/dropbox.ts: restoring the session in the constructor *)

Module DropboxRestore.
Import Types Js Runtime DropboxState.

(** [new DropboxService()] over the browser's [localStorage]. *)
Definition construct (storage : gmap string string) : Service :=
  {| dbx :=
       match storage !! "dropbox_token" with
       | Some savedToken =>
           if truthy savedToken then
             Some match storage !! "dropbox_refresh_token" with
                  | Some savedRefreshToken =>
                      if truthy savedRefreshToken
                      then {| accessToken := savedToken;
                              refreshToken := Some savedRefreshToken;
                              clientId := Some "oa453zne5pnx0u4" |}
                      else {| accessToken := savedToken; refreshToken := None;
                              clientId := None |}
                  | None => {| accessToken := savedToken; refreshToken := None;
                               clientId := None |}
                  end
           else None
       | None => None
       end;
     auth := None;
     currentProfile := "Default" |}.

End DropboxRestore.

(** ** src/types.ts: loading the profile list, switching profile *)

Module AppProfiles.
Import Types Js Runtime DropboxState AppState World.
Open Scope js_scope.

Definition with_profiles (v : list string) (s : State) : State :=
  {| transactions := transactions s; editingTransaction := editingTransaction s;
     isAuthenticated := isAuthenticated s; isLoading := isLoading s;
     settings := settings s; isSettingsOpen := isSettingsOpen s;
     profiles := v; AppState.currentProfile := AppState.currentProfile s;
     recentSources := recentSources s;
     recentDestinations := recentDestinations s |}.

Definition with_currentProfile (v : string) (s : State) : State :=
  {| transactions := transactions s; editingTransaction := editingTransaction s;
     isAuthenticated := isAuthenticated s; isLoading := isLoading s;
     settings := settings s; isSettingsOpen := isSettingsOpen s;
     profiles := profiles s; AppState.currentProfile := v;
     recentSources := recentSources s;
     recentDestinations := recentDestinations s |}.

Section Handlers.
Context {Remote Blob : Type}.
Variable env : Env Remote Blob.

#[local] Abbreviation M := (@M Remote Blob).

Definition setProfiles (v : list string) : M unit := App.onApp (with_profiles v).
Definition setCurrentProfile (v : string) : M unit :=
  App.onApp (with_currentProfile v).

Definition loadProfiles : M unit :=
  list <- Dropbox.getProfiles env ;;
  setProfiles list ;;
  current <- Dropbox.getProfile ;;
  setCurrentProfile current.

Definition handleSwitchProfile (name : string) : M unit :=
  App.setIsLoading true ;;
  Dropbox.setProfile name ;;
  setCurrentProfile name ;;
  (* Reset state before loading new *)
  App.setTransactions [] ;;
  App.setSettings App.DEFAULT_SETTINGS ;;
  App.loadDataAndSettings env ;;
  App.setIsLoading false.

End Handlers.

End AppProfiles.

(** ** Quantities the dashboard facts are stated with *)

Module Ledger.
Import Types Js.

(** What one transaction adds to the sum of all balances: the guards
    [if (t.source)] and [if (t.destination)] of the dashboard decide which
    sides are booked. *)
Definition netChange (t : Transaction) : Z :=
  match type t with
  | None | Some EXPENSE => if truthy (source t) then - amount t else 0
  | Some INCOME => if truthy (destination t) then amount t else 0
  | Some TRANSFER =>
      (if truthy (source t) then - amount t else 0)
      + (if truthy (destination t) then amount t else 0)
  end.

(** The transaction books on the account [k]. *)
Definition books (k : string) (t : Transaction) : Prop :=
  match type t with
  | None | Some EXPENSE => source t = k
  | Some INCOME => destination t = k
  | Some TRANSFER => source t = k ∨ destination t = k
  end.




End Ledger.

Module Samples.
Import Types.

Definition internalTransfer : Transaction :=
  {| id := "t3"; date := "2026/11/03"; type := Some TRANSFER;
     source := "Bank"; destination := "Cash"; amount := 500;
     summary := "withdraw"; payer := None;
     projectCode := None; invoiceNumber := None |}.

Definition twoAccounts : AppSettings :=
  {| commonSources := ["Cash"; "Bank"];
     commonDestinations := ["Food"; "Rent"];
     commonIncomeSources := ["Salary"];
     commonNotes := ["lunch"];
     initialBalances := Some {["Cash" := 100%float; "Bank" := 2000%float]} |}.

End Samples.

(** ** Views of the local state, for frame statements *)

Module Views.
Import Runtime DropboxState AppState World.

Section Views.
Context {Remote Blob : Type}.

(** A run leaves the view [g] of the adapter and of the App state as it
    was. *)
Definition sameView {X} (g : Service → State → X)
    (w w' : World Remote Blob) : Prop :=
  g (svc w') (app w') = g (svc w) (app w).

(** The transactions in memory are the ones there were, or none. *)
Definition keptOrEmptied (w w' : World Remote Blob) : Prop :=
  transactions (app w') = transactions (app w) ∨ transactions (app w') = [].

(** The value [shown] is the parsed content of a download of [path] made
    with the client. *)
Definition downloadedFrom (env : Env Remote Blob) {T} (json : Codec Blob T)
    (client : option Client) (path : string) (shown : T) : Prop :=
  ∃ c rem rem' blob,
    client = Some c
    ∧ filesDownload (sdk env) c path rem = (Returned (Some blob), rem')
    ∧ parse json blob = Returned (Some shown).

(** The two files of the profile the adapter is on. *)
Definition profileFiles (s : Service) : list string :=
  [Dropbox.getPath s "bookkeeping_data.json"; Dropbox.getPath s "settings.json"].

(** The requests that stay with the files of the profile of [s]. *)
Definition inProfile (s : Service) (c : SdkCall Blob) : Prop :=
  match c with
  | FilesGetMetadata p | FilesDownload p | FilesUpload p _ => p ∈ profileFiles s
  | AuthTokenRevoke => True
  | FilesMoveV2 _ _ | FilesDeleteV2 _ => False
  end.

(** The adapter stays on its profile, and the requests made stay with the
    files of that profile. *)
Definition staysInProfile (w w' : World Remote Blob) : Prop :=
  DropboxState.currentProfile (svc w') = DropboxState.currentProfile (svc w)
  ∧ ∃ l, calls w' = (calls w ++ l)%list ∧ Forall (inProfile (svc w)) l.

End Views.

End Views.

(** * Properties *)

(** ** JavaScript idioms *)

Section JsFacts.
Import Js.

Lemma truthy_true s : truthy s = true ↔ s ≠ "".
Proof.
  unfold truthy. rewrite negb_true_iff.
  destruct (String.eqb_spec s ""); split; congruence.
Qed.

Lemma truthy_false s : truthy s = false ↔ s = "".
Proof.
  unfold truthy. rewrite negb_false_iff. apply String.eqb_eq.
Qed.

Example replaceAll_date : replaceAll "/" "-" "2026/11/02" = "2026-11-02".
Proof. reflexivity. Qed.

Example startsWith_month : startsWith "2026-11-02" "2026-11" = true.
Proof. reflexivity. Qed.

Example includes_inside :
  includes "{error_summary:path/path_not_found/}" "path_not_found" = true
  ∧ includes "{}" "path_not_found" = false.
Proof. split; reflexivity. Qed.

End JsFacts.


(** ** Whole numbers in doubles

    Sums and differences of whole numbers below [2^53] are exact in
    binary64, by the specification of the primitive operations. *)

Section NumberFacts.
Import JsNumber Binary64.

Lemma iter_pos_nat {A} (f : A -> A) p x :
  SpecFloat.iter_pos f p x = Nat.iter (Pos.to_nat p) f x.
Proof.
  revert x. induction p as [p IH|p IH|]; intros x; cbn [SpecFloat.iter_pos].
  - rewrite !IH, Pos2Nat.inj_xI.
    replace (S (2 * Pos.to_nat p)) with (S (Pos.to_nat p + Pos.to_nat p)) by lia.
    rewrite Nat.iter_succ_r, Nat.iter_add. reflexivity.
  - rewrite !IH, Pos2Nat.inj_xO.
    replace (2 * Pos.to_nat p)%nat with (Pos.to_nat p + Pos.to_nat p)%nat by lia.
    rewrite Nat.iter_add. reflexivity.
  - reflexivity.
Qed.


Lemma shl_Z p n : Zpos (shl p n) = Zpos p * 2 ^ Z.of_nat n.
Proof.
  induction n as [|n IH].
  - simpl. lia.
  - unfold shl in *. simpl Nat.iter. rewrite Pos2Z.inj_xO, IH.
    rewrite Nat2Z.inj_succ, Z.pow_succ_r by lia. lia.
Qed.

Lemma digits_shl p n :
  Zpos (digits2_pos (shl p n)) = Zpos (digits2_pos p) + Z.of_nat n.
Proof.
  induction n as [|n IH].
  - simpl. lia.
  - unfold shl in *. simpl Nat.iter. simpl digits2_pos.
    rewrite Pos2Z.inj_succ, IH. lia.
Qed.

Lemma Pos_iter_shl p n : Pos.iter xO p n = shl p (Pos.to_nat n).
Proof. unfold shl. apply Pos2Nat.inj_iter. Qed.

Lemma shr_shl p n :
  Nat.iter n shr_1 {| shr_m := Zpos (shl p n); shr_r := false; shr_s := false |}
  = {| shr_m := Zpos p; shr_r := false; shr_s := false |}.
Proof.
  revert p. induction n as [|n IH]; intros p; [reflexivity|].
  rewrite Nat.iter_succ_r. unfold shl. rewrite Nat.iter_succ. simpl shr_1.
  apply IH.
Qed.


Lemma shl_shl p a b : shl (shl p a) b = shl p (a + b).
Proof. unfold shl. rewrite Nat.add_comm. symmetry. apply Nat.iter_add. Qed.

Lemma fexp64 d : fexp prec emax d = Z.max (d - 53) (-1074).
Proof. reflexivity. Qed.

Lemma shr_fexp_exact m e n :
  fexp prec emax (Zpos (digits2_pos m) + e) - e = Z.of_nat n ->
  forall q, m = shl q n ->
  shr_fexp prec emax (Zpos m) e loc_Exact
  = ({| shr_m := Zpos q; shr_r := false; shr_s := false |}, e + Z.of_nat n).
Proof.
  intros Hn q ->. unfold shr_fexp.
  change (Zdigits2 (Zpos (shl q n))) with (Zpos (digits2_pos (shl q n))).
  rewrite Hn. change (shr_record_of_loc (Zpos (shl q n)) loc_Exact)
    with {| shr_m := Zpos (shl q n); shr_r := false; shr_s := false |}.
  destruct n as [|n].
  - change (Z.of_nat 0) with 0. rewrite Z.add_0_r. reflexivity.
  - unfold shr.
    destruct (Z.of_nat (S n)) as [|p|p] eqn:Hp; try lia.
    rewrite iter_pos_nat.
    replace (Pos.to_nat p) with (S n) by lia.
    rewrite shr_shl. reflexivity.
Qed.

Lemma binary_round_aux_exact s m e n q :
  fexp prec emax (Zpos (digits2_pos m) + e) - e = Z.of_nat n ->
  m = shl q n ->
  Zpos (digits2_pos q) = 53 -> -1074 <= e + Z.of_nat n <= 971 ->
  binary_round_aux prec emax s (Zpos m) e loc_Exact
  = S754_finite s q (e + Z.of_nat n).
Proof.
  intros Hn Hm Hd He. unfold binary_round_aux.
  rewrite (shr_fexp_exact m e n Hn q Hm).
  cbn [shr_m loc_of_shr_record round_nearest_even].
  rewrite (shr_fexp_exact q (e + Z.of_nat n) 0%nat) with (q := q);
    [| |reflexivity].
  - cbn [shr_m]. change (Z.of_nat 0) with 0. rewrite Z.add_0_r.
    destruct (Z.leb_spec (e + Z.of_nat n) (emax - prec)); [reflexivity|].
    unfold emax, prec in *. lia.
  - rewrite fexp64, Hd. change (Z.of_nat 0) with 0. lia.
Qed.

Lemma binary_round_exact s v k :
  Zpos (digits2_pos v) <= 53 ->
  binary_round prec emax s (shl v k) (- Z.of_nat k) = canon s v.
Proof.
  intros Hd. unfold binary_round, canon.
  pose proof (digits_shl v k) as Hdk.
  set (d := Zpos (digits2_pos v)) in *.
  assert (0 < d) as Hpos by (unfold d; lia).
  rewrite fexp64, Hdk.
  replace (Z.max (d + Z.of_nat k + - Z.of_nat k - 53) (-1074)) with (d - 53) by lia.
  unfold shl_align.
  destruct (d - 53 - - Z.of_nat k) as [|n|n] eqn:Hn.
  - (* already aligned *)
    rewrite (binary_round_aux_exact s (shl v k) (- Z.of_nat k) 0 (shl v k)).
    + f_equal; [|lia]. f_equal. lia.
    + rewrite fexp64, Hdk. change (Z.of_nat 0) with 0. lia.
    + reflexivity.
    + rewrite Hdk. lia.
    + lia.
  - (* trailing zeros in excess: the shift to the right is exact *)
    rewrite (binary_round_aux_exact s (shl v k) (- Z.of_nat k) (Pos.to_nat n)
               (shl v (Z.to_nat (53 - d)))).
    + f_equal. lia.
    + rewrite fexp64, Hdk. lia.
    + rewrite shl_shl. f_equal. lia.
    + rewrite digits_shl. fold d. lia.
    + lia.
  - (* shift to the left *)
    rewrite Pos_iter_shl, shl_shl.
    rewrite (binary_round_aux_exact s _ (d - 53) 0 (shl v (k + Pos.to_nat n))).
    + f_equal; [|lia]. f_equal. lia.
    + rewrite fexp64, digits_shl. fold d. change (Z.of_nat 0) with 0. lia.
    + reflexivity.
    + rewrite digits_shl. fold d. lia.
    + lia.
Qed.


Lemma shl_0 p : shl p 0 = p.
Proof. reflexivity. Qed.

Lemma digits2_bounds p :
  2 ^ (Zpos (digits2_pos p) - 1) <= Zpos p < 2 ^ Zpos (digits2_pos p).
Proof.
  induction p as [p IH|p IH|]; cbn [digits2_pos].
  - rewrite Pos2Z.inj_succ.
    replace (Z.succ (Zpos (digits2_pos p)) - 1) with (Z.succ (Zpos (digits2_pos p) - 1)) by lia.
    rewrite !Z.pow_succ_r by lia. lia.
  - rewrite Pos2Z.inj_succ.
    replace (Z.succ (Zpos (digits2_pos p)) - 1) with (Z.succ (Zpos (digits2_pos p) - 1)) by lia.
    rewrite !Z.pow_succ_r by lia. lia.
  - simpl. lia.
Qed.

Lemma digits2_le p n : 0 <= n -> Zpos p < 2 ^ n -> Zpos (digits2_pos p) <= n.
Proof.
  intros Hn Hp. destruct (Z.le_gt_cases (Zpos (digits2_pos p)) n) as [|Hgt]; [done|].
  pose proof (digits2_bounds p) as [Hlo _].
  assert (2 ^ n <= 2 ^ (Zpos (digits2_pos p) - 1)) by (apply Z.pow_le_mono_r; lia).
  lia.
Qed.



Lemma norm_pos v : safe (Zpos v) -> norm (Zpos v) = canon false v.
Proof.
  intros H. unfold norm, binary_normalize.
  rewrite <- (binary_round_exact false v 0); [reflexivity|].
  apply digits2_le; [lia|exact H].
Qed.

Lemma norm_neg v : safe (Zneg v) -> norm (Zneg v) = canon true v.
Proof.
  intros H. unfold norm, binary_normalize.
  rewrite <- (binary_round_exact true v 0); [reflexivity|].
  apply digits2_le; [lia|exact H].
Qed.

Lemma normalize_scaled z k :
  safe z -> binary_normalize prec emax (z * 2 ^ Z.of_nat k) (- Z.of_nat k) false = norm z.
Proof.
  intros H. destruct z as [|v|v].
  - reflexivity.
  - rewrite norm_pos by done.
    assert (Zpos v * 2 ^ Z.of_nat k = Zpos (shl v k)) as -> by (by rewrite shl_Z).
    cbn [binary_normalize]. apply binary_round_exact.
    apply digits2_le; [lia|exact H].
  - rewrite norm_neg by done.
    assert (Zneg v * 2 ^ Z.of_nat k = Zneg (shl v k)) as ->.
    { rewrite <- !Pos2Z.opp_pos, shl_Z. lia. }
    cbn [binary_normalize]. apply binary_round_exact.
    apply digits2_le; [lia|exact H].
Qed.

(** The mantissa of a canonical representation, aligned to a smaller
    exponent. *)
Lemma shl_align_fst m e e' :
  e' <= e -> fst (shl_align m e e') = shl m (Z.to_nat (e - e')).
Proof.
  intros Hle. unfold shl_align.
  destruct (e' - e) as [|p|p] eqn:Hd; try lia.
  - replace (e - e') with 0 by lia. reflexivity.
  - cbn [fst]. rewrite Pos_iter_shl. f_equal. lia.
Qed.


Lemma cond_Zopp_signed s m : cond_Zopp s (Zpos m) = signed s m.
Proof. by destruct s. Qed.

Lemma norm_signed s v : safe (signed s v) -> norm (signed s v) = canon s v.
Proof. destruct s; [apply norm_neg|apply norm_pos]. Qed.

Lemma aligned_canon s v e' :
  Zpos (digits2_pos v) <= 53 -> e' <= Zpos (digits2_pos v) - 53 -> e' <= 0 ->
  cond_Zopp s (Zpos (fst (shl_align (shl v (Z.to_nat (53 - Zpos (digits2_pos v))))
                         (Zpos (digits2_pos v) - 53) e')))
  = signed s v * 2 ^ Z.of_nat (Z.to_nat (- e')).
Proof.
  intros Hd He He0. rewrite shl_align_fst by done. rewrite shl_shl.
  rewrite cond_Zopp_signed.
  replace (Z.to_nat (53 - Zpos (digits2_pos v)) + Z.to_nat (Zpos (digits2_pos v) - 53 - e'))%nat
    with (Z.to_nat (- e')) by lia.
  destruct s; unfold signed; [rewrite <- !Pos2Z.opp_pos|]; rewrite shl_Z; lia.
Qed.

Lemma Z_cases z : z = 0 \/ exists s v, z = signed s v.
Proof.
  destruct z as [|v|v]; [by left|right; by exists false, v|right; by exists true, v].
Qed.

Lemma safe_digits s v : safe (signed s v) -> Zpos (digits2_pos v) <= 53.
Proof.
  intros H. apply digits2_le; [lia|]. unfold safe in H. destruct s; simpl in H; lia.
Qed.

Lemma SFadd_exact a b :
  safe a -> safe b -> safe (a + b) ->
  SF64add (norm a) (norm b) = norm (a + b).
Proof.
  intros Ha Hb Hab.
  destruct (Z_cases a) as [->|(sa & va & ->)], (Z_cases b) as [->|(sb & vb & ->)].
  - reflexivity.
  - rewrite Z.add_0_l, norm_signed by done. reflexivity.
  - rewrite Z.add_0_r, norm_signed by done. reflexivity.
  - rewrite !norm_signed by done. unfold canon, SF64add, SFadd.
    pose proof (safe_digits _ _ Ha) as Hda. pose proof (safe_digits _ _ Hb) as Hdb.
    set (da := Zpos (digits2_pos va)) in *. set (db := Zpos (digits2_pos vb)) in *.
    assert (0 < da) by (unfold da; lia). assert (0 < db) by (unfold db; lia).
    set (ez := Z.min (da - 53) (db - 53)).
    rewrite !aligned_canon by (fold da db; lia).
    rewrite <- Z.mul_add_distr_r.
    rewrite <- (normalize_scaled _ (Z.to_nat (- ez)) Hab).
    f_equal. lia.
Qed.

Lemma SFsub_exact a b :
  safe a -> safe b -> safe (a - b) ->
  SF64sub (norm a) (norm b) = norm (a - b).
Proof.
  intros Ha Hb Hab.
  destruct (Z_cases a) as [->|(sa & va & ->)], (Z_cases b) as [->|(sb & vb & ->)].
  - reflexivity.
  - replace (0 - signed sb vb) with (signed (negb sb) vb) by (by destruct sb).
    assert (safe (signed (negb sb) vb)) by (unfold safe in *; by destruct sb).
    rewrite !norm_signed by done. reflexivity.
  - rewrite Z.sub_0_r, norm_signed by done. reflexivity.
  - rewrite !norm_signed by done. unfold canon, SF64sub, SFsub.
    pose proof (safe_digits _ _ Ha) as Hda. pose proof (safe_digits _ _ Hb) as Hdb.
    set (da := Zpos (digits2_pos va)) in *. set (db := Zpos (digits2_pos vb)) in *.
    assert (0 < da) by (unfold da; lia). assert (0 < db) by (unfold db; lia).
    set (ez := Z.min (da - 53) (db - 53)).
    rewrite !aligned_canon by (fold da db; lia).
    rewrite <- Z.mul_sub_distr_r.
    rewrite <- (normalize_scaled _ (Z.to_nat (- ez)) Hab).
    f_equal. lia.
Qed.

Lemma canon_valid s v :
  Zpos (digits2_pos v) <= 53 -> valid_binary (canon s v) = true.
Proof.
  intros Hd. unfold canon. cbn [SpecFloat.valid_binary]. unfold bounded, canonical_mantissa.
  rewrite digits_shl, fexp64.
  set (d := Zpos (digits2_pos v)) in *. assert (0 < d) by (unfold d; lia).
  apply andb_true_intro. split.
  - apply Z.eqb_eq. lia.
  - apply Z.leb_le. unfold emax, prec. lia.
Qed.

Lemma norm_valid z : safe z -> valid_binary (norm z) = true.
Proof.
  intros H. destruct (Z_cases z) as [->|(s & v & ->)]; [reflexivity|].
  rewrite norm_signed by done. apply canon_valid. by eapply safe_digits.
Qed.


Lemma Prim2SF_ofZ z : safe z -> Prim2SF (ofZ z) = norm z.
Proof. intros H. apply Prim2SF_SF2Prim, norm_valid, H. Qed.

Lemma ofZ_0 : ofZ 0 = 0%float.
Proof. reflexivity. Qed.

Lemma ofZ_add a b :
  safe a -> safe b -> safe (a + b) -> (ofZ a + ofZ b)%float = ofZ (a + b).
Proof.
  intros Ha Hb Hab. apply Prim2SF_inj.
  rewrite add_spec, !Prim2SF_ofZ by done. by apply SFadd_exact.
Qed.

Lemma ofZ_sub a b :
  safe a -> safe b -> safe (a - b) -> (ofZ a - ofZ b)%float = ofZ (a - b).
Proof.
  intros Ha Hb Hab. apply Prim2SF_inj.
  rewrite sub_spec, !Prim2SF_ofZ by done. by apply SFsub_exact.
Qed.


Lemma SFcompare_canon_refl s v : SFcompare (canon s v) (canon s v) = Some Eq.
Proof.
  unfold canon, SFcompare. rewrite Z.compare_refl.
  assert (forall p, Pos.compare_cont Eq p p = Eq) as Hp.
  { intros p. apply Pos.compare_cont_refl. }
  rewrite Hp. by destruct s.
Qed.

Lemma falsy_ofZ z : safe z -> falsy (ofZ z) = bool_decide (z = 0).
Proof.
  intros H. unfold falsy, is_nan. rewrite !FloatAxioms.eqb_spec, !Prim2SF_ofZ by done.
  destruct (Z_cases z) as [->|(s & v & ->)]; [reflexivity|].
  rewrite norm_signed by done. unfold SFeqb at 2. rewrite SFcompare_canon_refl.
  change (Prim2SF 0) with (S754_zero false).
  assert (signed s v <> 0) as Hne by (by destruct s).
  rewrite (bool_decide_eq_false_2 _ Hne).
  unfold SFeqb, canon, SFcompare. by destruct s.
Qed.

Lemma inj_ofZ a b : safe a -> safe b -> ofZ a = ofZ b -> a = b.
Proof.
  intros Ha Hb H. apply (f_equal Prim2SF) in H. rewrite !Prim2SF_ofZ in H by done.
  destruct (Z_cases a) as [->|(sa & va & ->)], (Z_cases b) as [->|(sb & vb & ->)];
    rewrite ?norm_signed in H by done; try done.
  unfold canon in H. injection H as -> Hm He.
  assert (Zpos (digits2_pos va) = Zpos (digits2_pos vb)) as Hd by lia.
  rewrite Hd in Hm. apply (f_equal Zpos) in Hm. rewrite !shl_Z in Hm.
  f_equal. assert (0 < 2 ^ Z.of_nat (Z.to_nat (53 - Z.pos (digits2_pos vb)))) by (apply Z.pow_pos_nonneg; lia).
  nia.
Qed.
End NumberFacts.


(** ** Plain objects as dictionaries *)

Section ObjectFacts.
Import JsNumber JsObject.

Lemma own_update k v o j :
  own (update k v o) j = if decide (k = j) then Some v else own o j.
Proof.
  induction o as [|[i w] o IH]; simpl.
  - destruct (String.eqb_spec k j), (decide (k = j)); congruence.
  - destruct (String.eqb_spec i k) as [->|Hik]; simpl.
    + destruct (String.eqb_spec k j), (decide (k = j)); congruence.
    + rewrite IH. destruct (String.eqb_spec i j), (decide (k = j)); congruence.
Qed.

Lemma own_is_Some o k : is_Some (own o k) ↔ k ∈ o.*1.
Proof.
  induction o as [|[i w] o IH]; simpl.
  - split; [by intros [? ?]|by intros ?%not_elem_of_nil].
  - destruct (String.eqb_spec i k) as [->|Hik].
    + split; [left|by eauto].
    + rewrite IH, elem_of_cons. split; [by right|]. by intros [->|?].
Qed.

Lemma own_None o k : own o k = None ↔ k ∉ o.*1.
Proof.
  split.
  - intros H [v Hv]%own_is_Some. congruence.
  - intros H. destruct (own o k) eqn:E; [|done].
    exfalso. apply H, own_is_Some. by eauto.
Qed.

Lemma update_keys k v o :
  (update k v o).*1 = if decide (k ∈ o.*1) then o.*1 else (o.*1 ++ [k])%list.
Proof.
  induction o as [|[i w] o IH]; cbn [update].
  - destruct (decide (k ∈ [])) as [Hin|]; [|done].
    by apply not_elem_of_nil in Hin.
  - destruct (String.eqb_spec i k) as [->|Hik]; rewrite !fmap_cons; cbn [fst].
    + destruct (decide (k ∈ k :: o.*1)) as [|Hn]; [done|].
      exfalso. apply Hn. left.
    + rewrite IH.
      destruct (decide (k ∈ o.*1)) as [Hin|Hn],
               (decide (k ∈ i :: o.*1)) as [Hin'|Hn']; try done.
      * exfalso. apply Hn'. by right.
      * apply elem_of_cons in Hin' as [->|?]; done.
Qed.

Lemma update_NoDup k v o : NoDup o.*1 → NoDup (update k v o).*1.
Proof.
  intros Hnd. rewrite update_keys. destruct (decide (k ∈ o.*1)); [done|].
  apply NoDup_app. split; [done|]. split; [|apply NoDup_singleton].
  intros x Hx Hk%list_elem_of_singleton. by subst x.
Qed.

Lemma set_NoDup k v o : NoDup o.*1 → NoDup (set k v o).*1.
Proof. unfold set. destruct (String.eqb k "__proto__"); [done|apply update_NoDup]. Qed.

Lemma set_keys k v o j :
  j ∈ (set k v o).*1 ↔ j ∈ o.*1 ∨ (j = k ∧ k ≠ "__proto__").
Proof.
  unfold set. destruct (String.eqb_spec k "__proto__") as [->|Hk].
  - split; [by left|]. by intros [?|[_ ?]].
  - rewrite update_keys. destruct (decide (k ∈ o.*1)).
    + split; [by left|]. by intros [?|[-> _]].
    + rewrite elem_of_app, list_elem_of_singleton. split.
      * intros [?| ->]; [by left|by right].
      * intros [?|[-> _]]; [by left|by right].
Qed.

Lemma own_set k v o j :
  own (set k v o) j
  = if decide (k = j ∧ k ≠ "__proto__") then Some v else own o j.
Proof.
  unfold set. destruct (String.eqb_spec k "__proto__") as [->|Hk].
  - destruct (decide _) as [[_ ?]|]; done.
  - rewrite own_update.
    destruct (decide (k = j)), (decide (k = j ∧ k ≠ "__proto__")) as [[? ?]|Hn];
      try done.
    exfalso. by apply Hn.
Qed.

Lemma get_set k v o j :
  j ≠ "__proto__" →
  get (set k v o) j = if decide (k = j) then Some v else get o j.
Proof.
  intros Hj. unfold get. rewrite own_set.
  destruct (decide (k = j)) as [->|Hne].
  - by rewrite decide_True.
  - rewrite decide_False; [done|]. by intros [? _].
Qed.

Lemma own_proto_set k v o :
  own o "__proto__" = None → own (set k v o) "__proto__" = None.
Proof.
  intros H. rewrite own_set. destruct (decide _) as [[-> ?]|]; done.
Qed.

Lemma inherited_proto : inherited "__proto__" = true.
Proof. reflexivity. Qed.

Lemma not_inherited_proto k : inherited k = false → k ≠ "__proto__".
Proof. intros H ->. done. Qed.

Lemma get_own o k : inherited k = false → get o k = own o k.
Proof. intros H. unfold get. rewrite H. by destruct (own o k). Qed.

Lemma indexed_named_Permutation (o : Object) :
  ((indexed o).*2 ++ (named o).*2)%list ≡ₚ o.*2.
Proof.
  unfold indexed, named. induction o as [|[k v] o IH]; [done|].
  cbn [filter list_filter omap list_omap fmap list_fmap fst snd].
  destruct (arrayIndex k) as [n|] eqn:Hn; cbn [fmap option_fmap option_map].
  - destruct (decide (Some n = None)); [done|].
    rewrite fmap_cons. cbn [snd]. simpl. by apply Permutation_skip.
  - destruct (decide (None = None)); [|done].
    rewrite fmap_cons. cbn [snd].
    rewrite <- Permutation_middle. by apply Permutation_skip.
Qed.

Lemma values_Permutation (o : Object) : values o ≡ₚ o.*2.
Proof.
  unfold values. etrans; [|apply indexed_named_Permutation].
  apply Permutation_app; [|done].
  apply fmap_Permutation, merge_sort_Permutation.
Qed.

(** The entries of an object without repeated names, from its reads. *)
Lemma entries_own (o : Object) :
  NoDup o.*1 → o = map (fun k => (k, default Alien (own o k))) o.*1.
Proof.
  induction o as [|[k v] o IH]; [done|].
  intros [Hk Hnd]%NoDup_cons. simpl.
  rewrite String.eqb_refl. simpl. f_equal.
  rewrite IH at 1 by done. apply map_ext_in. intros j Hj.
  destruct (String.eqb_spec k j) as [->|]; [|done].
  exfalso. apply Hk. by apply list_elem_of_In.
Qed.

End ObjectFacts.


(** ** The exact ledger *)

Section ExactFacts.
Import Types Js ExactLedger LedgerSpec Ledger.
Import Dashboard (isCurrentMonth).

Lemma debit_adjust k amt b :
  (if truthy k then debit k amt b else b) = adjust k (- amt) b.
Proof. reflexivity. Qed.

Lemma credit_adjust k amt b :
  (if truthy k then credit k amt b else b) = adjust k amt b.
Proof. reflexivity. Qed.

Lemma adjust_lookup k d b j :
  j ≠ "" →
  orZero (adjust k d b !! j) = orZero (b !! j) + (if decide (k = j) then d else 0).
Proof.
  intros Hj. unfold adjust.
  destruct (truthy k) eqn:Hk.
  - rewrite lookup_insert. destruct (decide (k = j)) as [->|]; simpl; lia.
  - apply truthy_false in Hk. subst k.
    destruct (decide ("" = j)); [congruence | lia].
Qed.

Lemma adjust_comm k1 d1 k2 d2 b :
  adjust k1 d1 (adjust k2 d2 b) = adjust k2 d2 (adjust k1 d1 b).
Proof.
  unfold adjust.
  destruct (truthy k1), (truthy k2); try reflexivity.
  apply map_eq. intros j.
  destruct (decide (k1 = k2)) as [->|Hne].
  - rewrite !lookup_insert_eq, !insert_insert_eq. simpl.
    rewrite !lookup_insert. destruct (decide (k2 = j)); [|reflexivity].
    f_equal. lia.
  - rewrite (lookup_insert_ne _ k2 k1) by congruence.
    rewrite (lookup_insert_ne _ k1 k2) by congruence.
    rewrite !lookup_insert.
    destruct (decide (k1 = j)), (decide (k2 = j)); try reflexivity; congruence.
Qed.

(** The balances after one transaction, as adjustments. *)
Lemma step_balances cm a t :
  acc_balances (step cm a t) =
  match type t with
  | None | Some EXPENSE => adjust (source t) (- amount t) (acc_balances a)
  | Some INCOME => adjust (destination t) (amount t) (acc_balances a)
  | Some TRANSFER =>
      adjust (destination t) (amount t)
        (adjust (source t) (- amount t) (acc_balances a))
  end.
Proof. unfold step. destruct (type t) as [[]|]; reflexivity. Qed.

Lemma step_income cm a t :
  acc_income (step cm a t) =
  acc_income a +
  match type t with
  | Some INCOME => if isCurrentMonth cm t then amount t else 0
  | _ => 0
  end.
Proof.
  unfold step. destruct (type t) as [[]|]; simpl; try lia.
  destruct (isCurrentMonth cm t); lia.
Qed.

Lemma step_expense cm a t :
  acc_expense (step cm a t) =
  acc_expense a +
  match type t with
  | None | Some EXPENSE => if isCurrentMonth cm t then amount t else 0
  | _ => 0
  end.
Proof.
  unfold step. destruct (type t) as [[]|]; simpl; try lia;
    destruct (isCurrentMonth cm t); lia.
Qed.

Lemma Acc_eq (a b : Acc) :
  acc_balances a = acc_balances b → acc_income a = acc_income b →
  acc_expense a = acc_expense b → a = b.
Proof. destruct a, b; simpl; congruence. Qed.

(** Two consecutive transactions may be processed in either order. *)
Lemma step_comm cm a t1 t2 :
  step cm (step cm a t1) t2 = step cm (step cm a t2) t1.
Proof.
  apply Acc_eq.
  - rewrite !step_balances.
    destruct (type t1) as [[]|], (type t2) as [[]|];
      repeat first [ reflexivity
                   | apply adjust_comm
                   | rewrite (adjust_comm (destination t2))
                   | rewrite (adjust_comm (source t2)) ].
  - rewrite !step_income. lia.
  - rewrite !step_expense. lia.
Qed.

Lemma foldl_step_Permutation cm l1 l2 :
  l1 ≡ₚ l2 → ∀ a, foldl (step cm) a l1 = foldl (step cm) a l2.
Proof.
  induction 1 as [|x l1 l2 _ IH|x y l|l1 l2 l3 _ IH1 _ IH2]; intros a; simpl.
  - reflexivity.
  - apply IH.
  - by rewrite step_comm.
  - by rewrite IH1.
Qed.

Lemma initAccounts_lookup_from (accounts : list string)
    (initial : gmap string Z) (k : string) :
  ∀ b : gmap string Z,
    orZero (foldl (fun b acc => <[acc := orZero (initial !! acc)]> b) b accounts !! k)
    = if decide (k ∈ accounts) then orZero (initial !! k) else orZero (b !! k).
Proof.
  induction accounts as [|x accounts IH]; intros b; cbn [foldl].
  - destruct (decide (k ∈ [])) as [Hin|_]; [|reflexivity].
    by apply not_elem_of_nil in Hin.
  - rewrite IH.
    destruct (decide (k ∈ accounts)) as [Hin|Hnin],
             (decide (k ∈ x :: accounts)) as [Hin'|Hnin'];
      try reflexivity.
    + exfalso. apply Hnin'. by right.
    + apply elem_of_cons in Hin' as [->|Hin']; [|done].
      by rewrite lookup_insert_eq.
    + rewrite lookup_insert_ne; [reflexivity|].
      intros ->. apply Hnin'. left.
Qed.

Lemma initAccounts_lookup accounts ib k :
  orZero (initAccounts accounts (default ∅ ib) !! k) = startingBalance accounts ib k.
Proof.
  unfold initAccounts, startingBalance. rewrite initAccounts_lookup_from.
  destruct (decide (k ∈ accounts)); [reflexivity|]. by rewrite lookup_empty.
Qed.

Lemma step_balance_of cm a t k :
  k ≠ "" →
  orZero (acc_balances (step cm a t) !! k)
  = orZero (acc_balances a !! k) + balanceChange k t.
Proof.
  intros Hk. rewrite step_balances. unfold balanceChange.
  destruct (type t) as [[]|]; rewrite ?adjust_lookup by done; lia.
Qed.

Lemma foldl_step_balance_of cm ts k :
  k ≠ "" →
  ∀ a, orZero (acc_balances (foldl (step cm) a ts) !! k)
       = orZero (acc_balances a !! k) + total (map (balanceChange k) ts).
Proof.
  intros Hk. induction ts as [|t ts IH]; intros a; simpl.
  - lia.
  - rewrite IH, step_balance_of by done. lia.
Qed.

(** In exact arithmetic the balance of every account is its starting
    balance plus the changes of the transactions. *)
Lemma exact_balances cm transactions accounts initialBalances k :
  k ≠ "" →
  orZero (balances (computeStats cm transactions accounts initialBalances) !! k)
  = balanceOf transactions accounts initialBalances k.
Proof.
  intros Hk. unfold computeStats, balanceOf. simpl.
  rewrite foldl_step_balance_of by done. simpl.
  by rewrite initAccounts_lookup.
Qed.

Lemma foldl_step_monthly cm ts :
  ∀ a, acc_income (foldl (step cm) a ts)
       = acc_income a + total (map (incomeOf (isCurrentMonth cm)) ts)
       ∧ acc_expense (foldl (step cm) a ts)
         = acc_expense a + total (map (expenseOf (isCurrentMonth cm)) ts).
Proof.
  induction ts as [|t ts IH]; intros a; simpl.
  - lia.
  - destruct (IH (step cm a t)) as [-> ->].
    rewrite step_income, step_expense. unfold incomeOf, expenseOf.
    destruct (type t) as [[]|]; lia.
Qed.

(** In exact arithmetic the order of the transactions does not matter. *)
Lemma exact_Permutation cm ts1 ts2 accounts initialBalances :
  ts1 ≡ₚ ts2 →
  computeStats cm ts1 accounts initialBalances
  = computeStats cm ts2 accounts initialBalances.
Proof.
  intros Hperm. unfold computeStats. simpl.
  by rewrite (foldl_step_Permutation cm ts1 ts2 Hperm).
Qed.

Lemma exact_monthly cm ts accounts initialBalances :
  monthlyIncome (computeStats cm ts accounts initialBalances)
  = total (map (incomeOf (isCurrentMonth cm)) ts)
  ∧ monthlyExpense (computeStats cm ts accounts initialBalances)
    = total (map (expenseOf (isCurrentMonth cm)) ts).
Proof.
  unfold computeStats. simpl.
  by destruct (foldl_step_monthly cm ts
                 {| acc_balances := initAccounts accounts (default ∅ initialBalances);
                    acc_income := 0; acc_expense := 0 |}) as [-> ->].
Qed.

Lemma sumValues_delete (k : string) (b : gmap string Z) :
  sumValues b = sumValues (delete k b) + orZero (b !! k).
Proof.
  unfold sumValues. destruct (b !! k) as [x|] eqn:Hk; simpl.
  - rewrite (map_fold_delete_L _ _ k x b); [reflexivity| |done].
    intros. lia.
  - rewrite delete_id by done. lia.
Qed.

Lemma sumValues_insert (k : string) (v : Z) (b : gmap string Z) :
  sumValues (<[k:=v]> b) = sumValues b - orZero (b !! k) + v.
Proof.
  rewrite (sumValues_delete k b), <- (insert_delete_eq b k v).
  unfold sumValues at 1. rewrite map_fold_insert_L.
  - fold (sumValues (delete k b)). lia.
  - intros. lia.
  - apply lookup_delete_eq.
Qed.

Lemma sumValues_adjust k d b :
  sumValues (adjust k d b) = sumValues b + (if truthy k then d else 0).
Proof.
  unfold adjust. destruct (truthy k); [|lia].
  rewrite sumValues_insert. lia.
Qed.

Lemma step_sumValues cm a t :
  sumValues (acc_balances (step cm a t)) = sumValues (acc_balances a) + netChange t.
Proof.
  rewrite step_balances. unfold netChange.
  destruct (type t) as [[]|]; rewrite !sumValues_adjust; lia.
Qed.

Lemma foldl_step_sumValues cm ts :
  ∀ a, sumValues (acc_balances (foldl (step cm) a ts))
       = sumValues (acc_balances a) + total (map netChange ts).
Proof.
  induction ts as [|t ts IH]; intros a; simpl; [lia|].
  rewrite IH, step_sumValues. lia.
Qed.

Lemma initAccounts_lookup_option (accounts : list string)
    (initial : gmap string Z) (k : string) :
  ∀ b : gmap string Z,
    foldl (fun b acc => <[acc := orZero (initial !! acc)]> b) b accounts !! k
    = if decide (k ∈ accounts) then Some (orZero (initial !! k)) else b !! k.
Proof.
  induction accounts as [|x accounts IH]; intros b; cbn [foldl].
  - destruct (decide (k ∈ [])) as [Hin|_]; [|reflexivity].
    by apply not_elem_of_nil in Hin.
  - rewrite IH.
    destruct (decide (k ∈ accounts)) as [Hin|Hnin],
             (decide (k ∈ x :: accounts)) as [Hin'|Hnin'];
      try reflexivity.
    + exfalso. apply Hnin'. by right.
    + apply elem_of_cons in Hin' as [->|Hin']; [|done].
      by rewrite lookup_insert_eq.
    + rewrite lookup_insert_ne; [reflexivity|].
      intros ->. apply Hnin'. left.
Qed.

(** The sum of a map whose keys are the members of a duplicate-free list. *)
Lemma sumValues_over (l : list string) :
  NoDup l → ∀ b : gmap string Z,
  (∀ k, is_Some (b !! k) ↔ k ∈ l) →
  sumValues b = total (map (fun k => orZero (b !! k)) l).
Proof.
  induction 1 as [|x l Hx Hl IH]; intros b Hdom; simpl.
  - assert (b = ∅) as ->.
    { apply map_empty. intros k. apply eq_None_not_Some. rewrite Hdom.
      apply not_elem_of_nil. }
    reflexivity.
  - rewrite (sumValues_delete x b), (IH (delete x b)).
    + assert (map (fun k => orZero (delete x b !! k)) l
              = map (fun k => orZero (b !! k)) l) as ->; [|lia].
      apply map_ext_in. intros k Hk. rewrite lookup_delete_ne; [done|].
      intros ->. apply Hx. by apply list_elem_of_In.
    + intros k. rewrite lookup_delete. destruct (decide (x = k)) as [->|Hne].
      * split; [by intros [? ?]|done].
      * rewrite Hdom, elem_of_cons. split; [intros [?|?]; congruence|by right].
Qed.

Lemma initAccounts_sum (accounts : list string) (initial : gmap string Z) :
  sumValues (initAccounts accounts initial)
  = total (map (fun k => orZero (initial !! k)) (remove_dups accounts)).
Proof.
  rewrite (sumValues_over (remove_dups accounts)).
  - f_equal. apply map_ext_in. intros k Hk.
    apply list_elem_of_In in Hk. rewrite elem_of_remove_dups in Hk.
    unfold initAccounts. rewrite initAccounts_lookup_option.
    destruct (decide (k ∈ accounts)); [reflexivity|contradiction].
  - apply NoDup_remove_dups.
  - intros k. unfold initAccounts. rewrite initAccounts_lookup_option.
    rewrite elem_of_remove_dups. destruct (decide (k ∈ accounts)).
    + split; [done|by eauto].
    + rewrite lookup_empty. split; [by intros [? ?]|done].
Qed.

Lemma exact_totalAssets cm transactions accounts initialBalances :
  totalAssets (computeStats cm transactions accounts initialBalances)
  = total (map (fun k => orZero (default ∅ initialBalances !! k))
               (remove_dups accounts))
    + total (map netChange transactions).
Proof.
  unfold computeStats. cbn [totalAssets].
  rewrite foldl_step_sumValues. cbn [acc_balances].
  by rewrite initAccounts_sum.
Qed.

Lemma adjust_dom k d (b : gmap string Z) j :
  is_Some (adjust k d b !! j) ↔ is_Some (b !! j) ∨ (k = j ∧ j ≠ "").
Proof.
  unfold adjust. destruct (truthy k) eqn:Hk.
  - apply truthy_true in Hk. rewrite lookup_insert.
    destruct (decide (k = j)) as [->|Hne]; simpl.
    + split; [by right|by eauto].
    + split; [by left|]. intros [?|[? _]]; [done|contradiction].
  - apply truthy_false in Hk. subst k.
    split; [by left|]. intros [?|[<- ?]]; [done|contradiction].
Qed.

Lemma step_tracked cm a t j :
  is_Some (acc_balances (step cm a t) !! j)
  ↔ is_Some (acc_balances a !! j) ∨ (j ≠ "" ∧ books j t).
Proof.
  rewrite step_balances. unfold books.
  destruct (type t) as [[]|]; rewrite ?adjust_dom; tauto.
Qed.

Lemma foldl_step_tracked cm ts k :
  ∀ a, is_Some (acc_balances (foldl (step cm) a ts) !! k)
       ↔ is_Some (acc_balances a !! k)
         ∨ (k ≠ "" ∧ ∃ t, t ∈ ts ∧ books k t).
Proof.
  induction ts as [|t ts IH]; intros a; simpl.
  - split; [by left|]. intros [?|(_ & t & Hin & _)]; [done|].
    by apply not_elem_of_nil in Hin.
  - rewrite IH, step_tracked. split.
    + intros [[?|[? ?]]|(? & t' & ? & ?)]; [by left|right..].
      * split; [done|]. exists t. split; [left|done].
      * split; [done|]. exists t'. split; [by right|done].
    + intros [?|(? & t' & Hin & ?)]; [by left; left|].
      apply elem_of_cons in Hin as [->|Hin].
      * left. right. done.
      * right. split; [done|]. by exists t'.
Qed.

Lemma exact_tracked cm transactions accounts initialBalances k :
  is_Some (balances (computeStats cm transactions accounts initialBalances) !! k)
  ↔ k ∈ accounts ∨ (k ≠ "" ∧ ∃ t, t ∈ transactions ∧ books k t).
Proof.
  unfold computeStats. cbn [balances].
  rewrite foldl_step_tracked. cbn [acc_balances].
  unfold initAccounts. rewrite initAccounts_lookup_option.
  destruct (decide (k ∈ accounts)) as [Hin|Hnin].
  - split; [by left|]. intros _. left. by eauto.
  - rewrite lookup_empty. split.
    + intros [[? ?]|?]; [done|by right].
    + intros [?|?]; [done|by right].
Qed.

End ExactFacts.


(** ** The balance engine *)

Section DashboardFacts.
Import Types Js JsNumber JsObject Dashboard Postings LedgerSpec.

(** *** The walk, account by account *)

Lemma get_debit k amt b j :
  j ≠ "__proto__" →
  get (if truthy k then debit k amt b else b) j
  = if truthy k && bool_decide (k = j)
    then Some (minus (orZero (get b j)) amt) else get b j.
Proof.
  intros Hj. destruct (truthy k); [|done]. unfold debit.
  rewrite get_set by done. destruct (decide (k = j)) as [->|Hne].
  - by rewrite bool_decide_eq_true_2.
  - by rewrite bool_decide_eq_false_2.
Qed.

Lemma get_credit k amt b j :
  j ≠ "__proto__" →
  get (if truthy k then credit k amt b else b) j
  = if truthy k && bool_decide (k = j)
    then Some (plus (orZero (get b j)) (Num amt)) else get b j.
Proof.
  intros Hj. destruct (truthy k); [|done]. unfold credit.
  rewrite get_set by done. destruct (decide (k = j)) as [->|Hne].
  - by rewrite bool_decide_eq_true_2.
  - by rewrite bool_decide_eq_false_2.
Qed.

Lemma step_get cm a t j :
  j ≠ "__proto__" →
  get (acc_balances (step cm a t)) j = post j (get (acc_balances a) j) t.
Proof.
  intros Hj. unfold step, post, debits, credits.
  destruct (type t) as [[]|]; cbn [acc_balances];
    rewrite ?get_credit, ?get_debit by done;
    rewrite ?andb_true_r, ?andb_false_r; reflexivity.
Qed.

Lemma foldl_step_get cm ts j :
  j ≠ "__proto__" →
  ∀ a, get (acc_balances (foldl (step cm) a ts)) j
       = foldl (post j) (get (acc_balances a) j) ts.
Proof.
  intros Hj. induction ts as [|t ts IH]; intros a; simpl; [done|].
  by rewrite IH, step_get.
Qed.

Lemma initAccounts_get_from accounts initial j :
  j ≠ "__proto__" →
  ∀ b, get (foldl (fun b acc => set acc (orZero (readProp initial acc)) b)
                  b accounts) j
       = if decide (j ∈ accounts) then Some (orZero (readProp initial j))
         else get b j.
Proof.
  intros Hj. induction accounts as [|x accounts IH]; intros b; cbn [foldl].
  - destruct (decide (j ∈ [])) as [Hin|_]; [|reflexivity].
    by apply not_elem_of_nil in Hin.
  - rewrite IH.
    destruct (decide (j ∈ accounts)) as [Hin|Hnin],
             (decide (j ∈ x :: accounts)) as [Hin'|Hnin'];
      try reflexivity.
    + exfalso. apply Hnin'. by right.
    + apply elem_of_cons in Hin' as [->|Hin']; [|done].
      rewrite get_set by done. by rewrite decide_True.
    + rewrite get_set by done. rewrite decide_False; [done|].
      intros ->. apply Hnin'. left.
Qed.

Lemma initAccounts_get accounts initial j :
  j ≠ "__proto__" →
  get (initAccounts accounts initial) j = start accounts initial j.
Proof.
  intros Hj. unfold initAccounts, start. by rewrite initAccounts_get_from.
Qed.

(** No assignment creates a property [__proto__]. *)
Lemma step_own_proto cm a t :
  own (acc_balances a) "__proto__" = None →
  own (acc_balances (step cm a t)) "__proto__" = None.
Proof.
  intros H. unfold step, debit, credit.
  destruct (type t) as [[]|], (truthy (source t)), (truthy (destination t));
    cbn [acc_balances]; repeat apply own_proto_set; exact H.
Qed.

Lemma computeStats_own_proto cm transactions accounts initialBalances :
  own (balances (computeStats cm transactions accounts initialBalances))
      "__proto__" = None.
Proof.
  unfold computeStats. cbn [balances].
  set (a0 := {| acc_balances := _ |}).
  assert (own (acc_balances a0) "__proto__" = None) as H0.
  { unfold a0, initAccounts. cbn [acc_balances].
    generalize (@nil (string * Value)) (eq_refl : own [] "__proto__" = None).
    induction accounts as [|x accounts IH]; intros b Hb; cbn [foldl]; [done|].
    apply IH. by apply own_proto_set. }
  clearbody a0. revert a0 H0.
  induction transactions as [|t ts IH]; intros a0 H0; cbn [foldl]; [done|].
  apply IH. by apply step_own_proto.
Qed.

(** C5 (what the code does).  The balance computation walks the
    transactions account by account: for every name [k] other than
    [__proto__] the value read under [k] at the end is the value read at
    the start, carried through the transactions in their order, where an
    EXPENSE and a TRANSFER replace the value [v] read under their source by
    [(v || 0) - amount] and an INCOME and a TRANSFER replace the one read
    under their destination by [(v || 0) + amount], in doubles.  For a
    listed account the walk starts at [initialBalances[k] || 0].  Under
    [__proto__] no entry is ever created.  In the scenario of one account
    Cash starting at 100 and one expense of 30 from Cash to Food,
    [balances.Cash] is 70 and [totalAssets] is 70.  For a listed account
    named [constructor] without an initial balance the walk does not start
    at 0 but at the member of [Object.prototype] of that name, and one
    expense of 30 from it leaves [NaN] as its balance and as
    [totalAssets]. *)
Theorem computeStats_balances cm transactions accounts initialBalances k
    (Hk : k ≠ "__proto__") :
  let s := computeStats cm transactions accounts initialBalances in
  get (balances s) k
  = foldl (post k) (start accounts (default ∅ initialBalances) k) transactions
  ∧ own (balances s) "__proto__" = None
  ∧ (∀ id0 date0 summary0 payer0 project0 invoice0,
       let t := {| id := id0; date := date0; type := Some EXPENSE;
                   source := "Cash"; destination := "Food"; amount := 30;
                   summary := summary0; payer := payer0;
                   projectCode := project0; invoiceNumber := invoice0 |} in
       let s := computeStats cm [t] ["Cash"] (Some {["Cash" := 100%float]}) in
       get (balances s) "Cash" = Some (Num 70%float)
       ∧ totalAssets s = Num 70%float)
  ∧ (∀ id0 date0 summary0 payer0 project0 invoice0,
       let t := {| id := id0; date := date0; type := Some EXPENSE;
                   source := "constructor"; destination := "Food";
                   amount := 30;
                   summary := summary0; payer := payer0;
                   projectCode := project0; invoiceNumber := invoice0 |} in
       let s := computeStats cm [t] ["constructor"] None in
       start ["constructor"] ∅ "constructor" = Some Alien
       ∧ get (balances s) "constructor" = Some (Num nan)
       ∧ totalAssets s = Num nan).
Proof.
  intros s. split; [|split; [|split]].
  - unfold s, computeStats. cbn [balances].
    rewrite foldl_step_get by done. cbn [acc_balances].
    by rewrite initAccounts_get.
  - apply computeStats_own_proto.
  - intros. subst t s0. split; vm_compute; reflexivity.
  - intros. subst t s0. split; [|split]; vm_compute; reflexivity.
Qed.

Lemma computeStats_balances_witness :
  let transfer :=
    {| id := "a"; date := "2026/11/02"; type := Some TRANSFER;
       source := "Bank"; destination := "Cash"; amount := 50;
       summary := ""; payer := None;
       projectCode := None; invoiceNumber := None |} in
  "Cash" ≠ "__proto__"
  ∧ get (balances (computeStats "2026-11" [transfer] ["Cash"]
                     (Some {["Cash" := 100%float]}))) "Cash"
    = Some (Num 150%float).
Proof.
  intros transfer. split; [done|].
  rewrite (proj1 (computeStats_balances "2026-11" [transfer] ["Cash"]
                    (Some {["Cash" := 100%float]}) "Cash" ltac:(done))).
  vm_compute. reflexivity.
Defined.

End DashboardFacts.


(** ** Where the doubles of the dashboard are exact

    On inputs in the exact regime every double the dashboard computes is
    the double of the whole number the exact ledger computes. *)

Section RefinementFacts.
Import Types Js JsNumber JsObject LedgerSpec Ledger.
Import ExactLedger (represents, matches, exactRegime, magnitude, asNumbers, sumAbs).

#[local] Abbreviation dbl := (fun z : Z => Num (ofZ z)).

Lemma total_app_abs (l1 l2 : list Z) : total (l1 ++ l2) = total l1 + total l2.
Proof. induction l1 as [|x l1 IH]; simpl; [done|]. rewrite IH. lia. Qed.

Lemma total_Permutation (l1 l2 : list Z) : l1 ≡ₚ l2 → total l1 = total l2.
Proof. induction 1; simpl; lia. Qed.

Lemma total_abs_nonneg {A} (g : A → Z) (l : list A) :
  0 ≤ total (map (fun x => Z.abs (g x)) l).
Proof. induction l as [|x l IH]; simpl; lia. Qed.

Lemma total_abs_elem {A} (g : A → Z) (l : list A) x :
  x ∈ l → Z.abs (g x) ≤ total (map (fun x => Z.abs (g x)) l).
Proof.
  induction 1 as [x l|x y l _ IH]; simpl.
  - pose proof (total_abs_nonneg g l). lia.
  - lia.
Qed.

(** *** The sum of the magnitudes of a map *)

Lemma sumAbs_delete (k : string) (b : gmap string Z) :
  sumAbs b = sumAbs (delete k b) + Z.abs (ExactLedger.orZero (b !! k)).
Proof.
  unfold sumAbs. destruct (b !! k) as [x|] eqn:Hk; simpl.
  - rewrite (map_fold_delete_L _ _ k x b); [reflexivity| |done].
    intros. lia.
  - rewrite delete_id by done. lia.
Qed.

Lemma sumAbs_insert (k : string) (v : Z) (b : gmap string Z) :
  sumAbs (<[k:=v]> b)
  = sumAbs b - Z.abs (ExactLedger.orZero (b !! k)) + Z.abs v.
Proof.
  rewrite (sumAbs_delete k b), <- (insert_delete_eq b k v).
  unfold sumAbs at 1. rewrite map_fold_insert_L.
  - fold (sumAbs (delete k b)). lia.
  - intros. lia.
  - apply lookup_delete_eq.
Qed.

Lemma sumAbs_nonneg (b : gmap string Z) : 0 ≤ sumAbs b.
Proof.
  induction b as [|k v b Hk IH] using map_ind; [done|].
  rewrite sumAbs_insert, Hk. simpl. lia.
Qed.

Lemma sumAbs_lookup (k : string) (b : gmap string Z) :
  Z.abs (ExactLedger.orZero (b !! k)) ≤ sumAbs b.
Proof.
  rewrite (sumAbs_delete k b). pose proof (sumAbs_nonneg (delete k b)). lia.
Qed.

Lemma sumAbs_over (l : list string) :
  NoDup l → ∀ b : gmap string Z,
  (∀ k, is_Some (b !! k) ↔ k ∈ l) →
  sumAbs b = total (map (fun k => Z.abs (ExactLedger.orZero (b !! k))) l).
Proof.
  induction 1 as [|x l Hx Hl IH]; intros b Hdom; simpl.
  - assert (b = ∅) as ->.
    { apply map_empty. intros k. apply eq_None_not_Some. rewrite Hdom.
      apply not_elem_of_nil. }
    reflexivity.
  - rewrite (sumAbs_delete x b), (IH (delete x b)).
    + assert (map (fun k => Z.abs (ExactLedger.orZero (delete x b !! k))) l
              = map (fun k => Z.abs (ExactLedger.orZero (b !! k))) l) as ->;
        [|lia].
      apply map_ext_in. intros k Hk. rewrite lookup_delete_ne; [done|].
      intros ->. apply Hx. by apply list_elem_of_In.
    + intros k. rewrite lookup_delete. destruct (decide (x = k)) as [->|Hne].
      * split; [by intros [? ?]|done].
      * rewrite Hdom, elem_of_cons. split; [intros [?|?]; congruence|by right].
Qed.

(** *** One read and one assignment *)

Lemma safe_le (z b : Z) : Z.abs z ≤ b → b < 2 ^ 53 → safe z.
Proof. unfold safe. lia. Qed.

Lemma orZero_dbl (z : Z) : safe z → orZero (Some (dbl z)) = dbl z.
Proof.
  intros H. unfold orZero, truthyValue. rewrite (falsy_ofZ z H).
  destruct (bool_decide_reflect (z = 0)) as [->|]; simpl; [|done].
  by rewrite ofZ_0.
Qed.

Lemma orZero_represents o m k :
  represents o m → inherited k = false →
  safe (ExactLedger.orZero (m !! k)) →
  orZero (get o k) = dbl (ExactLedger.orZero (m !! k)).
Proof.
  intros [_ Hown] Hk Hsafe. rewrite (get_own o k Hk), Hown.
  destruct (m !! k) as [z|]; simpl in *.
  - by apply orZero_dbl.
  - by rewrite ofZ_0.
Qed.

Lemma represents_set o m k z :
  represents o m → inherited k = false →
  represents (set k (dbl z) o) (<[k := z]> m).
Proof.
  intros [Hnd Hown] Hk. split; [by apply set_NoDup|].
  intros j. rewrite own_set, lookup_insert.
  pose proof (not_inherited_proto k Hk).
  destruct (decide (k = j)) as [->|Hne].
  - by rewrite decide_True.
  - rewrite decide_False; [apply Hown|]. by intros [? _].
Qed.

Lemma represents_debit o m k amt :
  represents o m → inherited k = false →
  sumAbs m + Z.abs amt < 2 ^ 53 →
  represents (Dashboard.debit k (ofZ amt) o) (ExactLedger.debit k amt m)
  ∧ sumAbs (ExactLedger.debit k amt m) ≤ sumAbs m + Z.abs amt.
Proof.
  intros Hrep Hk Hb. pose proof (sumAbs_lookup k m) as Hle.
  pose proof (sumAbs_nonneg m) as H0.
  unfold Dashboard.debit, ExactLedger.debit. split.
  - rewrite (orZero_represents o m k Hrep Hk) by (unfold safe; lia).
    unfold minus. cbn [toNumber].
    rewrite ofZ_sub by (unfold safe; lia).
    by apply represents_set.
  - rewrite sumAbs_insert. lia.
Qed.

Lemma represents_credit o m k amt :
  represents o m → inherited k = false →
  sumAbs m + Z.abs amt < 2 ^ 53 →
  represents (Dashboard.credit k (ofZ amt) o) (ExactLedger.credit k amt m)
  ∧ sumAbs (ExactLedger.credit k amt m) ≤ sumAbs m + Z.abs amt.
Proof.
  intros Hrep Hk Hb. pose proof (sumAbs_lookup k m) as Hle.
  pose proof (sumAbs_nonneg m) as H0.
  unfold Dashboard.credit, ExactLedger.credit. split.
  - rewrite (orZero_represents o m k Hrep Hk) by (unfold safe; lia).
    unfold plus.
    rewrite ofZ_add by (unfold safe; lia).
    by apply represents_set.
  - rewrite sumAbs_insert. lia.
Qed.

(** *** One transaction *)

Lemma represents_guarded_debit o m k amt :
  represents o m → inherited k = false →
  sumAbs m + Z.abs amt < 2 ^ 53 →
  represents (if truthy k then Dashboard.debit k (ofZ amt) o else o)
             (if truthy k then ExactLedger.debit k amt m else m)
  ∧ sumAbs (if truthy k then ExactLedger.debit k amt m else m)
    ≤ sumAbs m + Z.abs amt.
Proof.
  intros Hrep Hk Hb. destruct (truthy k).
  - by apply represents_debit.
  - split; [done|lia].
Qed.

Lemma represents_guarded_credit o m k amt :
  represents o m → inherited k = false →
  sumAbs m + Z.abs amt < 2 ^ 53 →
  represents (if truthy k then Dashboard.credit k (ofZ amt) o else o)
             (if truthy k then ExactLedger.credit k amt m else m)
  ∧ sumAbs (if truthy k then ExactLedger.credit k amt m else m)
    ≤ sumAbs m + Z.abs amt.
Proof.
  intros Hrep Hk Hb. destruct (truthy k).
  - by apply represents_credit.
  - split; [done|lia].
Qed.

Lemma monthly_add (cur : bool) (x : number) (z amt : Z) :
  x = ofZ z → Z.abs z + Z.abs amt < 2 ^ 53 →
  (if cur then (x + ofZ amt)%float else x)
  = ofZ (if cur then z + amt else z)
  ∧ Z.abs (if cur then z + amt else z) ≤ Z.abs z + Z.abs amt.
Proof.
  intros -> Hb. destruct cur; [|split; [done|lia]].
  split; [|lia]. apply ofZ_add; unfold safe; lia.
Qed.

Lemma matches_step cm a z t :
  matches a z →
  inherited (source t) = false → inherited (destination t) = false →
  sumAbs (ExactLedger.acc_balances z) + 2 * Z.abs (amount t) < 2 ^ 53 →
  Z.abs (ExactLedger.acc_income z) + Z.abs (amount t) < 2 ^ 53 →
  Z.abs (ExactLedger.acc_expense z) + Z.abs (amount t) < 2 ^ 53 →
  matches (Dashboard.step cm a t) (ExactLedger.step cm z t)
  ∧ sumAbs (ExactLedger.acc_balances (ExactLedger.step cm z t))
    ≤ sumAbs (ExactLedger.acc_balances z) + 2 * Z.abs (amount t)
  ∧ Z.abs (ExactLedger.acc_income (ExactLedger.step cm z t))
    ≤ Z.abs (ExactLedger.acc_income z) + Z.abs (amount t)
  ∧ Z.abs (ExactLedger.acc_expense (ExactLedger.step cm z t))
    ≤ Z.abs (ExactLedger.acc_expense z) + Z.abs (amount t).
Proof.
  intros (Hrep & Hinc & Hexp) Hs Hd Hb Hi He.
  pose proof (sumAbs_nonneg (ExactLedger.acc_balances z)) as H0.
  destruct (represents_guarded_debit _ _ (source t) (amount t) Hrep Hs
              ltac:(lia)) as [Hdeb Hdeb'].
  destruct (represents_guarded_credit _ _ (destination t) (amount t) Hrep Hd
              ltac:(lia)) as [Hcre Hcre'].
  destruct (represents_guarded_credit _ _ (destination t) (amount t) Hdeb Hd
              ltac:(lia)) as [Hboth Hboth'].
  destruct (monthly_add (Dashboard.isCurrentMonth cm t) _ _ (amount t) Hinc Hi)
    as [Hinc1 Hinc2].
  destruct (monthly_add (Dashboard.isCurrentMonth cm t) _ _ (amount t) Hexp He)
    as [Hexp1 Hexp2].
  unfold matches, Dashboard.step, ExactLedger.step. cbv zeta.
  destruct (type t) as [[]|];
    cbn [Dashboard.acc_balances Dashboard.acc_income Dashboard.acc_expense
         ExactLedger.acc_balances ExactLedger.acc_income
         ExactLedger.acc_expense];
    refine (conj (conj _ (conj _ _)) (conj _ (conj _ _)));
    first [assumption | lia].
Qed.

Lemma matches_foldl cm ts :
  Forall (fun t => inherited (source t) = false
                   ∧ inherited (destination t) = false) ts →
  ∀ a z,
    matches a z →
    sumAbs (ExactLedger.acc_balances z)
      + 2 * total (map (fun t => Z.abs (amount t)) ts) < 2 ^ 53 →
    Z.abs (ExactLedger.acc_income z)
      + total (map (fun t => Z.abs (amount t)) ts) < 2 ^ 53 →
    Z.abs (ExactLedger.acc_expense z)
      + total (map (fun t => Z.abs (amount t)) ts) < 2 ^ 53 →
    matches (foldl (Dashboard.step cm) a ts) (foldl (ExactLedger.step cm) z ts)
    ∧ sumAbs (ExactLedger.acc_balances (foldl (ExactLedger.step cm) z ts))
      < 2 ^ 53.
Proof.
  induction 1 as [|t ts [Hs Hd] _ IH]; intros a z Hm Hb Hi He; simpl in *.
  - split; [done|lia].
  - pose proof (total_abs_nonneg amount ts) as H0.
    destruct (matches_step cm a z t Hm Hs Hd) as (Hm' & Hb' & Hi' & He');
      [lia..|].
    apply IH; [done|lia..].
Qed.

(** *** The initial balances *)

Lemma readProp_numbers (zinit : gmap string Z) k :
  inherited k = false →
  safe (ExactLedger.orZero (zinit !! k)) →
  orZero (readProp (ofZ <$> zinit) k) = dbl (ExactLedger.orZero (zinit !! k)).
Proof.
  intros Hk Hsafe. unfold readProp. rewrite lookup_fmap, Hk.
  destruct (zinit !! k) as [z|]; simpl in *.
  - by apply orZero_dbl.
  - by rewrite ofZ_0.
Qed.

Lemma represents_init (zinit : gmap string Z) accounts :
  Forall (fun k => inherited k = false) accounts →
  ∀ o m,
    represents o m →
    sumAbs m + total (map (fun k => Z.abs (ExactLedger.orZero (zinit !! k)))
                          accounts) < 2 ^ 53 →
    represents
      (foldl (fun b acc => set acc (orZero (readProp (ofZ <$> zinit) acc)) b)
             o accounts)
      (foldl (fun b acc => <[acc := ExactLedger.orZero (zinit !! acc)]> b)
             m accounts)
    ∧ sumAbs (foldl (fun b acc => <[acc := ExactLedger.orZero (zinit !! acc)]> b)
                    m accounts)
      ≤ sumAbs m + total (map (fun k => Z.abs (ExactLedger.orZero (zinit !! k)))
                              accounts).
Proof.
  induction 1 as [|k accounts Hk _ IH]; intros o m Hrep Hb; simpl in *.
  - split; [done|lia].
  - pose proof (sumAbs_nonneg m) as H0.
    assert (0 ≤ total (map (fun k => Z.abs (ExactLedger.orZero (zinit !! k)))
                           accounts)) as H1
      by apply (total_abs_nonneg (fun k => ExactLedger.orZero (zinit !! k))).
    pose proof (sumAbs_lookup k m) as H2.
    rewrite readProp_numbers by (done || (unfold safe; lia)).
    destruct (IH (set k (dbl (ExactLedger.orZero (zinit !! k))) o)
                 (<[k := ExactLedger.orZero (zinit !! k)]> m)) as [Hr Hle].
    + by apply represents_set.
    + rewrite sumAbs_insert. lia.
    + split; [done|]. rewrite sumAbs_insert in Hle. lia.
Qed.

(** *** The total *)

Lemma plus_dbl_foldl (zs : list Z) :
  ∀ acc, Z.abs acc + total (map Z.abs zs) < 2 ^ 53 →
         foldl plus (dbl acc) (map dbl zs) = dbl (acc + total zs).
Proof.
  induction zs as [|z zs IH]; intros acc Hb; simpl in *.
  - by rewrite Z.add_0_r.
  - assert (0 ≤ total (map Z.abs zs)) as H0
      by apply (total_abs_nonneg (fun x : Z => x)).
    rewrite ofZ_add by (unfold safe; lia).
    rewrite IH by lia. f_equal. f_equal. lia.
Qed.

Lemma values_represents o m :
  represents o m →
  o.*2 = map dbl (map (fun k => ExactLedger.orZero (m !! k)) o.*1).
Proof.
  intros [Hnd Hown].
  etrans; [exact (f_equal (map snd) (entries_own o Hnd))|].
  rewrite !map_map.
  apply map_ext_in. intros [k w] Hkw%list_elem_of_In. simpl.
  assert (k ∈ o.*1) as Hk by (apply list_elem_of_fmap; by exists (k, w)).
  apply own_is_Some in Hk as [v Hv]. rewrite Hv. simpl.
  rewrite Hown in Hv. destruct (m !! k) as [z|]; simpl in *; congruence.
Qed.

Lemma represents_dom o m :
  represents o m → ∀ k, is_Some (m !! k) ↔ k ∈ o.*1.
Proof.
  intros [_ Hown] k. rewrite <- own_is_Some, Hown.
  destruct (m !! k); simpl; split; intros [? ?]; by eauto.
Qed.

Lemma sumValues_represents o m :
  represents o m → sumAbs m < 2 ^ 53 →
  Dashboard.sumValues o = dbl (ExactLedger.sumValues m).
Proof.
  intros Hrep Hb. unfold Dashboard.sumValues.
  pose proof (values_Permutation o) as Hperm.
  rewrite (values_represents o m Hrep) in Hperm.
  apply Permutation_map_inv in Hperm as (zs & Hvalues & Hzs).
  rewrite Hvalues. change (Num 0%float) with (dbl 0).
  destruct Hrep as [Hnd Hown].
  pose proof (represents_dom o m (conj Hnd Hown)) as Hdom.
  rewrite plus_dbl_foldl.
  - rewrite Z.add_0_l, <- (total_Permutation _ _ Hzs).
    by rewrite (sumValues_over o.*1 Hnd m Hdom).
  - rewrite <- (total_Permutation _ _ (Permutation_map Z.abs Hzs)), map_map.
    rewrite <- (sumAbs_over o.*1 Hnd m Hdom). simpl. lia.
Qed.

(** *** The whole computation *)

Lemma asNumbers_default (zi : option (gmap string Z)) :
  default ∅ (asNumbers zi) = ofZ <$> default ∅ zi.
Proof. destruct zi; simpl; [done|]. by rewrite fmap_empty. Qed.

Lemma represents_empty : represents [] ∅.
Proof. split; [constructor|]. intros k. by rewrite lookup_empty. Qed.

Lemma computeStats_exact cm ts accounts (zi : option (gmap string Z)) :
  exactRegime (default ∅ zi) accounts ts →
  let s := Dashboard.computeStats cm ts accounts (asNumbers zi) in
  let e := ExactLedger.computeStats cm ts accounts zi in
  represents (Dashboard.balances s) (ExactLedger.balances e)
  ∧ Dashboard.totalAssets s = dbl (ExactLedger.totalAssets e)
  ∧ Dashboard.monthlyIncome s = ofZ (ExactLedger.monthlyIncome e)
  ∧ Dashboard.monthlyExpense s = ofZ (ExactLedger.monthlyExpense e).
Proof.
  intros (Hacc & Hts & Hb). unfold magnitude in Hb.
  pose proof (total_abs_nonneg amount ts) as H0.
  assert (0 ≤ total (map (fun k => Z.abs (ExactLedger.orZero
                                            (default ∅ zi !! k))) accounts))
    as H1
    by apply (total_abs_nonneg
                (fun k => ExactLedger.orZero (default ∅ zi !! k))).
  unfold Dashboard.computeStats, ExactLedger.computeStats.
  cbn [Dashboard.balances Dashboard.totalAssets Dashboard.monthlyIncome
       Dashboard.monthlyExpense ExactLedger.balances ExactLedger.totalAssets
       ExactLedger.monthlyIncome ExactLedger.monthlyExpense].
  rewrite asNumbers_default.
  destruct (represents_init (default ∅ zi) accounts Hacc [] ∅ represents_empty)
    as [Hinit Hle].
  { change (sumAbs ∅) with 0. lia. }
  change (sumAbs ∅) with 0 in Hle.
  destruct (matches_foldl cm ts Hts
              {| Dashboard.acc_balances :=
                   Dashboard.initAccounts accounts (ofZ <$> default ∅ zi);
                 Dashboard.acc_income := 0%float;
                 Dashboard.acc_expense := 0%float |}
              {| ExactLedger.acc_balances :=
                   ExactLedger.initAccounts accounts (default ∅ zi);
                 ExactLedger.acc_income := 0; ExactLedger.acc_expense := 0 |})
    as [(Hrep & Hinc & Hexp) Hsum].
  - split; [exact Hinit|]. split; reflexivity.
  - cbn [ExactLedger.acc_balances]. unfold ExactLedger.initAccounts. lia.
  - cbn [ExactLedger.acc_income]. lia.
  - cbn [ExactLedger.acc_expense]. lia.
  - split; [exact Hrep|]. split; [|by split].
    by apply sumValues_represents.
Qed.

End RefinementFacts.

(** ** The dashboard: the order of the transactions *)

Section DashboardOrder.
Import Types Js JsNumber JsObject Dashboard LedgerSpec Ledger.
Import ExactLedger (represents, matches, exactRegime, magnitude, asNumbers).

Lemma exactRegime_Permutation initial accounts ts1 ts2 :
  ts1 ≡ₚ ts2 → exactRegime initial accounts ts1 → exactRegime initial accounts ts2.
Proof.
  intros Hperm (Hacc & Hts & Hb). split; [done|]. split.
  - by rewrite <- Hperm.
  - unfold magnitude in *.
    by rewrite <- (total_Permutation _ _
                     (Permutation_map (fun t => Z.abs (amount t)) Hperm)).
Qed.

(** C6, as the code has it.  On whole numbers within the range that doubles
    hold exactly, and with account names that are not members of
    [Object.prototype], permuting the transaction collection, with the
    same accounts and initial balances and the same evaluation month, yields
    the same entries of [balances], the same [totalAssets], [monthlyIncome]
    and [monthlyExpense]; the monthly figures are the sums of per-transaction
    contributions, each of which depends on the type, the amount and the
    date of that transaction only. *)
Theorem computeStats_Permutation cm ts1 ts2 accounts
    (initialBalances : option (gmap string Z))
    (Hperm : ts1 ≡ₚ ts2)
    (Hexact : exactRegime (default ∅ initialBalances) accounts ts1) :
  let s1 := computeStats cm ts1 accounts (asNumbers initialBalances) in
  let s2 := computeStats cm ts2 accounts (asNumbers initialBalances) in
  (∀ k, own (balances s1) k = own (balances s2) k)
  ∧ (∀ k, get (balances s1) k = get (balances s2) k)
  ∧ totalAssets s1 = totalAssets s2
  ∧ monthlyIncome s1 = monthlyIncome s2
  ∧ monthlyExpense s1 = monthlyExpense s2
  ∧ monthlyIncome s1 = ofZ (total (map (incomeOf (isCurrentMonth cm)) ts1))
  ∧ monthlyExpense s1 = ofZ (total (map (expenseOf (isCurrentMonth cm)) ts1)).
Proof.
  intros s1 s2.
  destruct (computeStats_exact cm ts1 accounts initialBalances Hexact)
    as ([_ Hown1] & Htotal1 & Hinc1 & Hexp1).
  destruct (computeStats_exact cm ts2 accounts initialBalances
              (exactRegime_Permutation _ _ _ _ Hperm Hexact))
    as ([_ Hown2] & Htotal2 & Hinc2 & Hexp2).
  rewrite <- (exact_Permutation cm ts1 ts2 accounts initialBalances Hperm)
    in Hown2, Htotal2, Hinc2, Hexp2.
  fold s1 in Hown1, Htotal1, Hinc1, Hexp1.
  fold s2 in Hown2, Htotal2, Hinc2, Hexp2.
  assert (∀ k, own (balances s1) k = own (balances s2) k) as Hown
    by (intros k; by rewrite Hown1, Hown2).
  split; [exact Hown|].
  split; [intros k; unfold get; by rewrite Hown|].
  split; [by rewrite Htotal1, Htotal2|].
  split; [by rewrite Hinc1, Hinc2|].
  split; [by rewrite Hexp1, Hexp2|].
  destruct (exact_monthly cm ts1 accounts initialBalances) as [Hi He].
  by rewrite Hinc1, Hexp1, Hi, He.
Qed.

Lemma computeStats_Permutation_witness :
  [Scenario.lunch; Scenario.salary] ≡ₚ [Scenario.salary; Scenario.lunch]
  ∧ exactRegime ∅ ["Cash"; "Bank"] [Scenario.lunch; Scenario.salary]
  ∧ totalAssets (computeStats "2026-11" [Scenario.lunch; Scenario.salary]
                   ["Cash"; "Bank"] (asNumbers None))
    = totalAssets (computeStats "2026-11" [Scenario.salary; Scenario.lunch]
                     ["Cash"; "Bank"] (asNumbers None)).
Proof.
  assert (exactRegime ∅ ["Cash"; "Bank"] [Scenario.lunch; Scenario.salary])
    as Hexact.
  { split; [by repeat constructor|]. split; [by repeat constructor|].
    vm_compute. reflexivity. }
  split; [apply perm_swap|]. split; [exact Hexact|].
  exact (proj1 (proj2 (proj2
           (computeStats_Permutation "2026-11"
              [Scenario.lunch; Scenario.salary]
              [Scenario.salary; Scenario.lunch] ["Cash"; "Bank"] None
              (perm_swap _ _ _) Hexact)))).
Defined.

(** C6, as the specification has it, fails: with an initial balance of 0.01
    on Cash, an expense of 1 and an expense of 16 from Cash leave
    -16.989999999999998 when booked in this order and -16.990000000000002
    when booked in the other; the totals differ in the same way. *)
Lemma computeStats_order_matters :
  let one :=
    {| id := "a"; date := "2026/11/02"; type := Some EXPENSE;
       source := "Cash"; destination := "Food"; amount := 1;
       summary := ""; payer := None;
       projectCode := None; invoiceNumber := None |} in
  let sixteen :=
    {| id := "b"; date := "2026/11/03"; type := Some EXPENSE;
       source := "Cash"; destination := "Rent"; amount := 16;
       summary := ""; payer := None;
       projectCode := None; invoiceNumber := None |} in
  let initialBalances : option (gmap string number) :=
    Some {["Cash" := 0x1.47ae147ae147bp-7%float]} in
  let s1 := computeStats "2026-11" [one; sixteen] ["Cash"] initialBalances in
  let s2 := computeStats "2026-11" [sixteen; one] ["Cash"] initialBalances in
  [one; sixteen] ≡ₚ [sixteen; one]
  ∧ get (balances s1) "Cash" = Some (Num (-0x1.0fd70a3d70a3dp+4)%float)
  ∧ get (balances s2) "Cash" = Some (Num (-0x1.0fd70a3d70a3ep+4)%float)
  ∧ get (balances s1) "Cash" ≠ get (balances s2) "Cash"
  ∧ totalAssets s1 ≠ totalAssets s2.
Proof.
  intros one sixteen initialBalances s1 s2.
  assert (get (balances s1) "Cash" = Some (Num (-0x1.0fd70a3d70a3dp+4)%float))
    as H1 by (vm_compute; reflexivity).
  assert (get (balances s2) "Cash" = Some (Num (-0x1.0fd70a3d70a3ep+4)%float))
    as H2 by (vm_compute; reflexivity).
  assert (totalAssets s1 = Num (-0x1.0fd70a3d70a3dp+4)%float)
    as H3 by (vm_compute; reflexivity).
  assert (totalAssets s2 = Num (-0x1.0fd70a3d70a3ep+4)%float)
    as H4 by (vm_compute; reflexivity).
  split; [apply perm_swap|]. split; [exact H1|]. split; [exact H2|].
  rewrite H1, H2, H3, H4.
  split; intros [= H];
    apply (f_equal (fun x => (x =? -0x1.0fd70a3d70a3dp+4)%float)) in H;
    vm_compute in H; discriminate.
Qed.

End DashboardOrder.

(** ** The settings dialog *)

Section SettingsFacts.
Import Types SettingsDialog.

Lemma filterIndexFrom_ne {A} (index : nat) (l : list A) :
  ∀ i0, filterIndexFrom i0 (fun i => negb (i =? index)%nat) l
        = if decide (index < i0)%nat then l else delete (index - i0)%nat l.
Proof.
  induction l as [|x l IH]; intros i0; simpl.
  - by destruct (decide (index < i0)%nat).
  - rewrite IH. destruct (Nat.eqb_spec i0 index) as [->|Hne]; simpl.
    + rewrite decide_True by lia. rewrite decide_False by lia.
      by rewrite Nat.sub_diag.
    + destruct (decide (index < i0)%nat).
      * by rewrite decide_True by lia.
      * rewrite decide_False by lia.
        replace (index - i0)%nat with (S (index - S i0)) by lia.
        reflexivity.
Qed.

Lemma filterIndex_ne {A} (index : nat) (l : list A) :
  filterIndex (fun i => negb (i =? index)%nat) l = delete index l.
Proof.
  unfold filterIndex. rewrite filterIndexFrom_ne.
  rewrite decide_False by lia. by rewrite Nat.sub_0_r.
Qed.

(** C9. Deleting the account at a position of [commonSources] removes that
    position from the list, removes the [initialBalances] entry of its name
    in the same edit, leaves every other [initialBalances] entry as it was,
    and leaves [commonDestinations], [commonIncomeSources] and [commonNotes]
    unchanged. *)
Theorem handleDeleteSource_frame (index : nat) (s : AppSettings) (name : string)
    (Hname : commonSources s !! index = Some name) :
  let s' := handleDeleteSource index s in
  commonSources s' = delete index (commonSources s)
  ∧ (∃ b' : gmap string JsNumber.number,
        initialBalances s' = Some b'
        ∧ b' !! name = None
        ∧ ∀ k, k ≠ name → b' !! k = default ∅ (initialBalances s) !! k)
  ∧ commonDestinations s' = commonDestinations s
  ∧ commonIncomeSources s' = commonIncomeSources s
  ∧ commonNotes s' = commonNotes s.
Proof.
  unfold handleDeleteSource. simpl. rewrite Hname. simpl.
  split; [apply filterIndex_ne|].
  split; [|done].
  eexists. split; [reflexivity|]. split.
  - apply lookup_delete_eq.
  - intros k Hk. by apply lookup_delete_ne.
Qed.

Lemma handleDeleteSource_frame_witness :
  let s := {| commonSources := ["Cash"; "Bank"];
              commonDestinations := ["Food"];
              commonIncomeSources := ["Salary"];
              commonNotes := ["lunch"];
              initialBalances := Some {["Cash" := 100%float; "Bank" := 2000%float]} |} in
  commonSources s !! 0%nat = Some "Cash"
  ∧ commonSources (handleDeleteSource 0 s) = ["Bank"]
  ∧ commonNotes (handleDeleteSource 0 s) = ["lunch"].
Proof.
  intros s. split; [reflexivity|].
  pose proof (handleDeleteSource_frame 0 s "Cash" eq_refl) as (H1 & _ & _ & _ & H5).
  split; [exact H1 | exact H5].
Defined.

End SettingsFacts.

(** ** The transaction form *)

Section FormFacts.
Import Types Js TransactionForm.

Lemma splitEffect_amounts st :
  isSplit st = true → truthyCell (amount st) = true →
  amountA (splitEffect st) = Num (Number (amount st) / 2)
  ∧ amountB (splitEffect st) = Num (Number (amount st) - Number (amount st) / 2).
Proof.
  intros Hs Ha. unfold splitEffect. by rewrite Hs, Ha.
Qed.

Lemma splitEffect_other st :
  type (splitEffect st) = type st ∧ date (splitEffect st) = date st
  ∧ source (splitEffect st) = source st ∧ amount (splitEffect st) = amount st
  ∧ summary (splitEffect st) = summary st ∧ payer (splitEffect st) = payer st
  ∧ isSplit (splitEffect st) = isSplit st
  ∧ destinationA (splitEffect st) = destinationA st
  ∧ destinationB (splitEffect st) = destinationB st.
Proof.
  unfold splitEffect. destruct (isSplit st && truthyCell (amount st)); done.
Qed.

(** C8. A split expense of total [N] whose per-item amounts were left to the
    automatic calculation is submitted as exactly two EXPENSE transactions
    that share date, source, summary and payer, carry distinct identifiers
    and the two chosen destinations, and have the amounts [floor(N/2)] and
    [N - floor(N/2)]; for [N = 101] these are 50 and 51, which sum to 101. *)
Theorem handleSubmit_split_default uuidv4 (st : FormState) (N : Z) (drawn : nat)
    (Hfresh : uuidv4 drawn ≠ uuidv4 (S drawn))
    (Htype : type st = EXPENSE) (Hsplit : isSplit st = true)
    (Hsource : source st ≠ "")
    (Hamount : truthyCell (amount st) = true) (HN : Number (amount st) = N)
    (HdestA : destinationA st ≠ "") (HdestB : destinationB st ≠ "") :
  ∃ t1 t2,
    (handleSubmit uuidv4 None (splitEffect st) drawn).1.1 = Some [t1; t2]
    ∧ Types.type t1 = Some EXPENSE ∧ Types.type t2 = Some EXPENSE
    ∧ Types.date t1 = Types.date t2
    ∧ Types.source t1 = source st ∧ Types.source t2 = source st
    ∧ Types.summary t1 = summary st ∧ Types.summary t2 = summary st
    ∧ Types.payer t1 = Some (payer st) ∧ Types.payer t2 = Some (payer st)
    ∧ Types.id t1 ≠ Types.id t2
    ∧ Types.destination t1 = destinationA st
    ∧ Types.destination t2 = destinationB st
    ∧ Types.amount t1 = N / 2 ∧ Types.amount t2 = N - N / 2
    ∧ Types.amount t1 + Types.amount t2 = N
    ∧ (N = 101 → Types.amount t1 = 50 ∧ Types.amount t2 = 51).
Proof.
  destruct (splitEffect_amounts st Hsplit Hamount) as [HA HB].
  destruct (splitEffect_other st)
    as (Ht & Hd & Hs & Ham & Hsum & Hp & Hsp & HdA & HdB).
  apply truthy_true in Hsource, HdestA, HdestB.
  unfold handleSubmit.
  rewrite Hs, Ham, Ht, Hsp, HdA, HdB, HA, HB, Htype, Hsplit.
  rewrite Hsource, Hamount, HdestA, HdestB. simpl.
  eexists _, _. split; [reflexivity|]. simpl.
  rewrite ?Ht, ?Hd, ?Hs, ?Hsum, ?Hp, ?HdA, ?HdB, ?Htype, ?HN.
  repeat split; try done; try lia; subst N; by rewrite H.
Qed.

Lemma handleSubmit_split_default_witness :
  ∃ t1 t2,
    (handleSubmit Scenario.uuidOfNat None
       (changeAmount (Some 101) (Scenario.splitForm None)) 0).1.1
    = Some [t1; t2]
    ∧ Types.amount t1 = 50 ∧ Types.amount t2 = 51.
Proof.
  destruct (handleSubmit_split_default Scenario.uuidOfNat
              (withAmount (Text (Some 101)) (Scenario.splitForm None)) 101 0)
    as (t1 & t2 & Hsub & H); try done.
  exists t1, t2. split; [exact Hsub|].
  apply H. reflexivity.
Defined.

End FormFacts.

(** ** Frame reasoning for the monad

    For a preorder [R], [keeps R] is closed under
    the constructs of the monad, so that a frame property of a handler
    follows from the same property of the requests and updates it makes. *)

Section Keeps.
Import Runtime World Aux.
Context {Remote Blob : Type}.

#[local] Abbreviation W := (World Remote Blob).
#[local] Abbreviation M := (@M Remote Blob).

Context (R : W → W → Prop) `{!PreOrder R}.

Lemma keeps_ret {A} (a : A) : keeps R (ret a).
Proof. intros w. simpl. reflexivity. Qed.

Lemma keeps_throw {A} e : keeps R (@throw _ _ A e).
Proof. intros w. simpl. reflexivity. Qed.

Lemma keeps_get {A} (f : W → A) : keeps R (get f).
Proof. intros w. simpl. reflexivity. Qed.

Lemma keeps_liftOutcome {A} (o : Outcome A) : keeps R (liftOutcome o).
Proof. intros w. simpl. reflexivity. Qed.

Lemma keeps_modify (f : W → W) : (∀ w, R w (f w)) → keeps R (modify f).
Proof. intros Hf w. apply Hf. Qed.

Lemma keeps_bind {A B} (m : M A) (k : A → M B) :
  keeps R m → (∀ a, keeps R (k a)) → keeps R (bind m k).
Proof.
  intros Hm Hk w. unfold bind. specialize (Hm w).
  destruct (m w) as [[a|e] w']; simpl in *; [|done].
  etrans; [exact Hm|apply Hk].
Qed.

Lemma keeps_tryCatch {A} (m : M A) (h : Thrown → M A) :
  keeps R m → (∀ e, keeps R (h e)) → keeps R (tryCatch m h).
Proof.
  intros Hm Hh w. unfold tryCatch. specialize (Hm w).
  destruct (m w) as [[a|e] w']; simpl in *; [done|].
  etrans; [exact Hm|apply Hh].
Qed.

Lemma keeps_tryFinally {A} (m : M A) (f : W → W) :
  keeps R m → (∀ w, R w (f w)) → keeps R (tryFinally m f).
Proof.
  intros Hm Hf w. unfold tryFinally. specialize (Hm w).
  destruct (m w) as [r w']; simpl in *. etrans; [exact Hm|apply Hf].
Qed.

Lemma keeps_detached {A} (m : M A) : keeps R m → keeps R (detached m).
Proof. intros Hm w. apply Hm. Qed.

Lemma keeps_request {A} (c : SdkCall Blob) (h : Remote → Outcome A * Remote) :
  (∀ w rem, R w (set_remote rem (add_call c w))) → keeps R (request c h).
Proof.
  intros Hc w. unfold request. destruct (h (remote w)) as [r rem]. apply Hc.
Qed.

End Keeps.

(** Decomposes a [keeps] goal along the program; the leaves are the
    single updates and requests. *)
Ltac keeps_step :=
  lazymatch goal with
  | |- Aux.keeps _ (World.bind _ _) => apply keeps_bind; [apply _| |intros ?]
  | |- Aux.keeps _ (World.tryCatch _ _) =>
      apply keeps_tryCatch; [apply _| |intros ?]
  | |- Aux.keeps _ (World.tryFinally _ _) =>
      apply keeps_tryFinally; [apply _| |intros ?]
  | |- Aux.keeps _ (World.detached _) => apply keeps_detached
  | |- Aux.keeps _ (World.ret _) => apply keeps_ret; apply _
  | |- Aux.keeps _ (World.throw _) => apply keeps_throw; apply _
  | |- Aux.keeps _ (World.get _) => apply keeps_get; apply _
  | |- Aux.keeps _ (World.liftOutcome _) => apply keeps_liftOutcome; apply _
  | |- Aux.keeps _ (World.modify _) => apply keeps_modify; intros ?
  | |- Aux.keeps _ (World.alert _) => apply keeps_modify; intros ?
  | |- Aux.keeps _ (World.request _ _) => apply keeps_request; intros ? ?
  | |- Aux.keeps _ (if ?b then _ else _) => destruct b
  | |- Aux.keeps _ (match ?x with _ => _ end) => destruct x
  end.

(** The frames used below are preorders. *)

Section FrameOrders.
Import Runtime DropboxState AppState World Aux.
Context {Remote Blob : Type}.

#[local] Abbreviation W := (World Remote Blob).

#[global] Instance logGrowsBy_preorder P : PreOrder (@logGrowsBy Remote Blob P).
Proof.
  split.
  - intros w. exists []. by rewrite app_nil_r.
  - intros w1 w2 w3 (l1 & H1 & HP1) (l2 & H2 & HP2).
    exists (l1 ++ l2)%list. rewrite H2, H1, app_assoc. split; [done|].
    by apply Forall_app.
Qed.

#[global] Instance sameSession_preorder : PreOrder (@sameSession Remote Blob).
Proof.
  split.
  - by intros w.
  - intros w1 w2 w3 (?&?&?) (?&?&?). repeat split; congruence.
Qed.

#[global] Instance sameApp_preorder : PreOrder (@sameApp Remote Blob).
Proof. split; [by intros w|]. intros w1 w2 w3 ? ?. unfold sameApp in *. congruence. Qed.

#[global] Instance sameLocal_preorder : PreOrder (@sameLocal Remote Blob).
Proof.
  split.
  - by intros w.
  - intros w1 w2 w3 (?&?&?&?) (?&?&?&?). repeat split; congruence.
Qed.

Lemma keeps_weaken (R R' : W → W → Prop) {A} (m : World.M A) :
  (∀ w w', R w w' → R' w w') → keeps R m → keeps R' m.
Proof. intros HR Hm w. apply HR, Hm. Qed.

Lemma sameLocal_sameSession (w w' : W) : sameLocal w w' → sameSession w w'.
Proof. intros (?&?&Happ&?). repeat split; try done. by rewrite Happ. Qed.

Lemma sameLocal_sameApp (w w' : W) : sameLocal w w' → sameApp w w'.
Proof. by intros (?&?&?&?). Qed.

Lemma logGrowsBy_requestsSince P (w w' : W) :
  logGrowsBy P w w' → Forall P (requestsSince w w').
Proof.
  intros (l & Hl & HP). unfold requestsSince. by rewrite Hl, drop_app_length.
Qed.

End FrameOrders.

(** The leaves of a frame proof: one update or one request. *)
Ltac frame_leaf :=
  simpl;
  lazymatch goal with
  | |- Aux.logGrowsBy _ _ _ =>
      first [ by (exists []; simpl; rewrite ?app_nil_r)
            | by (eexists [_]; simpl; split; [reflexivity|repeat constructor]) ]
  | |- Aux.sameSession _ _ => by repeat split
  | |- Aux.sameLocal _ _ => by repeat split
  | |- Aux.sameApp _ _ => reflexivity
  end.

Create HintDb frames.

Ltac frame :=
  repeat first [ keeps_step | solve [frame_leaf] | solve [eauto with frames] ].

(** ** The Dropbox adapter *)

Section AdapterFacts.
Import Types Js Runtime DropboxState World Dropbox Aux.
Context {Remote Blob : Type}.
Variable env : Env Remote Blob.

#[local] Abbreviation W := (World Remote Blob).

(** *** Frames of the file operations *)

Lemma checkFileExists_local f abs : keeps sameLocal (checkFileExists env f abs).
Proof. unfold checkFileExists, resolve. frame. Qed.

Lemma uploadFile_local {T} (json : Codec Blob T) data f abs :
  keeps sameLocal (uploadFile env json data f abs).
Proof. unfold uploadFile, resolve. frame. Qed.

Lemma downloadFile_local {T} (json : Codec Blob T) f abs :
  keeps sameLocal (downloadFile env json f abs).
Proof. unfold downloadFile, resolve. frame. Qed.

Lemma checkFileExists_readOnly f abs :
  keeps (logGrowsBy readOnly) (checkFileExists env f abs).
Proof. unfold checkFileExists, resolve. frame. Qed.

Lemma downloadFile_readOnly {T} (json : Codec Blob T) f abs :
  keeps (logGrowsBy readOnly) (downloadFile env json f abs).
Proof. unfold downloadFile, resolve. frame. Qed.

Lemma logout_readOnly : keeps (logGrowsBy readOnly) (logout env).
Proof. unfold logout. frame. Qed.

Lemma logout_app : keeps sameApp (logout env).
Proof. unfold logout. frame. Qed.

#[local] Hint Resolve checkFileExists_local uploadFile_local downloadFile_local
  checkFileExists_readOnly downloadFile_readOnly logout_readOnly logout_app
  : frames.

(** *** The existence check, by the answer to its request *)

Lemma checkFileExists_set_app f abs a (w : W) :
  checkFileExists env f abs (set_app a w)
  = ((checkFileExists env f abs w).1, set_app a (checkFileExists env f abs w).2).
Proof.
  unfold checkFileExists, resolve, request, tryCatch, bind, get, ret, throw.
  simpl. destruct (dbx (svc w)) as [client|]; [|reflexivity].
  destruct (filesGetMetadata _ _ _ _) as [[[]|e] rem]; simpl; [reflexivity|].
  destruct (saysPathNotFound e); reflexivity.
Qed.

Lemma checkFileExists_Threw f abs (w w1 : W) error :
  checkFileExists env f abs w = (Threw error, w1) →
  ∃ client rem,
    let path := if abs then f else getPath (svc w) f in
    dbx (svc w) = Some client
    ∧ filesGetMetadata (sdk env) client path (remote w) = (Threw error, rem)
    ∧ saysPathNotFound error = false
    ∧ w1 = set_remote rem (add_call (FilesGetMetadata path) w).
Proof.
  unfold checkFileExists, resolve, request, tryCatch, bind, get, ret, throw.
  simpl. destruct (dbx (svc w)) as [client|]; [|done].
  destruct (filesGetMetadata _ _ _ _) as [[[]|e] rem] eqn:Hmeta; simpl; [done|].
  destruct (saysPathNotFound e) eqn:Hnf; [done|].
  intros [= -> <-]. by exists client, rem.
Qed.

Lemma checkFileExists_false f abs (w w1 : W) :
  checkFileExists env f abs w = (Returned false, w1) →
  (dbx (svc w) = None ∧ w1 = w)
  ∨ ∃ client error rem,
      let path := if abs then f else getPath (svc w) f in
      dbx (svc w) = Some client
      ∧ filesGetMetadata (sdk env) client path (remote w) = (Threw error, rem)
      ∧ saysPathNotFound error = true
      ∧ w1 = set_remote rem (add_call (FilesGetMetadata path) w).
Proof.
  unfold checkFileExists, resolve, request, tryCatch, bind, get, ret, throw.
  simpl. destruct (dbx (svc w)) as [client|]; [|intros [= <-]; by left].
  destruct (filesGetMetadata _ _ _ _) as [[[]|e] rem] eqn:Hmeta; simpl; [done|].
  destruct (saysPathNotFound e) eqn:Hnf; [|done].
  intros [= <-]. right. by exists client, e, rem.
Qed.

(** C10. An adapter without a client object answers [false] to every
    existence check, without any request and without raising, while an
    upload or a download in the same state throws "Not authenticated". *)
Theorem unauthenticated_adapter (w : W) (filename : string) (isAbsolute : bool)
    (Hnull : dbx (svc w) = None) :
  checkFileExists env filename isAbsolute w = (Returned false, w)
  ∧ (∀ T (json : Codec Blob T) (data : T),
       uploadFile env json data filename isAbsolute w
       = (Threw (Error "Not authenticated"), w))
  ∧ (∀ T (json : Codec Blob T),
       downloadFile env json filename isAbsolute w
       = (Threw (Error "Not authenticated"), w)).
Proof.
  unfold checkFileExists, uploadFile, downloadFile, bind, get, ret, throw.
  rewrite Hnull. done.
Qed.

(** *** The profile registry *)

Lemma getProfiles_returns (w : W) :
  ∃ l w', getProfiles env w = (Returned l, w').
Proof.
  unfold getProfiles, bind, get, tryCatch, ret.
  destruct (dbx (svc w)); [|by eauto].
  destruct (downloadFile env (registryJson env) "/profiles.json" true w)
    as [[data|e] w']; eauto.
Qed.

Lemma getProfiles_local : keeps sameLocal (getProfiles env).
Proof. unfold getProfiles. frame. Qed.

Lemma getProfiles_readOnly : keeps (logGrowsBy readOnly) (getProfiles env).
Proof. unfold getProfiles. frame. Qed.

(** C2 (what the code does). When the download of [/profiles.json] fails,
    for whatever reason (the connection is down, the token was rejected),
    [getProfiles] does not raise: the [catch] answers with the fallback
    registry of [Default] alone. *)
Theorem getProfiles_download_fails (w : W) client error rem
    (Hdbx : dbx (svc w) = Some client)
    (Hdown : filesDownload (sdk env) client "/profiles.json" (remote w)
             = (Threw error, rem)) :
  getProfiles env w
  = (Returned ["Default"],
     set_remote rem (add_call (FilesDownload "/profiles.json") w)).
Proof.
  unfold getProfiles, downloadFile, resolve, request, tryCatch, bind, get,
    ret, throw.
  rewrite Hdbx. cbn. rewrite Hdbx. cbn. rewrite Hdown.
  destruct (includes (stringified error) "path_not_found"); reflexivity.
Qed.

(** C3 (as amended). On an authenticated adapter, for [oldName] other
    than [Default] and [newName] not in the list that [getProfiles] answers:
    the registry with [oldName] replaced is uploaded first.  If that upload
    fails, its error is raised and no move is requested.  Otherwise the
    folder move is requested next and, whatever the answer to it (success,
    source not found, or any other failure), [renameProfile] returns
    normally, after switching the current profile to [newName] if it was
    [oldName]. *)
Theorem renameProfile_registry_then_move (w w1 : W) client oldName newName
    (profiles : list string)
    (Hdbx : dbx (svc w) = Some client)
    (Hold : oldName ≠ "Default")
    (Hlist : getProfiles env w = (Returned profiles, w1))
    (Hnew : includesName profiles newName = false) :
  let newProfiles :=
    map (fun p => if String.eqb p oldName then newName else p) profiles in
  let registry :=
    stringify (registryJson env) {| Runtime.profiles := Some newProfiles |} in
  let oldPath := "/profiles/" ++ oldName in
  let newPath := "/profiles/" ++ newName in
  let uploaded := filesUpload (sdk env) client "/profiles.json" registry (remote w1) in
  let w2 := set_remote uploaded.2 (add_call (FilesUpload "/profiles.json" registry) w1) in
  match uploaded.1 with
  | Threw error => renameProfile env oldName newName w = (Threw error, w2)
  | Returned _ =>
      let moved := filesMoveV2 (sdk env) client oldPath newPath (remote w2) in
      let w3 := set_remote moved.2 (add_call (FilesMoveV2 oldPath newPath) w2) in
      renameProfile env oldName newName w
      = (Returned tt,
         if String.eqb (currentProfile (svc w)) oldName
         then set_svc (set_currentProfile newName (svc w3)) w3
         else w3)
  end.
Proof.
  intros newProfiles registry oldPath newPath uploaded w2.
  pose proof (getProfiles_local w) as (Hsvc & _). rewrite Hlist in Hsvc.
  simpl in Hsvc.
  apply String.eqb_neq in Hold.
  unfold renameProfile, uploadFile, resolve, request, tryCatch, bind, get,
    ret, throw, modify.
  rewrite Hdbx. simpl. rewrite Hold, Hlist, Hnew, Hsvc, Hdbx.
  fold newProfiles registry oldPath newPath. fold uploaded.
  destruct uploaded as [[[]|error] rem] eqn:Hup; simpl; [|reflexivity].
  rewrite Hsvc, Hdbx. subst w2. simpl.
  destruct (filesMoveV2 _ _ _ _ _) as [[[]|error] rem'] eqn:Hmove; simpl;
    rewrite ?Hsvc; destruct (String.eqb (currentProfile (svc w)) oldName);
    simpl; by rewrite ?Hsvc.
Qed.

End AdapterFacts.

#[export] Hint Resolve checkFileExists_local uploadFile_local downloadFile_local
  checkFileExists_readOnly downloadFile_readOnly logout_readOnly logout_app
  getProfiles_local getProfiles_readOnly : frames.

(** ** The App component: loading *)

Section LoadFacts.
Import Types Js Runtime DropboxState AppState World Dropbox App Aux.
Context {Remote Blob : Type}.
Variable env : Env Remote Blob.

#[local] Abbreviation W := (World Remote Blob).

Lemma handleLogout_readOnly : keeps (logGrowsBy readOnly) (handleLogout env).
Proof.
  unfold handleLogout, setIsAuthenticated, setTransactions, onApp. frame.
Qed.

#[local] Hint Resolve handleLogout_readOnly : frames.

Lemma onLoadFailed_readOnly error :
  keeps (logGrowsBy readOnly) (onLoadFailed env error).
Proof. unfold onLoadFailed. frame. Qed.

Lemma loadTransactions_true_readOnly :
  keeps (logGrowsBy readOnly) (loadTransactions env true).
Proof.
  unfold loadTransactions, setTransactions, updateSuggestions, onApp. frame.
Qed.

Lemma loadSettingsOrDefaults_readOnly :
  keeps (logGrowsBy readOnly) (loadSettingsOrDefaults env).
Proof.
  unfold loadSettingsOrDefaults, loadSettings, setSettings, onApp. frame.
Qed.

#[local] Hint Resolve onLoadFailed_readOnly loadTransactions_true_readOnly
  loadSettingsOrDefaults_readOnly : frames.

(** [loadDataAndSettings], split at the answer of the existence check. *)
Lemma loadDataAndSettings_run (w : W) :
  let w0 := set_app (with_isLoading true (app w)) w in
  let finish (x : Outcome unit * W) :=
    let '(r, w') := x in (r, set_app (with_isLoading false (app w')) w') in
  loadDataAndSettings env w =
  match checkFileExists env "bookkeeping_data.json" false w0 with
  | (Returned b, w1) =>
      finish (tryCatch (loadTransactions env b ;; loadSettingsOrDefaults env)
                       (onLoadFailed env) w1)
  | (Threw e, w1) =>
      finish (tryCatch
                (checked <- onCheckFailed env e ;;
                 match checked with
                 | None => ret tt
                 | Some b => loadTransactions env b ;; loadSettingsOrDefaults env
                 end)
                (onLoadFailed env) w1)
  end.
Proof.
  intros w0 finish.
  unfold loadDataAndSettings, tryFinally, tryCatch, bind, setIsLoading, onApp,
    modify, ret.
  fold w0. destruct (checkFileExists env _ _ w0) as [[b|e] w1]; reflexivity.
Qed.

Lemma loadDataAndSettings_check_throws (w w1 : W) error :
  checkFileExists env "bookkeeping_data.json" false w = (Threw error, w1) →
  let path := getPath (svc w) "bookkeeping_data.json" in
  let w' := (loadDataAndSettings env w).2 in
  (loadDataAndSettings env w).1 = Returned tt
  ∧ requestsSince w w'
    = FilesGetMetadata path
      :: (if statusUnauthorized error && confirm env ConfirmLogout
          then [AuthTokenRevoke] else [])
  ∧ (statusUnauthorized error = false →
       transactions (app w') = transactions (app w)
       ∧ sameSession w w'
       ∧ ui w' = (ui w ++ [Alert AlertCannotCheckFile])%list)
  ∧ (statusUnauthorized error = true → confirm env ConfirmLogout = false →
       transactions (app w') = transactions (app w)
       ∧ sameSession w w'
       ∧ ui w' = (ui w ++ [Alert AlertAuthExpired])%list)
  ∧ (statusUnauthorized error = true → confirm env ConfirmLogout = true →
       transactions (app w') = []
       ∧ dbx (svc w') = None
       ∧ localStorage w' !! "dropbox_token" = None
       ∧ AppState.isAuthenticated (app w') = false
       ∧ ui w'
         = (ui w ++ Alert AlertAuthExpired
              :: (if confirm env ConfirmOpenDropboxLogout
                  then [WindowOpen "https://www.dropbox.com/logout"]
                  else []))%list).
Proof.
  intros Hcheck path w'. subst w'.
  destruct (checkFileExists_Threw env _ _ _ _ _ Hcheck)
    as (client & rem & Hdbx & Hmeta & Hnf & ->).
  rewrite loadDataAndSettings_run, checkFileExists_set_app, Hcheck.
  cbn [fst snd].
  unfold requestsSince, sameSession.
  unfold onCheckFailed, tryCatch, bind, alert, modify, detached, ret,
    setIsLoading, onApp.
  destruct (statusUnauthorized error); simpl.
  - unfold handleLogout, logout, setIsAuthenticated, setTransactions, onApp,
      request, tryCatch, bind, get, modify, ret.
    destruct (confirm env ConfirmLogout); simpl.
    + rewrite Hdbx. simpl.
      destruct (authTokenRevoke (sdk env) client rem) as [[[]|e'] rem'];
        destruct (confirm env ConfirmOpenDropboxLogout); simpl;
        rewrite <- ?app_assoc, drop_app_length;
        repeat split; try done; apply lookup_delete_ne, lookup_delete_eq ||
                                 (rewrite lookup_delete_ne by done;
                                  apply lookup_delete_eq).
    + rewrite drop_app_length. repeat split; done.
  - rewrite drop_app_length. repeat split; done.
Qed.

Lemma loadDataAndSettings_upload_only_if_absent (w : W) path contents :
  FilesUpload path contents ∈ requestsSince w (loadDataAndSettings env w).2 →
  ∃ client error rem,
    dbx (svc w) = Some client
    ∧ filesGetMetadata (sdk env) client
        (getPath (svc w) "bookkeeping_data.json") (remote w) = (Threw error, rem)
    ∧ saysPathNotFound error = true.
Proof.
  destruct (checkFileExists env "bookkeeping_data.json" false w)
    as [[[|]|error] w1] eqn:Hcheck.
  - (* the file exists: downloads only *)
    intros Hin. exfalso.
    pose proof (checkFileExists_readOnly env "bookkeeping_data.json" false w)
      as Hprobe.
    rewrite Hcheck in Hprobe. simpl in Hprobe.
    revert Hin.
    rewrite loadDataAndSettings_run, checkFileExists_set_app, Hcheck.
    cbn [fst snd].
    set (w0 := set_app _ w1).
    assert (keeps (logGrowsBy readOnly)
              (tryCatch (loadTransactions env true ;; loadSettingsOrDefaults env)
                        (onLoadFailed env))) as Hrest by frame.
    specialize (Hrest w0).
    destruct (tryCatch _ _ w0) as [r w2]. simpl in *. intros Hin.
    assert (logGrowsBy readOnly w w2) as Hall.
    { etrans; [exact Hprobe|]. exact Hrest. }
    apply logGrowsBy_requestsSince in Hall.
    rewrite Forall_forall in Hall. exact (Hall _ Hin).
  - (* answered false *)
    apply checkFileExists_false in Hcheck as Hcases.
    destruct Hcases as [[Hnull ->]|(client & error & rem & Hdbx & Hmeta & Hnf & _)].
    + intros Hin. exfalso. revert Hin.
      rewrite loadDataAndSettings_run, checkFileExists_set_app, Hcheck.
      cbn [fst snd].
      unfold loadTransactions, uploadFile, onLoadFailed, tryCatch, bind, get,
        throw, alert, modify. simpl. rewrite Hnull. simpl.
      unfold requestsSince. simpl. rewrite drop_all. apply not_elem_of_nil.
    + intros _. by exists client, error, rem.
  - (* undetermined *)
    destruct (loadDataAndSettings_check_throws w w1 error Hcheck)
      as (_ & Hreq & _).
    rewrite Hreq. intros Hin. exfalso.
    apply elem_of_cons in Hin as [?|Hin]; [done|].
    destruct (_ && _); [|by apply not_elem_of_nil in Hin].
    apply elem_of_cons in Hin as [?|Hin]; [done|].
    by apply not_elem_of_nil in Hin.
Qed.

(** C1 (as amended). When the existence check on the transactions file
    fails undetermined, [loadDataAndSettings] makes no request that writes:
    besides the metadata probe there is at most the revocation of the token.
    It does not raise to its caller: it returns normally, the failure being
    reported by an alert.  If the status of the error is neither 401 nor 400,
    the transactions and the session are left as they were.  If it is 401 or
    400, the logout is offered: declined, transactions and session are left
    as they were; confirmed, the session is cleared and the transactions are
    emptied.  In every run, an upload is requested by the load only after the
    metadata probe was answered by an error that says the path is not found. *)
Theorem loadDataAndSettings_protects_remote :
  (∀ (w w1 : W) error,
     checkFileExists env "bookkeeping_data.json" false w = (Threw error, w1) →
     let path := getPath (svc w) "bookkeeping_data.json" in
     let w' := (loadDataAndSettings env w).2 in
     (loadDataAndSettings env w).1 = Returned tt
     ∧ requestsSince w w'
       = FilesGetMetadata path
         :: (if statusUnauthorized error && confirm env ConfirmLogout
             then [AuthTokenRevoke] else [])
     ∧ (statusUnauthorized error = false →
          transactions (app w') = transactions (app w)
          ∧ sameSession w w'
          ∧ ui w' = (ui w ++ [Alert AlertCannotCheckFile])%list)
     ∧ (statusUnauthorized error = true → confirm env ConfirmLogout = false →
          transactions (app w') = transactions (app w)
          ∧ sameSession w w'
          ∧ ui w' = (ui w ++ [Alert AlertAuthExpired])%list)
     ∧ (statusUnauthorized error = true → confirm env ConfirmLogout = true →
          transactions (app w') = []
          ∧ dbx (svc w') = None
          ∧ localStorage w' !! "dropbox_token" = None
          ∧ AppState.isAuthenticated (app w') = false
          ∧ ui w'
            = (ui w ++ Alert AlertAuthExpired
                 :: (if confirm env ConfirmOpenDropboxLogout
                     then [WindowOpen "https://www.dropbox.com/logout"]
                     else []))%list))
  ∧ (∀ (w : W) path contents,
       FilesUpload path contents ∈ requestsSince w (loadDataAndSettings env w).2 →
       ∃ client error rem,
         dbx (svc w) = Some client
         ∧ filesGetMetadata (sdk env) client
             (getPath (svc w) "bookkeeping_data.json") (remote w)
           = (Threw error, rem)
         ∧ saysPathNotFound error = true).
Proof.
  split.
  - apply loadDataAndSettings_check_throws.
  - apply loadDataAndSettings_upload_only_if_absent.
Qed.

End LoadFacts.

(** ** The App component: mutations and their persistence *)

Section HandlerFacts.
Import Types Js Runtime DropboxState AppState World Dropbox App Aux LedgerSpec.
Context {Remote Blob : Type}.
Variable env : Env Remote Blob.

#[local] Abbreviation W := (World Remote Blob).

(** Unfolds a handler down to the request it makes. *)
Ltac run_handler :=
  unfold handleAddTransaction, handleDeleteTransaction, handleEditTransaction,
    handleSaveSettings, saveSettings, uploadFile, resolve, request,
    setTransactions, setEditingTransaction, setSettings, updateSuggestions,
    onApp, alert, tryCatch, bind, get, modify, ret, throw.

Ltac split_upload :=
  repeat match goal with
    | |- context [match dbx ?s with _ => _ end] => destruct (dbx s)
    | |- context [filesUpload ?a ?b ?c ?d ?e] =>
        destruct (filesUpload a b c d e) as [[[]|?] ?]
    end.

Lemma replace_by_id_spec (t0 : Transaction) (l : list Transaction) :
  map (fun t => if String.eqb (id t) (id t0) then t0 else t) l
  = applyMutation l (Update t0 t0).
Proof.
  simpl. apply map_ext. intros t.
  destruct (String.eqb_spec (id t) (id t0)), (decide (id t = id t0));
    congruence.
Qed.

Lemma handleAddTransaction_create (w : W) ts :
  editingTransaction (app w) = None →
  (handleAddTransaction env ts w).1 = Returned tt
  ∧ transactions (app (handleAddTransaction env ts w).2)
    = (transactions (app w) ++ ts)%list
  ∧ editingTransaction (app (handleAddTransaction env ts w).2) = None.
Proof.
  intros Hidle. run_handler. rewrite Hidle. simpl. split_upload; simpl; done.
Qed.

Lemma handleAddTransaction_update (w : W) original edited :
  editingTransaction (app w) = Some original →
  (handleAddTransaction env [edited] w).1 = Returned tt
  ∧ transactions (app (handleAddTransaction env [edited] w).2)
    = applyMutation (transactions (app w)) (Update original edited)
  ∧ editingTransaction (app (handleAddTransaction env [edited] w).2) = None.
Proof.
  intros Hedit. run_handler. rewrite Hedit. simpl.
  pose proof (replace_by_id_spec edited (transactions (app w))) as Hmap.
  simpl in Hmap. split_upload; simpl; rewrite ?Hmap; done.
Qed.

Lemma handleDeleteTransaction_confirmed (w : W) i :
  confirm env ConfirmDeleteRecord = true →
  (handleDeleteTransaction env i w).1 = Returned tt
  ∧ transactions (app (handleDeleteTransaction env i w).2)
    = applyMutation (transactions (app w)) (Remove i)
  ∧ editingTransaction (app (handleDeleteTransaction env i w).2)
    = editingTransaction (app w).
Proof.
  intros Hyes. run_handler. rewrite Hyes. simpl. split_upload; simpl; done.
Qed.

Lemma perform_spec (w : W) m :
  confirm env ConfirmDeleteRecord = true →
  editingTransaction (app w) = None →
  (perform env m w).1 = Returned tt
  ∧ transactions (app (perform env m w).2) = applyMutation (transactions (app w)) m
  ∧ editingTransaction (app (perform env m w).2) = None.
Proof.
  intros Hyes Hidle. destruct m as [ts|original edited|i]; simpl.
  - by apply handleAddTransaction_create.
  - unfold bind at 1. unfold handleEditTransaction at 1 2 3.
    unfold setEditingTransaction, onApp, bind, modify. simpl.
    exact (handleAddTransaction_update
             (add_ui ScrollToTop
                (set_app (with_editingTransaction (Some original) (app w)) w))
             original edited eq_refl).
  - rewrite <- Hidle. by apply handleDeleteTransaction_confirmed.
Qed.

(** C4. Starting with no edit in progress and with a user who confirms
    deletions, carrying out any sequence of add, update and delete mutations
    through the handlers leaves as in-memory collection the fold of the pure
    meaning of the mutations over the initial collection (append, replace by
    id, filter by id), whatever the remote store answers to the uploads:
    every handler returns normally and a failed upload undoes nothing. *)
Theorem performAll_fold (ms : list Mutation) (w : W)
    (Hyes : confirm env ConfirmDeleteRecord = true)
    (Hidle : editingTransaction (app w) = None) :
  (performAll env ms w).1 = Returned tt
  ∧ transactions (app (performAll env ms w).2)
    = foldl applyMutation (transactions (app w)) ms.
Proof.
  revert w Hidle. induction ms as [|m ms IH]; intros w Hidle; simpl.
  - done.
  - destruct (perform_spec w m Hyes Hidle) as (Hret & Htx & Hidle').
    unfold bind. destruct (perform env m w) as [r w1]. simpl in *. subst r.
    rewrite <- Htx. by apply IH.
Qed.

(** *** Persistence failures *)

Lemma uploadsOrAlerts_session {T} (json : Codec Blob T) data f failure
    (w0 : W) out :
  uploadsOrAlerts env json data f failure w0 out →
  out.1 = Returned tt ∧ sameSession w0 out.2 ∧ app out.2 = app w0.
Proof.
  unfold uploadsOrAlerts.
  pose proof (uploadFile_local env json data f false w0) as (Hs & Hl & Ha & _).
  destruct (uploadFile env json data f false w0) as [[[]|e] w1];
    simpl in *; intros ->; simpl; unfold sameSession; simpl;
    by rewrite Hs, Hl, Ha.
Qed.

Lemma handleAddTransaction_persists (w : W) ts :
  ∃ w0 : W,
    sameSession w w0 ∧ remote w0 = remote w
    ∧ uploadsOrAlerts env (transactionsJson env) (transactions (app w0))
        "bookkeeping_data.json" (fun e => AlertSaveFailed (errorText e))
        w0 (handleAddTransaction env ts w).
Proof.
  unfold handleAddTransaction.
  destruct (editingTransaction (app w)) as [e|] eqn:Hedit.
  - destruct ts as [|t0 [|t1 ts]].
    + exists ((setTransactions (transactions (app w) ++ [])%list ;;
               updateSuggestions (transactions (app w) ++ [])%list)%js w).2.
      repeat split. unfold uploadsOrAlerts, bind, get, tryCatch. simpl.
      rewrite Hedit. simpl.
      by destruct (uploadFile _ _ _ _ _ _) as [[[]|?] ?].
    + set (updated := map (fun t => if String.eqb (id t) (id t0) then t0 else t)
                          (transactions (app w))).
      exists ((setEditingTransaction None ;; alert AlertEditDone ;;
               setTransactions updated ;; updateSuggestions updated)%js w).2.
      repeat split. unfold uploadsOrAlerts, bind, get, tryCatch. simpl.
      rewrite Hedit. simpl. fold updated.
      by destruct (uploadFile _ _ _ _ _ _) as [[[]|?] ?].
    + set (updated := (transactions (app w) ++ t0 :: t1 :: ts)%list).
      exists ((setTransactions updated ;; updateSuggestions updated)%js w).2.
      repeat split. unfold uploadsOrAlerts, bind, get, tryCatch. simpl.
      rewrite Hedit. simpl. fold updated.
      by destruct (uploadFile _ _ _ _ _ _) as [[[]|?] ?].
  - set (updated := (transactions (app w) ++ ts)%list).
    exists ((setTransactions updated ;; updateSuggestions updated)%js w).2.
    repeat split. unfold uploadsOrAlerts, bind, get, tryCatch. simpl.
    rewrite Hedit. simpl. fold updated.
    by destruct (uploadFile _ _ _ _ _ _) as [[[]|?] ?].
Qed.

Lemma handleDeleteTransaction_persists (w : W) i :
  confirm env ConfirmDeleteRecord = true →
  let updated := filter (fun t => id t ≠ i) (transactions (app w)) in
  uploadsOrAlerts env (transactionsJson env) updated "bookkeeping_data.json"
    (fun _ => AlertDeleteFailed)
    (set_app (with_transactions updated (app w)) w)
    (handleDeleteTransaction env i w).
Proof.
  intros Hyes updated.
  unfold uploadsOrAlerts, handleDeleteTransaction, bind, get, tryCatch.
  rewrite Hyes. simpl. fold updated.
  by destruct (uploadFile _ _ _ _ _ _) as [[[]|?] ?].
Qed.

Lemma handleSaveSettings_persists (w : W) newSettings :
  uploadsOrAlerts env (settingsJson env) newSettings "settings.json"
    (fun _ => AlertSettingsSaveFailed)
    (set_app (with_settings newSettings (app w)) w)
    (handleSaveSettings env newSettings w).
Proof.
  unfold uploadsOrAlerts, handleSaveSettings, saveSettings, bind, tryCatch.
  simpl. by destruct (uploadFile _ _ _ _ _ _) as [[[]|?] ?].
Qed.

(** C7 (as amended). Every persisting handler (add or update, delete, save
    settings) first updates the in-memory state, then uploads it, and turns
    any failure of the upload, whether the token was rejected or the
    connection was down, into its sync-failure alert: it returns normally,
    keeps the updated in-memory state, and leaves the session (the adapter
    with its client object, the stored tokens, the signed-in flag) exactly as
    it was.  No failure of a persistence call signs the user out. *)
Theorem persistence_failure_keeps_session (w : W) :
  (∀ ts, ∃ w0 : W,
      sameSession w w0 ∧ remote w0 = remote w
      ∧ uploadsOrAlerts env (transactionsJson env) (transactions (app w0))
          "bookkeeping_data.json" (fun e => AlertSaveFailed (errorText e))
          w0 (handleAddTransaction env ts w)
      ∧ (handleAddTransaction env ts w).1 = Returned tt
      ∧ sameSession w (handleAddTransaction env ts w).2
      ∧ app (handleAddTransaction env ts w).2 = app w0)
  ∧ (∀ i, confirm env ConfirmDeleteRecord = true →
      let updated := filter (fun t => id t ≠ i) (transactions (app w)) in
      uploadsOrAlerts env (transactionsJson env) updated "bookkeeping_data.json"
        (fun _ => AlertDeleteFailed)
        (set_app (with_transactions updated (app w)) w)
        (handleDeleteTransaction env i w)
      ∧ (handleDeleteTransaction env i w).1 = Returned tt
      ∧ sameSession w (handleDeleteTransaction env i w).2
      ∧ transactions (app (handleDeleteTransaction env i w).2) = updated)
  ∧ (∀ newSettings,
      uploadsOrAlerts env (settingsJson env) newSettings "settings.json"
        (fun _ => AlertSettingsSaveFailed)
        (set_app (with_settings newSettings (app w)) w)
        (handleSaveSettings env newSettings w)
      ∧ (handleSaveSettings env newSettings w).1 = Returned tt
      ∧ sameSession w (handleSaveSettings env newSettings w).2
      ∧ settings (app (handleSaveSettings env newSettings w).2) = newSettings).
Proof.
  split; [|split].
  - intros ts.
    destruct (handleAddTransaction_persists w ts) as (w0 & Hs & Hr & Hup).
    destruct (uploadsOrAlerts_session _ _ _ _ _ _ Hup) as (Hret & Hs' & Happ).
    exists w0. repeat split; try done; try apply Hs.
    all: destruct Hs as (H1 & H2 & H3), Hs' as (H1' & H2' & H3'); congruence.
  - intros i Hyes updated.
    pose proof (handleDeleteTransaction_persists w i Hyes) as Hup.
    destruct (uploadsOrAlerts_session _ _ _ _ _ _ Hup) as (Hret & Hs' & Happ).
    split; [exact Hup|]. split; [exact Hret|]. split.
    + destruct Hs' as (H1 & H2 & H3). by repeat split.
    + by rewrite Happ.
  - intros newSettings.
    pose proof (handleSaveSettings_persists w newSettings) as Hup.
    destruct (uploadsOrAlerts_session _ _ _ _ _ _ Hup) as (Hret & Hs' & Happ).
    split; [exact Hup|]. split; [exact Hret|]. split.
    + destruct Hs' as (H1 & H2 & H3). by repeat split.
    + by rewrite Happ.
Qed.

End HandlerFacts.

(** ** Concrete runs against the scripted Dropbox *)

Section Runs.
Import Types Runtime DropboxState AppState World Aux LedgerSpec Scenario.

Lemma unauthenticated_adapter_witness :
  let w := signedOut [lunch] [] in
  dbx (svc w) = None
  ∧ Dropbox.checkFileExists (scriptedEnv true) "bookkeeping_data.json" false w
    = (Returned false, w)
  ∧ Dropbox.uploadFile (scriptedEnv true) transactionsDoc [] "bookkeeping_data.json"
      false w
    = (Threw (Error "Not authenticated"), w).
Proof.
  intros w. split; [reflexivity|].
  destruct (unauthenticated_adapter (scriptedEnv true) w
              "bookkeeping_data.json" false eq_refl) as (Hcheck & Hup & _).
  split; [exact Hcheck|apply Hup].
Defined.

Lemma getProfiles_download_fails_witness :
  let w := signedIn "Default" [] [Fails offline] in
  dbx (svc w) = Some client0
  ∧ filesDownload scripted client0 "/profiles.json" (remote w) = (Threw offline, [])
  ∧ Dropbox.saysPathNotFound offline = false
  ∧ Dropbox.getProfiles (scriptedEnv true) w
    = (Returned ["Default"],
       set_remote [] (add_call (FilesDownload "/profiles.json") w)).
Proof.
  intros w. do 3 (split; [reflexivity|]).
  exact (getProfiles_download_fails (scriptedEnv true) w client0 offline []
           eq_refl eq_refl).
Defined.

(** The hazard behind the fallback: with the registry unreadable for a
    moment, [addProfile] takes the known profiles to be [Default] alone and
    uploads a registry that has forgotten every other profile. *)
Example addProfile_overwrites_after_failed_read :
  let w := signedIn "Default" [] [Fails offline; Done] in
  calls (Dropbox.addProfile (scriptedEnv true) "Work" w).2
  = [FilesDownload "/profiles.json";
     FilesUpload "/profiles.json"
       (RegistryDoc {| Runtime.profiles := Some ["Default"; "Work"] |})].
Proof. reflexivity. Qed.

(** C3, as stated, fails: the registry is read and rewritten, then the move
    is refused with an error that is not "not found" (too many write
    operations), and [renameProfile] still returns normally: the failure of
    the move is not surfaced. *)
Lemma renameProfile_hides_refused_move :
  let env := scriptedEnv true in
  let w := signedIn "Work" [] [registryWithWork; Done; Fails tooManyWrites] in
  let out := Dropbox.renameProfile env "Work" "Office" w in
  Dropbox.saysPathNotFound tooManyWrites = false
  ∧ calls out.2
    = [FilesDownload "/profiles.json";
       FilesUpload "/profiles.json"
         (RegistryDoc {| Runtime.profiles := Some ["Default"; "Office"] |});
       FilesMoveV2 "/profiles/Work" "/profiles/Office"]
  ∧ filesMoveV2 scripted client0 "/profiles/Work" "/profiles/Office"
      [Fails tooManyWrites] = (Threw tooManyWrites, [])
  ∧ out.1 = Returned tt
  ∧ out.1 ≠ Threw tooManyWrites.
Proof.
  intros env w out. vm_compute. repeat split. discriminate.
Qed.

Lemma renameProfile_registry_then_move_witness :
  let env := scriptedEnv true in
  let w := signedIn "Work" [] [registryWithWork; Done; Fails pathNotFound] in
  dbx (svc w) = Some client0
  ∧ "Work" ≠ "Default"
  ∧ (Dropbox.getProfiles env w).1 = Returned ["Default"; "Work"]
  ∧ Dropbox.includesName ["Default"; "Work"] "Office" = false
  ∧ (Dropbox.renameProfile env "Work" "Office" w).1 = Returned tt
  ∧ DropboxState.currentProfile (svc (Dropbox.renameProfile env "Work" "Office" w).2)
    = "Office".
Proof.
  intros env w. do 4 (split; [done|]).
  pose proof (renameProfile_registry_then_move env w
                (Dropbox.getProfiles env w).2 client0 "Work" "Office"
                ["Default"; "Work"] eq_refl ltac:(done) eq_refl eq_refl) as H.
  cbv zeta in H. change (filesUpload (sdk env) client0 _ _ _).1
    with (@Returned unit tt) in H. cbv iota in H.
  rewrite H. split; reflexivity.
Defined.

(** C1, as stated, fails: the check is answered by a rejected token (status
    401), which is neither "present" nor "absent"; the load then signs the
    user out when they confirm, which empties the in-memory transactions,
    and it returns normally instead of raising the error. *)
Lemma loadDataAndSettings_401_resets_state :
  let env := scriptedEnv true in
  let w := signedIn "Default" [lunch] [Fails expiredToken] in
  let out := App.loadDataAndSettings env w in
  (Dropbox.checkFileExists env "bookkeeping_data.json" false w).1
  = Threw expiredToken
  ∧ transactions (app w) = [lunch]
  ∧ transactions (app out.2) = []
  ∧ out.1 = Returned tt
  ∧ ¬ (transactions (app out.2) = transactions (app w)
       ∧ out.1 = Threw expiredToken).
Proof.
  intros env w out. do 4 (split; [vm_compute; reflexivity|]).
  intros [H _]. vm_compute in H. discriminate.
Qed.

Lemma loadDataAndSettings_protects_remote_witness :
  let env := scriptedEnv true in
  let w := signedIn "Default" [lunch] [Fails offline] in
  let out := App.loadDataAndSettings env w in
  Dropbox.checkFileExists env "bookkeeping_data.json" false w
  = (Threw offline,
     set_remote [] (add_call (FilesGetMetadata "/bookkeeping_data.json") w))
  ∧ out.1 = Returned tt
  ∧ requestsSince w out.2 = [FilesGetMetadata "/bookkeeping_data.json"]
  ∧ transactions (app out.2) = [lunch].
Proof.
  intros env w out.
  assert (Dropbox.checkFileExists env "bookkeeping_data.json" false w
          = (Threw offline,
             set_remote [] (add_call (FilesGetMetadata "/bookkeeping_data.json") w)))
    as Hcheck by reflexivity.
  split; [exact Hcheck|].
  destruct (proj1 (loadDataAndSettings_protects_remote env) w _ offline Hcheck)
    as (Hret & Hreq & Hplain & _).
  split; [exact Hret|]. split; [exact Hreq|].
  destruct (Hplain eq_refl) as (Htx & _). exact Htx.
Defined.

Lemma performAll_fold_witness :
  let env := scriptedEnv true in
  let w := signedIn "Default" [salary] [Done; Fails offline; Fails expiredToken] in
  let ms := [Add [lunch]; Update lunch salary; Remove "t1"] in
  confirm env ConfirmDeleteRecord = true
  ∧ editingTransaction (app w) = None
  ∧ transactions (app (performAll env ms w).2)
    = foldl applyMutation [salary] ms.
Proof.
  intros env w ms. do 2 (split; [reflexivity|]).
  exact (proj2 (performAll_fold env ms w eq_refl eq_refl)).
Defined.

(** C7, as stated, fails: saving the settings is rejected with a 401
    ([invalid_access_token]), the kind of error on which the load signs the
    user out, and the handler only alerts: the client object, the stored
    token and the signed-in flag are still there. *)
Lemma handleSaveSettings_401_keeps_session :
  let env := scriptedEnv true in
  let w := signedIn "Default" [lunch] [Fails expiredToken] in
  let out := App.handleSaveSettings env App.DEFAULT_SETTINGS w in
  (Dropbox.saveSettings env App.DEFAULT_SETTINGS w).1 = Threw expiredToken
  ∧ App.unauthorizedOrBadToken expiredToken = true
  ∧ dbx (svc out.2) = Some client0
  ∧ localStorage out.2 !! "dropbox_token" = Some "token"
  ∧ isAuthenticated (app out.2) = true
  ∧ ui out.2 = [Alert AlertSettingsSaveFailed]
  ∧ ¬ (dbx (svc out.2) = None ∧ localStorage out.2 !! "dropbox_token" = None).
Proof.
  intros env w out. do 6 (split; [vm_compute; reflexivity|]).
  intros [H _]. vm_compute in H. discriminate.
Qed.

Lemma persistence_failure_keeps_session_witness :
  let env := scriptedEnv true in
  let w := signedIn "Default" [lunch] [Fails expiredToken] in
  confirm env ConfirmDeleteRecord = true
  ∧ (App.handleDeleteTransaction env "t1" w).1 = Returned tt
  ∧ sameSession w (App.handleDeleteTransaction env "t1" w).2
  ∧ transactions (app (App.handleDeleteTransaction env "t1" w).2) = [].
Proof.
  intros env w. split; [reflexivity|].
  destruct (persistence_failure_keeps_session env w) as (_ & Hdel & _).
  destruct (Hdel "t1" eq_refl) as (_ & Hret & Hsession & Htx).
  split; [exact Hret|]. split; [exact Hsession|]. exact Htx.
Defined.

End Runs.


(** * Further properties of the code *)

(** ** The dashboard: total assets, tracked accounts *)

Section DashboardMore.
Import Types Js JsNumber JsObject Dashboard LedgerSpec Ledger.
Import ExactLedger (represents, matches, exactRegime, magnitude, asNumbers).

(** X1. On whole numbers within the range that doubles hold exactly, and
    with account names that are not members of [Object.prototype], total
    assets are the initial balances of the listed accounts, each account
    counted once, plus what every transaction adds to the sum of the
    balances: an expense takes its amount away, an income adds it, and a
    transfer between two named accounts adds nothing. *)
Theorem totalAssets_accounting cm transactions accounts
    (initialBalances : option (gmap string Z))
    (Hexact : exactRegime (default ∅ initialBalances) accounts transactions) :
  totalAssets (computeStats cm transactions accounts (asNumbers initialBalances))
  = Num (ofZ (total (map (fun k => ExactLedger.orZero
                                     (default ∅ initialBalances !! k))
                         (remove_dups accounts))
              + total (map netChange transactions)))
  ∧ (∀ t, type t = Some TRANSFER → source t ≠ "" → destination t ≠ "" →
       netChange t = 0).
Proof.
  split.
  - destruct (computeStats_exact cm transactions accounts initialBalances Hexact)
      as (_ & Htotal & _).
    by rewrite Htotal, exact_totalAssets.
  - intros t Ht Hs Hd. unfold netChange. rewrite Ht.
    apply truthy_true in Hs, Hd. rewrite Hs, Hd. lia.
Qed.

Lemma totalAssets_accounting_witness :
  exactRegime {["Cash" := 100; "Bank" := 2000]} ["Cash"; "Bank"; "Cash"]
    [Scenario.salary; Samples.internalTransfer; Scenario.lunch]
  ∧ totalAssets (computeStats "2026-11"
                   [Scenario.salary; Samples.internalTransfer; Scenario.lunch]
                   ["Cash"; "Bank"; "Cash"]
                   (asNumbers (Some {["Cash" := 100; "Bank" := 2000]})))
    = Num 3070%float.
Proof.
  assert (exactRegime {["Cash" := 100; "Bank" := 2000]} ["Cash"; "Bank"; "Cash"]
            [Scenario.salary; Samples.internalTransfer; Scenario.lunch])
    as Hexact.
  { split; [by repeat constructor|]. split; [by repeat constructor|].
    vm_compute. reflexivity. }
  split; [exact Hexact|].
  destruct (totalAssets_accounting "2026-11"
              [Scenario.salary; Samples.internalTransfer; Scenario.lunch]
              ["Cash"; "Bank"; "Cash"]
              (Some {["Cash" := 100; "Bank" := 2000]}) Hexact) as [Htotal _].
  rewrite Htotal. vm_compute. reflexivity.
Defined.

Lemma guarded_set_tracked k v (o : Object) j :
  is_Some (own (if truthy k then set k v o else o) j)
  ↔ is_Some (own o j) ∨ (k = j ∧ j ≠ "" ∧ j ≠ "__proto__").
Proof.
  destruct (truthy k) eqn:Hk.
  - apply truthy_true in Hk. rewrite !own_is_Some, set_keys. split.
    + intros [?|[-> ?]]; [by left|by right].
    + intros [?|(-> & _ & ?)]; [by left|by right].
  - apply truthy_false in Hk. subst k. split; [by left|].
    intros [?|(<- & ? & _)]; done.
Qed.

Lemma step_own_tracked cm a t j :
  is_Some (own (acc_balances (step cm a t)) j)
  ↔ is_Some (own (acc_balances a) j)
    ∨ (j ≠ "" ∧ j ≠ "__proto__" ∧ books j t).
Proof.
  unfold step, books, debit, credit.
  destruct (type t) as [[]|]; cbn [acc_balances];
    rewrite ?guarded_set_tracked; tauto.
Qed.

Lemma foldl_step_own_tracked cm ts k :
  ∀ a, is_Some (own (acc_balances (foldl (step cm) a ts)) k)
       ↔ is_Some (own (acc_balances a) k)
         ∨ (k ≠ "" ∧ k ≠ "__proto__" ∧ ∃ t, t ∈ ts ∧ books k t).
Proof.
  induction ts as [|t ts IH]; intros a; simpl.
  - split; [by left|]. intros [?|(_ & _ & t & Hin & _)]; [done|].
    by apply not_elem_of_nil in Hin.
  - rewrite IH, step_own_tracked. split.
    + intros [[?|(? & ? & ?)]|(? & ? & t' & ? & ?)]; [by left|right..].
      * do 2 (split; [done|]). exists t. split; [left|done].
      * do 2 (split; [done|]). exists t'. split; [by right|done].
    + intros [?|(? & ? & t' & Hin & ?)]; [by left; left|].
      apply elem_of_cons in Hin as [->|Hin].
      * left. right. done.
      * right. do 2 (split; [done|]). by exists t'.
Qed.

Lemma initAccounts_own_tracked accounts initial k :
  ∀ b, is_Some (own (foldl (fun b acc => set acc (orZero (readProp initial acc)) b)
                           b accounts) k)
       ↔ is_Some (own b k) ∨ (k ∈ accounts ∧ k ≠ "__proto__").
Proof.
  induction accounts as [|x accounts IH]; intros b; cbn [foldl].
  - split; [by left|]. intros [?|[Hin _]]; [done|].
    by apply not_elem_of_nil in Hin.
  - rewrite IH, !own_is_Some, set_keys, elem_of_cons. split.
    + intros [[?|[-> ?]]|[? ?]]; [by left|right; split; [by left|done]|].
      right. split; [by right|done].
    + intros [?|[[->|?] ?]]; [by left; left|by left; right|by right].
Qed.

(** X2. A name has an entry of its own in [balances] exactly if it is not
    [__proto__], on which an assignment creates no entry, and it is a listed
    account or a non-empty name on which some transaction books: the source
    of an expense or transfer, the destination of an income or transfer. *)
Theorem balances_tracked cm transactions accounts initialBalances k :
  is_Some (own (balances (computeStats cm transactions accounts initialBalances)) k)
  ↔ k ≠ "__proto__"
    ∧ (k ∈ accounts ∨ (k ≠ "" ∧ ∃ t, t ∈ transactions ∧ books k t)).
Proof.
  unfold computeStats. cbn [balances].
  rewrite foldl_step_own_tracked. cbn [acc_balances].
  unfold initAccounts. rewrite initAccounts_own_tracked. simpl. split.
  - intros [[[? ?]|[? ?]]|(? & ? & ?)]; [done|split; [done|by left]|].
    split; [done|by right].
  - intros [? [?|[? ?]]]; [left; by right|by right].
Qed.

End DashboardMore.


(** ** The transaction list: month filter and export *)

Section ListFacts.
Import Types Js JsObject Dashboard LedgerSpec Ledger TransactionList.



Lemma total_map_filter {A} (p : A → bool) (g : A → Z) (l : list A) :
  total (map g (filter (fun x => p x) l))
  = total (map (fun x => if p x then g x else 0) l).
Proof.
  induction l as [|x l IH]; [done|].
  rewrite filter_cons.
  destruct (decide (p x)) as [H|H]; simpl; destruct (p x); try done;
    by rewrite IH.
Qed.












Lemma filter_all {A} (l : list A) : filter (fun _ : A => Is_true true) l = l.
Proof.
  induction l as [|x l IH]; [done|]. rewrite filter_cons, IH.
  by destruct (decide (Is_true true)).
Qed.

(** X4. The export writes exactly the rows that the table shows for the
    same filter, oldest first (the table shows them newest first), one CSV
    line per row; it refuses with an alert exactly if the table shows no
    row. *)
Theorem export_matches_rows (filterMonth : string) (transactions : list Transaction) :
  handleExportCSV filterMonth transactions
  = match rows filterMonth transactions with
    | [] => NothingToExport
    | _ :: _ => Exported (map csvRow (reverse (rows filterMonth transactions)))
    end.
Proof.
  unfold handleExportCSV, rows. rewrite reverse_involutive.
  assert ((if truthy filterMonth
           then filter (fun t => inMonth filterMonth t) transactions
           else transactions)
          = filter (fun t => negb (truthy filterMonth) || inMonth filterMonth t)
                   transactions) as ->.
  { destruct (truthy filterMonth); simpl; [reflexivity|].
    symmetry. apply filter_all. }
  destruct (filter _ transactions) as [|t l] eqn:Hl; [reflexivity|].
  rewrite reverse_cons. simpl.
  destruct (reverse l ++ [t])%list eqn:Hr; [|reflexivity].
  by apply app_nil in Hr as [_ ?].
Qed.

End ListFacts.

(** ** Suggestions and the options of a combobox *)

Section OptionFacts.
Import Types Js Runtime AppState World App.

Lemma existsb_eqb_elem_of (x : string) (l : list string) :
  existsb (String.eqb x) l = true ↔ x ∈ l.
Proof.
  rewrite existsb_exists. split.
  - intros (y & Hin & Heq). apply String.eqb_eq in Heq. subst y.
    by apply list_elem_of_In.
  - intros Hin. exists x. split; [by apply list_elem_of_In|apply String.eqb_refl].
Qed.

(** [distinct seen l] keeps, in order, the first occurrence of every
    element of [l] that is not in [seen]. *)
Lemma distinct_spec (l : list string) :
  ∀ seen,
    NoDup (distinct seen l)
    ∧ (∀ x, x ∈ distinct seen l ↔ x ∈ l ∧ x ∉ seen)
    ∧ sublist (distinct seen l) l.
Proof.
  induction l as [|y l IH]; intros seen; simpl.
  - split; [constructor|]. split; [|constructor].
    intros x. split; [by intros ?%not_elem_of_nil|by intros [?%not_elem_of_nil _]].
  - destruct (existsb (String.eqb y) seen) eqn:Hy.
    + apply existsb_eqb_elem_of in Hy.
      destruct (IH seen) as (Hnd & Hmem & Hsub).
      split; [done|]. split; [|by constructor].
      intros x. rewrite Hmem, elem_of_cons. split; [tauto|].
      intros [[->|?] ?]; [contradiction|tauto].
    + assert (y ∉ seen) as Hy'.
      { intros Hin. apply existsb_eqb_elem_of in Hin. congruence. }
      destruct (IH (y :: seen)) as (Hnd & Hmem & Hsub).
      split; [|split; [|by constructor]].
      * constructor; [|done]. rewrite Hmem, elem_of_cons. tauto.
      * intros x. rewrite !elem_of_cons, Hmem, elem_of_cons.
        destruct (decide (x = y)) as [->|Hne]; tauto.
Qed.

Lemma take_distinct_spec (n : nat) (l : list string) :
  NoDup (take n (distinct [] l))
  ∧ (length (take n (distinct [] l)) ≤ n)%nat
  ∧ (∀ x, x ∈ take n (distinct [] l) → x ∈ l)
  ∧ ((length (distinct [] l) ≤ n)%nat → ∀ x, x ∈ l → x ∈ take n (distinct [] l)).
Proof.
  destruct (distinct_spec l []) as (Hnd & Hmem & _).
  split; [by eapply sublist_NoDup; [|apply sublist_take]|].
  split; [rewrite length_take; lia|]. split.
  - intros x Hx. apply elem_of_take in Hx as (i & Hx & _).
    apply list_elem_of_lookup_2 in Hx. by apply Hmem in Hx as [? _].
  - intros Hlen x Hx. rewrite take_ge by done. apply Hmem. split; [done|].
    apply not_elem_of_nil.
Qed.

Section Suggestions.
Context {Remote Blob : Type}.

(** X5. After [updateSuggestions(data)] the recent sources hold no
    duplicate, are at most 10, and each of them is the source of a
    transaction of [data]; when [data] has at most 10 distinct sources, all
    of them are suggested.  The same holds of the recent destinations, and
    the transactions in memory are not touched. *)
Theorem updateSuggestions_recent (data : list Transaction) (w : World Remote Blob) :
  let w' := (updateSuggestions data w).2 in
  (updateSuggestions data w).1 = Returned tt
  ∧ NoDup (recentSources (app w')) ∧ NoDup (recentDestinations (app w'))
  ∧ (length (recentSources (app w')) ≤ 10)%nat
  ∧ (length (recentDestinations (app w')) ≤ 10)%nat
  ∧ (∀ s, s ∈ recentSources (app w') → ∃ t, t ∈ data ∧ source t = s)
  ∧ (∀ s, s ∈ recentDestinations (app w') → ∃ t, t ∈ data ∧ destination t = s)
  ∧ ((length (distinct [] (map source data)) ≤ 10)%nat →
       ∀ t, t ∈ data → source t ∈ recentSources (app w'))
  ∧ ((length (distinct [] (map destination data)) ≤ 10)%nat →
       ∀ t, t ∈ data → destination t ∈ recentDestinations (app w'))
  ∧ transactions (app w') = transactions (app w).
Proof.
  simpl.
  destruct (take_distinct_spec 10 (map source data)) as (Hs1 & Hs2 & Hs3 & Hs4).
  destruct (take_distinct_spec 10 (map destination data))
    as (Hd1 & Hd2 & Hd3 & Hd4).
  split; [done|]. do 4 (split; [done|]).
  split. { intros s Hin. apply Hs3, list_elem_of_fmap in Hin as (t & -> & ?); eauto. }
  split. { intros s Hin. apply Hd3, list_elem_of_fmap in Hin as (t & -> & ?); eauto. }
  split. { intros Hlen t Hin. apply Hs4; [done|]. apply list_elem_of_fmap; eauto. }
  split; [|done].
  intros Hlen t Hin. apply Hd4; [done|]. apply list_elem_of_fmap; eauto.
Qed.

End Suggestions.

Section ComboboxFacts.
Import Combobox.
Variable toLowerCase : string → string.

(** X6. The options a combobox offers hold no duplicate.  An option is
    offered exactly if it is among the options passed in and, when
    something has been typed, its lower-cased text contains the lower-cased
    input. *)
Theorem displayOptions_spec (value : string) (options : list string) :
  NoDup (displayOptions toLowerCase value options)
  ∧ ∀ opt, opt ∈ displayOptions toLowerCase value options
           ↔ opt ∈ options
             ∧ (value = "" ∨ includes (toLowerCase opt) (toLowerCase value) = true).
Proof.
  unfold displayOptions, filteredOptions, uniqueOptions.
  destruct (distinct_spec options []) as (Hnd & Hmem & _).
  destruct (truthy value) eqn:Hv.
  - apply truthy_true in Hv. split; [by apply NoDup_filter|].
    intros opt. rewrite list_elem_of_filter, Hmem, Is_true_true.
    split.
    + intros (? & ? & _). split; [done|by right].
    + intros (? & [?|?]); [contradiction|].
      split; [done|]. split; [done|apply not_elem_of_nil].
  - apply truthy_false in Hv. split; [done|].
    intros opt. rewrite Hmem. split.
    + intros (? & _). split; [done|by left].
    + intros (? & _). split; [done|apply not_elem_of_nil].
Qed.

End ComboboxFacts.

End OptionFacts.


(** ** The settings dialog: the other edits *)

Section SettingsMore.
Import Types Js SettingsDialog SettingsEdits.

Lemma elem_of_delete_other {A} (x : A) (l : list A) :
  ∀ i, x ∈ l → l !! i ≠ Some x → x ∈ delete i l.
Proof.
  induction l as [|y l IH]; intros i Hin Hi; [done|].
  destruct i as [|i]; simpl in *.
  - apply elem_of_cons in Hin as [->|Hin]; [congruence|done].
  - apply elem_of_cons in Hin as [->|Hin]; [left|right; by apply IH].
Qed.

Lemma delete_appended {A} (l : list A) (x : A) :
  delete (length l) (l ++ [x])%list = l.
Proof. induction l as [|y l IH]; simpl; [done|]. by rewrite IH. Qed.

Lemma delete_beyond {A} (l : list A) (i : nat) :
  (length l ≤ i)%nat → delete i l = l.
Proof.
  intros Hi. rewrite delete_take_drop, take_ge, drop_ge by lia.
  apply app_nil_r.
Qed.

(** X7. The edits of the dialog that touch the accounts keep the invariant
    that every account with an initial balance is a listed account: adding
    an account, deleting the account at any position (in range or not), and
    changing the initial balance of a listed account. *)
Theorem balancesListed_preserved (trim : string → string) (d : Dialog)
    (Hinv : balancesListed (localSettings d)) :
  balancesListed (localSettings (handleAddSource trim d))
  ∧ (∀ index, balancesListed (handleDeleteSource index (localSettings d)))
  ∧ (∀ account amount, account ∈ commonSources (localSettings d) →
       balancesListed (handleInitialBalanceChange account amount (localSettings d))).
Proof.
  unfold balancesListed in *. split; [|split].
  - unfold handleAddSource. destruct (truthy (trim (newSource d))); [|done].
    simpl. intros k. rewrite lookup_insert, elem_of_app, list_elem_of_singleton.
    destruct (decide (trim (newSource d) = k)); [by right|]. intros ?.
    left. by apply Hinv.
  - intros index k. unfold handleDeleteSource. simpl.
    rewrite filterIndex_ne. intros Hk. apply elem_of_delete_other.
    + apply Hinv. destruct (commonSources (localSettings d) !! index); simpl in Hk;
        rewrite lookup_delete in Hk; by destruct (decide _).
    + destruct (commonSources (localSettings d) !! index) as [name|]; [|done].
      simpl in Hk. intros [= ->]. rewrite lookup_delete_eq in Hk.
      by destruct Hk.
  - intros account amount Hacc k. simpl. rewrite lookup_insert.
    destruct (decide (account = k)) as [<-|]; [done|]. apply Hinv.
Qed.

Lemma balancesListed_preserved_witness :
  let d := {| localSettings := Samples.twoAccounts; newSource := " Card ";
              newDestination := ""; newIncomeSource := ""; newNote := "" |} in
  balancesListed (localSettings d)
  ∧ "Bank" ∈ commonSources (localSettings d)
  ∧ balancesListed (handleInitialBalanceChange "Bank" (Some 5%float) (localSettings d)).
Proof.
  intros d.
  assert (balancesListed (localSettings d)) as Hinv.
  { intros k [v Hk]. simpl in *.
    destruct (decide (k = "Cash")) as [->|]; [set_solver|].
    destruct (decide (k = "Bank")) as [->|]; [set_solver|].
    rewrite lookup_insert_ne in Hk by congruence.
    by rewrite lookup_singleton_ne in Hk by congruence. }
  assert ("Bank" ∈ commonSources (localSettings d)) as Hbank by set_solver.
  split; [exact Hinv|]. split; [exact Hbank|].
  exact (proj2 (proj2 (balancesListed_preserved (fun s => s) d Hinv))
           "Bank" (Some 5%float) Hbank).
Defined.

(** X8. Adding an account and then deleting the last account restores the
    list of accounts and the other vocabularies; the initial balances are
    the earlier ones without an entry for the added name (an earlier balance
    of an account of the same name is lost). *)
Theorem add_then_delete_source (trim : string → string) (d : Dialog)
    (Hname : trim (newSource d) ≠ "") :
  let s := localSettings d in
  let s' := handleDeleteSource (length (commonSources s))
              (localSettings (handleAddSource trim d)) in
  commonSources s' = commonSources s
  ∧ initialBalances s'
    = Some (delete (trim (newSource d)) (default ∅ (initialBalances s)))
  ∧ commonDestinations s' = commonDestinations s
  ∧ commonIncomeSources s' = commonIncomeSources s
  ∧ commonNotes s' = commonNotes s.
Proof.
  intros s s'. subst s'. apply truthy_true in Hname.
  unfold handleDeleteSource, handleAddSource. rewrite Hname. simpl.
  fold s. rewrite filterIndex_ne.
  rewrite lookup_app_r, Nat.sub_diag by done. simpl.
  rewrite delete_insert_eq.
  repeat split. apply delete_appended.
Qed.

Lemma add_then_delete_source_witness :
  let d := {| localSettings := Samples.twoAccounts; newSource := "Card";
              newDestination := ""; newIncomeSource := ""; newNote := "" |} in
  newSource d ≠ ""
  ∧ commonSources (handleDeleteSource 2 (localSettings (handleAddSource (fun s => s) d)))
    = ["Cash"; "Bank"].
Proof.
  intros d. split; [done|].
  exact (proj1 (add_then_delete_source (fun s => s) d ltac:(done))).
Defined.

(** X9. Deleting an income source, an expense category or a note removes
    the entry at the given position and nothing else; for a position out of
    range the settings are left exactly as they were. *)
Theorem delete_vocabulary_entry (index : nat) (s : AppSettings) :
  handleDeleteIncomeSource index s
  = {| commonSources := commonSources s;
       commonDestinations := commonDestinations s;
       commonIncomeSources := delete index (commonIncomeSources s);
       commonNotes := commonNotes s;
       initialBalances := initialBalances s |}
  ∧ handleDeleteDestination index s
    = {| commonSources := commonSources s;
         commonDestinations := delete index (commonDestinations s);
         commonIncomeSources := commonIncomeSources s;
         commonNotes := commonNotes s;
         initialBalances := initialBalances s |}
  ∧ handleDeleteNote index s
    = {| commonSources := commonSources s;
         commonDestinations := commonDestinations s;
         commonIncomeSources := commonIncomeSources s;
         commonNotes := delete index (commonNotes s);
         initialBalances := initialBalances s |}
  ∧ ((length (commonIncomeSources s) ≤ index)%nat → handleDeleteIncomeSource index s = s)
  ∧ ((length (commonDestinations s) ≤ index)%nat → handleDeleteDestination index s = s)
  ∧ ((length (commonNotes s) ≤ index)%nat → handleDeleteNote index s = s).
Proof.
  unfold handleDeleteIncomeSource, handleDeleteDestination, handleDeleteNote.
  rewrite !filterIndex_ne. do 3 (split; [reflexivity|]).
  destruct s; simpl.
  repeat split; intros Hlen; by rewrite delete_beyond.
Qed.

Lemma delete_vocabulary_entry_witness :
  (length (commonNotes Samples.twoAccounts) ≤ 7)%nat
  ∧ handleDeleteNote 7 Samples.twoAccounts = Samples.twoAccounts
  ∧ commonDestinations (handleDeleteDestination 0 Samples.twoAccounts) = ["Rent"].
Proof.
  split; [simpl; lia|].
  destruct (delete_vocabulary_entry 7 Samples.twoAccounts)
    as (_ & _ & _ & _ & _ & Hnote).
  split; [apply Hnote; simpl; lia|].
  destruct (delete_vocabulary_entry 0 Samples.twoAccounts) as (_ & Hdest & _).
  by rewrite Hdest.
Defined.

End SettingsMore.


(** ** The transaction form: guards, edit mode, manual split, reset *)

Section FormMore.
Import Types Js TransactionForm FormEdits.
Variable uuidv4 : nat → string.

(** Case analysis on everything [handleSubmit] tests. *)
Ltac form_cases st :=
  destruct (truthy (source st)) eqn:Hsource,
           (truthyCell (amount st)) eqn:Hamount,
           (type st) eqn:Htype,
           (isSplit st) eqn:Hsplit,
           (truthy (destination st)) eqn:Hdest,
           (truthy (destinationA st)) eqn:HdestA,
           (truthy (destinationB st)) eqn:HdestB;
  simpl.

(** X10. [handleSubmit] hands something to [onSubmit] exactly if the source
    and the amount are filled in and, for an income or a transfer, the
    destination is, and, for a new split expense, both split destinations
    are.  Otherwise it does nothing at all: the form is left as it is and no
    identifier is drawn. *)
Theorem handleSubmit_submits_iff (editing : option Transaction)
    (st : FormState) (drawn : nat) :
  (is_Some (handleSubmit uuidv4 editing st drawn).1.1
   ↔ submittable (bool_decide (is_Some editing)) st = true)
  ∧ ((handleSubmit uuidv4 editing st drawn).1.1 = None →
       handleSubmit uuidv4 editing st drawn = (None, st, drawn)).
Proof.
  unfold handleSubmit, submittable.
  destruct editing as [e|]; form_cases st;
    (split; [split; [intros [? ?]; done|intros ?; by eauto]|done]).
Qed.

Lemma prefix_single (c b : ascii) (r : string) :
  String.prefix (String c EmptyString) (String b r)
  = if ascii_dec c b then true else false.
Proof.
  cbn [String.prefix]. destruct (ascii_dec c b); [by destruct r|done].
Qed.

Lemma no_hyphen_after_replace s : includes (replaceAll "-" "/" s) "-" = false.
Proof.
  induction s as [|a s IH]; [reflexivity|].
  cbn [replaceAll includes]. rewrite IH, orb_false_r, prefix_single.
  destruct (Ascii.eqb_spec a "-") as [->|Hne].
  - by destruct (ascii_dec "-" "/").
  - by destruct (ascii_dec "-" a) as [<-|_].
Qed.

Lemma singleDestination_nonempty (st : FormState) :
  (type st ≠ EXPENSE → truthy (destination st) = true) →
  singleDestination st ≠ "".
Proof.
  unfold singleDestination. intros H.
  destruct (type st); try (apply truthy_true, H; done).
  destruct (truthy (destination st)) eqn:Hd; [by apply truthy_true|done].
Qed.

(** X11. Whatever the state of the form, every transaction that
    [handleSubmit] hands to [onSubmit] has a non-empty source and a
    non-empty destination (an expense without a category gets the sentinel
    category), carries the type selected in the form and a date without
    hyphens. *)
Theorem handleSubmit_wellFormed (editing : option Transaction)
    (st : FormState) (drawn : nat) (ts : list Transaction)
    (Hsub : (handleSubmit uuidv4 editing st drawn).1.1 = Some ts) :
  Forall (wellFormed st) ts.
Proof.
  revert Hsub. unfold handleSubmit.
  destruct editing as [e|]; form_cases st; intros [= <-];
    repeat constructor; simpl;
    rewrite ?Htype, ?Hdest; simpl;
    try apply no_hyphen_after_replace;
    try (by apply truthy_true); try done;
    apply singleDestination_nonempty; rewrite Htype; congruence.
Qed.


(** X13. Opening a stored transaction for editing and submitting the form
    untouched hands back a transaction with the same identifier, source,
    amount and summary; the type is the stored one, or EXPENSE for a record
    without a type; the destination is the stored one, or the sentinel
    category for an expense without one; the date is the stored one with
    hyphens turned into slashes.  This needs a non-empty source, an amount
    other than 0 and, for an income or a transfer, a non-empty destination:
    a stored transaction of amount 0 cannot be saved from the edit form. *)
Theorem populate_then_submit (e : Transaction) (st : FormState) (drawn : nat)
    (Hsource : Types.source e ≠ "")
    (Hdest : Types.type e = Some INCOME ∨ Types.type e = Some TRANSFER →
             Types.destination e ≠ "") :
  (Types.amount e ≠ 0 →
     ∃ t,
       handleSubmit uuidv4 (Some e) (populate e st) drawn
       = (Some [t], populate e st, drawn)
       ∧ Types.id t = Types.id e
       ∧ Types.type t = Some (default EXPENSE (Types.type e))
       ∧ Types.source t = Types.source e
       ∧ Types.amount t = Types.amount e
       ∧ Types.summary t = Types.summary e
       ∧ Types.date t = replaceAll "-" "/" (Types.date e)
       ∧ Types.destination t
         = (if truthy (Types.destination e) then Types.destination e
            else uncategorized))
  ∧ (Types.amount e = 0 →
       handleSubmit uuidv4 (Some e) (populate e st) drawn
       = (None, populate e st, drawn)).
Proof.
  apply truthy_true in Hsource.
  unfold handleSubmit, populate. simpl. rewrite Hsource. simpl. split.
  - intros Hamount. apply Z.eqb_neq in Hamount. rewrite Hamount. simpl.
    destruct (Types.type e) as [[]|] eqn:Htype; simpl.
    + eexists. split; [reflexivity|]. by repeat split.
    + assert (truthy (Types.destination e) = true) as ->
        by (apply truthy_true, Hdest; by left).
      simpl. eexists. split; [reflexivity|]. by repeat split.
    + assert (truthy (Types.destination e) = true) as ->
        by (apply truthy_true, Hdest; by right).
      simpl. eexists. split; [reflexivity|]. by repeat split.
    + eexists. split; [reflexivity|]. by repeat split.
  - intros ->. reflexivity.
Qed.


(** X15. After a new transaction (single or split) has been submitted, the
    form is reset so that submitting again at once does nothing: no second
    copy is handed over and no identifier is drawn. *)
Theorem handleSubmit_twice (st st' : FormState) (drawn drawn' : nat)
    (ts : list Transaction)
    (Hfirst : handleSubmit uuidv4 None st drawn = (Some ts, st', drawn')) :
  handleSubmit uuidv4 None st' drawn' = (None, st', drawn').
Proof.
  revert Hfirst. unfold handleSubmit.
  form_cases st; intros [= <- <- <-]; simpl;
    by rewrite ?Hsource, ?orb_true_r.
Qed.

End FormMore.

Section FormRuns.
Import Types Js TransactionForm FormEdits.

Lemma handleSubmit_submits_iff_witness :
  (handleSubmit Scenario.uuidOfNat None (Scenario.splitForm None) 0).1.1 = None
  ∧ handleSubmit Scenario.uuidOfNat None (Scenario.splitForm None) 0
    = (None, Scenario.splitForm None, 0%nat).
Proof.
  split; [reflexivity|].
  exact (proj2 (handleSubmit_submits_iff Scenario.uuidOfNat None (Scenario.splitForm None) 0%nat)
           eq_refl).
Defined.

Lemma handleSubmit_wellFormed_witness :
  ∃ ts,
    (handleSubmit Scenario.uuidOfNat None
       (changeAmount (Some 101) (Scenario.splitForm None)) 0).1.1 = Some ts
    ∧ Forall (wellFormed (changeAmount (Some 101) (Scenario.splitForm None))) ts.
Proof.
  eexists. split; [reflexivity|].
  apply (handleSubmit_wellFormed Scenario.uuidOfNat None _ 0%nat). reflexivity.
Defined.


Lemma populate_then_submit_witness :
  Types.source Scenario.salary ≠ ""
  ∧ Types.destination Scenario.salary ≠ ""
  ∧ Types.amount Scenario.salary ≠ 0
  ∧ ∃ t, handleSubmit Scenario.uuidOfNat (Some Scenario.salary)
           (populate Scenario.salary (Scenario.splitForm None)) 0
         = (Some [t], populate Scenario.salary (Scenario.splitForm None), 0%nat)
         ∧ Types.amount t = 1000.
Proof.
  do 3 (split; [done|]).
  destruct (proj1 (populate_then_submit Scenario.uuidOfNat Scenario.salary (Scenario.splitForm None)
                     0 ltac:(done) ltac:(done)) ltac:(done))
    as (t & Hsub & _ & _ & _ & Hamount & _).
  exists t. split; [exact Hsub|exact Hamount].
Defined.


Lemma handleSubmit_twice_witness :
  let st := changeAmount (Some 101) (Scenario.splitForm None) in
  let first := handleSubmit Scenario.uuidOfNat None st 0 in
  is_Some first.1.1
  ∧ handleSubmit Scenario.uuidOfNat None first.1.2 first.2 = (None, first.1.2, first.2).
Proof.
  intros st first. split; [by eexists|].
  eapply (handleSubmit_twice Scenario.uuidOfNat st). reflexivity.
Defined.

End FormRuns.


(** ** The Dropbox adapter: paths, session, file operations, profiles *)

Section PathFacts.
Import Types Js Runtime DropboxState Dropbox.

Lemma length_append (a b : string) :
  String.length (a ++ b) = (String.length a + String.length b)%nat.
Proof. induction a as [|c a IH]; simpl; [done|]. by rewrite IH. Qed.

Lemma append_cancel_r (a b c : string) : a ++ c = b ++ c → a = b.
Proof.
  revert b. induction a as [|x a IH]; intros [|y b] H; simpl in *.
  - reflexivity.
  - apply (f_equal String.length) in H.
    rewrite !length_append in H. simpl in H. lia.
  - apply (f_equal String.length) in H.
    rewrite !length_append in H. simpl in H. lia.
  - injection H as -> H. f_equal. by apply IH.
Qed.

Lemma includes_slash (a b : string) :
  includes (a ++ String "/" b) "/" = true.
Proof.
  induction a as [|c a IH]; [by destruct b|].
  change (includes (String c (a ++ String "/" b)) "/" = true).
  cbn [includes]. rewrite IH. apply orb_true_r.
Qed.

Lemma slashFree_startsWith (f : string) :
  includes f "/" = false → startsWith f "/" = false.
Proof.
  unfold startsWith. destruct f as [|c f]; [done|].
  cbn [includes]. by intros [? _]%orb_false_elim.
Qed.

(** A path under [/profiles/] tells the profile and the file apart when the
    file name holds no slash. *)
Lemma profile_path_inj (p1 p2 f1 f2 : string) :
  includes f1 "/" = false → includes f2 "/" = false →
  p1 ++ "/" ++ f1 = p2 ++ "/" ++ f2 → p1 = p2 ∧ f1 = f2.
Proof.
  intros H1 H2. revert p2.
  assert (∀ s, "" ++ s = s) as Hnil by reflexivity.
  assert (∀ c a s, String c a ++ s = String c (a ++ s)) as Hcons by reflexivity.
  induction p1 as [|c p1 IH]; intros [|d p2] H;
    rewrite ?Hcons, ?Hnil in H.
  - by injection H as ->.
  - injection H as _ H. subst f1. by rewrite includes_slash in H1.
  - injection H as _ H. subst f2. by rewrite includes_slash in H2.
  - injection H as -> H. rewrite <- (Hnil f1), <- (Hnil f2), <- !Hcons in H.
    apply IH in H as [-> ->]. done.
Qed.

(** X16. Two adapters on different profiles never resolve the same resource
    name to the same path.  For resource names without a slash, as the file
    names of the adapter and of the App are, two adapters resolve two names
    to the same path only if they are on the same profile and the names are
    the same: such files of a profile are out of reach of every other
    profile, [Default] included.  A name with a slash does reach across:
    on [Default] the name [profiles/P/f] resolves to the path that [f] has
    on the profile [P]. *)
Theorem getPath_isolates (s1 s2 : Service) :
  (∀ filename, currentProfile s1 ≠ currentProfile s2 →
     getPath s1 filename ≠ getPath s2 filename)
  ∧ (∀ f1 f2, includes f1 "/" = false → includes f2 "/" = false →
       getPath s1 f1 = getPath s2 f2 →
       currentProfile s1 = currentProfile s2 ∧ f1 = f2)
  ∧ (∀ f, startsWith f "/" = false →
       currentProfile s1 = "Default" → currentProfile s2 ≠ "Default" →
       getPath s1 ("profiles/" ++ currentProfile s2 ++ "/" ++ f) = getPath s2 f).
Proof.
  split; [|split].
  - intros filename Hdiff.
    unfold getPath. set (clean := if startsWith filename "/" then _ else _).
    destruct (String.eqb_spec (currentProfile s1) "Default") as [H1|H1],
             (String.eqb_spec (currentProfile s2) "Default") as [H2|H2].
    + congruence.
    + intros H. simpl in H. injection H as H.
      apply (f_equal String.length) in H. simpl in H.
      rewrite !length_append in H. simpl in H. lia.
    + intros H. simpl in H. injection H as H.
      apply (f_equal String.length) in H. simpl in H.
      rewrite !length_append in H. simpl in H. lia.
    + intros H. simpl in H. injection H as H.
      change (currentProfile s1 ++ "/" ++ clean = currentProfile s2 ++ "/" ++ clean)
        in H.
      by apply append_cancel_r in H.
  - intros f1 f2 Hf1 Hf2. unfold getPath.
    rewrite (slashFree_startsWith f1 Hf1), (slashFree_startsWith f2 Hf2).
    destruct (String.eqb_spec (currentProfile s1) "Default") as [H1|H1],
             (String.eqb_spec (currentProfile s2) "Default") as [H2|H2].
    + intros H.
      destruct (profile_path_inj "" "" f1 f2 Hf1 Hf2 H) as [_ ->].
      split; congruence.
    + intros H. exfalso.
      assert (f1 = "profiles" ++ String "/" (currentProfile s2 ++ "/" ++ f2))
        as Hf by (injection H as H; exact H).
      subst f1. by rewrite includes_slash in Hf1.
    + intros H. exfalso.
      assert ("profiles" ++ String "/" (currentProfile s1 ++ "/" ++ f1) = f2)
        as Hf by (injection H as H; exact H).
      subst f2. by rewrite includes_slash in Hf2.
    + intros H.
      assert (currentProfile s1 ++ "/" ++ f1 = currentProfile s2 ++ "/" ++ f2)
        as Hf by (injection H as H; exact H).
      exact (profile_path_inj _ _ _ _ Hf1 Hf2 Hf).
  - intros f Hf H1 H2. unfold getPath. rewrite Hf, H1.
    apply String.eqb_neq in H2. rewrite H2. reflexivity.
Qed.

Lemma getPath_isolates_witness :
  let s1 := {| dbx := None; auth := None; currentProfile := "Default" |} in
  let s2 := {| dbx := None; auth := None; currentProfile := "Work" |} in
  currentProfile s1 ≠ currentProfile s2
  ∧ getPath s1 "settings.json" ≠ getPath s2 "settings.json"
  ∧ getPath s1 "profiles/Work/settings.json" = getPath s2 "settings.json".
Proof.
  intros s1 s2. split; [done|].
  destruct (getPath_isolates s1 s2) as (Hdiff & _ & Hacross).
  split; [apply Hdiff; done|].
  apply (Hacross "settings.json"); done.
Defined.

End PathFacts.

Section AdapterMore.
Import Types Js Runtime DropboxState World Dropbox Aux.
Context {Remote Blob : Type}.
Variable env : Env Remote Blob.

#[local] Abbreviation W := (World Remote Blob).

(** X17. [logout] never raises and always ends signed out, also when the
    revocation of the token fails: the client object is dropped, both stored
    tokens are removed (so that a reload of the page starts signed out), and
    no other key of the storage is touched.  Its only request is the
    revocation, made exactly if there was a client.  The current profile of
    the adapter and the state of the App component are left as they were. *)
Theorem logout_clears_session (w : W) :
  let w' := (logout env w).2 in
  (logout env w).1 = Returned tt
  ∧ dbx (svc w') = None ∧ auth (svc w') = None
  ∧ localStorage w' !! "dropbox_token" = None
  ∧ localStorage w' !! "dropbox_refresh_token" = None
  ∧ (∀ k, k ≠ "dropbox_token" → k ≠ "dropbox_refresh_token" →
       localStorage w' !! k = localStorage w !! k)
  ∧ dbx (DropboxRestore.construct (localStorage w')) = None
  ∧ requestsSince w w'
    = (if dbx (svc w) is Some _ then [AuthTokenRevoke] else [])
  ∧ currentProfile (svc w') = currentProfile (svc w)
  ∧ app w' = app w.
Proof.
  unfold logout, request, tryCatch, bind, get, modify, ret, requestsSince,
    DropboxRestore.construct.
  destruct (dbx (svc w)) as [client|]; simpl.
  - destruct (authTokenRevoke (sdk env) client (remote w)) as [[[]|e] rem];
      simpl; rewrite drop_app_length, lookup_delete_ne, lookup_delete_eq by done;
      repeat split; try done;
      try apply lookup_delete_eq;
      intros k H1 H2; by rewrite !lookup_delete_ne.
  - rewrite drop_all, lookup_delete_ne, lookup_delete_eq by done.
    repeat split; try done;
      try apply lookup_delete_eq;
      intros k H1 H2; by rewrite !lookup_delete_ne.
Qed.


(** X19. Uploading data under a file name and then downloading the same
    file name address the same path, so that against a store that hands back
    the blob it was given, and with a parser that inverts the serialiser, the
    download returns the data uploaded; this holds in particular of
    [saveSettings] followed by [loadSettings]. *)
Theorem upload_then_download {T} (json : Codec Blob T) (data : T) (f : string)
    (abs : bool) (w : W) client rem rem'
    (Hdbx : dbx (svc w) = Some client)
    (Hup : filesUpload (sdk env) client (if abs then f else getPath (svc w) f)
             (stringify json data) (remote w) = (Returned tt, rem))
    (Hdown : filesDownload (sdk env) client (if abs then f else getPath (svc w) f)
               rem = (Returned (Some (stringify json data)), rem'))
    (Hparse : parse json (stringify json data) = Returned (Some data)) :
  ((uploadFile env json data f abs ;; downloadFile env json f abs)%js w).1
  = Returned (Some data).
Proof.
  unfold uploadFile, downloadFile, resolve, request, tryCatch, liftOutcome,
    bind, get, ret, throw. simpl. rewrite Hdbx. simpl. rewrite Hup. simpl.
  rewrite Hdbx. simpl. rewrite Hdown. simpl. by rewrite Hparse.
Qed.

(** X20. [addProfile] writes only when the name is new: for a name already in
    the list that [getProfiles] answers it returns without any write; for a
    new name its single write uploads that list with the name appended, and
    the outcome of the upload is the outcome of the call. *)
Theorem addProfile_writes_once (name : string) (w w1 : W) (profiles : list string)
    (Hlist : getProfiles env w = (Returned profiles, w1)) :
  (includesName profiles name = true → addProfile env name w = (Returned tt, w1))
  ∧ (includesName profiles name = false →
       addProfile env name w
       = uploadFile env (registryJson env)
           {| Runtime.profiles := Some (profiles ++ [name])%list |}
           "/profiles.json" true w1)
  ∧ Forall readOnly (requestsSince w w1).
Proof.
  split; [|split].
  - intros Hin. unfold addProfile, bind. by rewrite Hlist, Hin.
  - intros Hin. unfold addProfile, bind. by rewrite Hlist, Hin.
  - pose proof (getProfiles_readOnly env w) as H. rewrite Hlist in H.
    by apply logGrowsBy_requestsSince.
Qed.

(** X21. The guards of the profile operations refuse before anything is
    requested: without a client both [renameProfile] and [deleteProfile]
    throw "Not authenticated", and with one the profile [Default] can be
    neither renamed nor deleted.  Renaming to a name that is already in the
    registry is refused after the registry has been read, without any
    write. *)
Theorem profile_guards (w : W) :
  (dbx (svc w) = None →
     ∀ a b, renameProfile env a b w = (Threw (Error "Not authenticated"), w)
            ∧ deleteProfile env a w = (Threw (Error "Not authenticated"), w))
  ∧ (is_Some (dbx (svc w)) →
       (∀ b, renameProfile env "Default" b w
             = (Threw (Error "Cannot rename Default profile"), w))
       ∧ deleteProfile env "Default" w
         = (Threw (Error "Cannot delete Default profile"), w))
  ∧ (∀ a b profiles w1,
       is_Some (dbx (svc w)) → a ≠ "Default" →
       getProfiles env w = (Returned profiles, w1) →
       includesName profiles b = true →
       renameProfile env a b w = (Threw (Error "Profile name already exists"), w1)
       ∧ Forall readOnly (requestsSince w w1)).
Proof.
  split; [|split].
  - intros Hnull a b.
    unfold renameProfile, deleteProfile, bind, get, throw. by rewrite Hnull.
  - intros [client Hdbx]. split; [intros b|];
      unfold renameProfile, deleteProfile, bind, get, throw; by rewrite Hdbx.
  - intros a b profiles w1 [client Hdbx] Ha Hlist Hin.
    apply String.eqb_neq in Ha. split.
    + unfold renameProfile, bind, get, throw. rewrite Hdbx. simpl.
      by rewrite Ha, Hlist, Hin.
    + pose proof (getProfiles_readOnly env w) as H. rewrite Hlist in H.
      by apply logGrowsBy_requestsSince.
Qed.

(** X22. For a profile other than [Default], an authenticated
    [deleteProfile] first requests the deletion of the folder and carries on
    whatever the answer, then reads the registry and uploads it without the
    name.  If that upload fails its error is raised; otherwise the call
    returns, and the current profile of the adapter is then never the deleted
    one: it is [Default] if it was. *)
Theorem deleteProfile_folder_then_registry (w w2 : W) client name
    (profiles : list string)
    (Hdbx : dbx (svc w) = Some client)
    (Hname : name ≠ "Default") :
  let folder := "/profiles/" ++ name in
  let deleted := filesDeleteV2 (sdk env) client folder (remote w) in
  let w1 := set_remote deleted.2 (add_call (FilesDeleteV2 folder) w) in
  getProfiles env w1 = (Returned profiles, w2) →
  let newProfiles := filter (fun p => p ≠ name) profiles in
  let registry :=
    stringify (registryJson env) {| Runtime.profiles := Some newProfiles |} in
  let uploaded := filesUpload (sdk env) client "/profiles.json" registry (remote w2) in
  let w3 := set_remote uploaded.2 (add_call (FilesUpload "/profiles.json" registry) w2) in
  (name ∉ newProfiles)
  ∧ (match uploaded.1 with
     | Threw error => deleteProfile env name w = (Threw error, w3)
     | Returned _ =>
         (deleteProfile env name w).1 = Returned tt
         ∧ currentProfile (svc (deleteProfile env name w).2) ≠ name
         ∧ (currentProfile (svc w) = name →
              currentProfile (svc (deleteProfile env name w).2) = "Default")
         ∧ calls (deleteProfile env name w).2 = calls w3
     end).
Proof.
  intros folder deleted w1 Hlist newProfiles registry uploaded w3.
  split.
  { unfold newProfiles. rewrite list_elem_of_filter. tauto. }
  pose proof (getProfiles_local env w1) as (Hsvc & _). rewrite Hlist in Hsvc.
  simpl in Hsvc.
  pose proof Hname as Hname'. apply String.eqb_neq in Hname'.
  unfold deleteProfile, uploadFile, resolve, request, tryCatch, bind, get,
    ret, throw, modify.
  rewrite Hdbx. simpl. rewrite Hname', Hdbx. simpl.
  fold folder. fold deleted.
  assert ((let '(r, rem) := deleted in
           (r, set_remote rem (add_call (FilesDeleteV2 folder) w))).2 = w1) as Hw1
    by (unfold w1; by destruct deleted).
  destruct deleted as [[[]|e] rem] eqn:Hdel; simpl in *; subst w1;
    rewrite Hlist, Hsvc, Hdbx; simpl;
    fold newProfiles; fold registry; fold uploaded;
    (destruct uploaded as [[[]|error] rem2] eqn:Hup; simpl; [|reflexivity]);
    rewrite Hsvc;
    (destruct (String.eqb_spec (currentProfile (svc w)) name) as [Hcur|Hcur];
     simpl; rewrite ?Hsvc; repeat split; try done; congruence).
Qed.

End AdapterMore.

Section AdapterRuns.
Import Types Runtime DropboxState AppState World Aux Scenario.


Lemma upload_then_download_witness :
  let s := Samples.twoAccounts in
  let w := signedIn "Work" [] [Done; Body (Some (SettingsDoc s))] in
  dbx (svc w) = Some client0
  ∧ ((Dropbox.saveSettings (scriptedEnv true) s ;;
      Dropbox.loadSettings (scriptedEnv true))%js w).1 = Returned (Some s).
Proof.
  intros s w. split; [reflexivity|].
  exact (upload_then_download (scriptedEnv true) settingsDoc s
           "settings.json" false w client0
           [Body (Some (SettingsDoc s))] []
           eq_refl eq_refl eq_refl eq_refl).
Defined.

Lemma addProfile_writes_once_witness :
  let w := signedIn "Default" [] [registryWithWork] in
  (Dropbox.getProfiles (scriptedEnv true) w).1 = Returned ["Default"; "Work"]
  ∧ Dropbox.includesName ["Default"; "Work"] "Work" = true
  ∧ (Dropbox.addProfile (scriptedEnv true) "Work" w).1 = Returned tt
  ∧ calls (Dropbox.addProfile (scriptedEnv true) "Work" w).2
    = [FilesDownload "/profiles.json"].
Proof.
  intros w. do 2 (split; [reflexivity|]).
  rewrite (proj1 (addProfile_writes_once (scriptedEnv true) "Work" w
                    (Dropbox.getProfiles (scriptedEnv true) w).2
                    ["Default"; "Work"] eq_refl) eq_refl).
  split; reflexivity.
Defined.

Lemma profile_guards_witness :
  let w := signedIn "Work" [] [registryWithWork] in
  is_Some (dbx (svc w))
  ∧ Dropbox.deleteProfile (scriptedEnv true) "Default" w
    = (Threw (Error "Cannot delete Default profile"), w)
  ∧ (Dropbox.renameProfile (scriptedEnv true) "Work" "Default" w).1
    = Threw (Error "Profile name already exists").
Proof.
  intros w.
  assert (is_Some (dbx (svc w))) as Hsome by (by eexists).
  destruct (profile_guards (scriptedEnv true) w) as (_ & Hdefault & Hexists).
  split; [exact Hsome|]. split; [exact (proj2 (Hdefault Hsome))|].
  destruct (Hexists "Work" "Default" ["Default"; "Work"]
              (Dropbox.getProfiles (scriptedEnv true) w).2 Hsome
              ltac:(done) eq_refl eq_refl) as [-> _].
  reflexivity.
Defined.

Lemma deleteProfile_folder_then_registry_witness :
  let w := signedIn "Work" [] [Fails pathNotFound; registryWithWork; Done] in
  dbx (svc w) = Some client0
  ∧ "Work" ≠ "Default"
  ∧ (Dropbox.deleteProfile (scriptedEnv true) "Work" w).1 = Returned tt
  ∧ DropboxState.currentProfile
      (svc (Dropbox.deleteProfile (scriptedEnv true) "Work" w).2) = "Default".
Proof.
  intros w. do 2 (split; [done|]).
  pose proof (deleteProfile_folder_then_registry (scriptedEnv true) w
                (Dropbox.getProfiles (scriptedEnv true)
                   (set_remote [registryWithWork; Done]
                      (add_call (FilesDeleteV2 "/profiles/Work") w))).2
                client0 "Work" ["Default"; "Work"] eq_refl ltac:(done) eq_refl)
    as [_ H].
  change (filesUpload (sdk (scriptedEnv true)) client0 _ _ _).1
    with (@Returned unit tt) in H. cbv iota in H.
  destruct H as (Hret & _ & Hcur & _).
  split; [exact Hret|]. apply Hcur. reflexivity.
Defined.

End AdapterRuns.


(** ** The App component: loading, switching profile, signing out *)

Section ViewFacts.
Import Runtime DropboxState AppState World Aux Views.
Context {Remote Blob : Type}.

#[global] Instance sameView_preorder {X} (g : Service → State → X) :
  PreOrder (@sameView Remote Blob X g).
Proof.
  split; [by intros w|]. intros w1 w2 w3 H1 H2. unfold sameView in *. congruence.
Qed.

Lemma sameLocal_sameView {X} (g : Service → State → X) (w w' : World Remote Blob) :
  sameLocal w w' → sameView g w w'.
Proof. intros (Hs & _ & Ha & _). unfold sameView. by rewrite Hs, Ha. Qed.

End ViewFacts.

(** Frame proofs for a view: the leaves are computed, the file operations
    are local. *)
Ltac view_frame :=
  repeat first
    [ keeps_step
    | solve [unfold Views.sameView; simpl; done]
    | solve [eapply keeps_weaken; [apply sameLocal_sameView|eauto with frames]] ].

Section LoadMore.
Import Types Js Runtime DropboxState AppState World Dropbox App Aux Views.
Context {Remote Blob : Type}.
Variable env : Env Remote Blob.

#[local] Abbreviation W := (World Remote Blob).

Lemma handleLogout_returns (w : W) : (handleLogout env w).1 = Returned tt.
Proof.
  unfold handleLogout, logout, setIsAuthenticated, setTransactions, onApp,
    request, tryCatch, bind, get, modify, ret.
  destruct (confirm env ConfirmLogout); [|done]. simpl.
  destruct (dbx (svc w)) as [client|]; simpl.
  - destruct (authTokenRevoke _ _ _) as [[[]|?] ?]; simpl;
      by destruct (confirm env ConfirmOpenDropboxLogout).
  - by destruct (confirm env ConfirmOpenDropboxLogout).
Qed.

Lemma onLoadFailed_returns error (w : W) :
  (onLoadFailed env error w).1 = Returned tt.
Proof.
  unfold onLoadFailed, alert, detached, bind, modify.
  by destruct (unauthorizedOrBadToken error).
Qed.

Lemma loadSettingsOrDefaults_returns (w : W) :
  (loadSettingsOrDefaults env w).1 = Returned tt.
Proof.
  unfold loadSettingsOrDefaults, tryCatch, bind, setSettings, onApp, modify.
  destruct (checkFileExists env "settings.json" false w) as [[[|]|e] w1];
    simpl; try done.
  destruct (loadSettings env w1) as [[[s|]|e] w2]; simpl; done.
Qed.

Lemma loadSettingsOrDefaults_transactions :
  keeps (sameView (fun _ a => (transactions a, recentSources a, recentDestinations a)))
        (loadSettingsOrDefaults env).
Proof.
  unfold loadSettingsOrDefaults, loadSettings, setSettings, onApp. view_frame.
Qed.

Lemma loadDataAndSettings_outcome (w : W) :
  (loadDataAndSettings env w).1 = Returned tt.
Proof.
  rewrite loadDataAndSettings_run.
  assert (∀ (m : M unit) (w0 : W),
            (tryCatch m (onLoadFailed env) w0).1 = Returned tt) as Hcatch.
  { intros m w0. unfold tryCatch. destruct (m w0) as [[[]|e] w1]; [done|].
    apply onLoadFailed_returns. }
  destruct (checkFileExists env _ _ _) as [[b|e] w1].
  - specialize (Hcatch (loadTransactions env b ;; loadSettingsOrDefaults env)%js w1).
    by destruct (tryCatch _ _ w1).
  - match goal with
    | |- context [tryCatch ?m _ w1] => specialize (Hcatch m w1)
    end.
    by destruct (tryCatch _ _ w1).
Qed.

Lemma loadDataAndSettings_isLoading (w : W) :
  isLoading (app (loadDataAndSettings env w).2) = false.
Proof.
  unfold loadDataAndSettings, tryFinally, bind, setIsLoading, onApp, modify.
  simpl. by destruct (tryCatch _ _ _).
Qed.

(** X23. [loadDataAndSettings] never raises, whatever the remote store
    answers, and always ends with the loading flag off. *)
Theorem loadDataAndSettings_returns (w : W) :
  (loadDataAndSettings env w).1 = Returned tt
  ∧ isLoading (app (loadDataAndSettings env w).2) = false.
Proof.
  split; [apply loadDataAndSettings_outcome|apply loadDataAndSettings_isLoading].
Qed.

Lemma checkFileExists_found f (abs : bool) (w : W) client rem :
  dbx (svc w) = Some client →
  filesGetMetadata (sdk env) client (if abs then f else getPath (svc w) f)
    (remote w) = (Returned tt, rem) →
  checkFileExists env f abs w
  = (Returned true,
     set_remote rem
       (add_call (FilesGetMetadata (if abs then f else getPath (svc w) f)) w)).
Proof.
  intros Hdbx Hmeta.
  unfold checkFileExists, resolve, request, tryCatch, bind, get, ret.
  rewrite Hdbx. simpl. by rewrite Hmeta.
Qed.

Lemma checkFileExists_absent f (abs : bool) (w : W) client error rem :
  dbx (svc w) = Some client →
  filesGetMetadata (sdk env) client (if abs then f else getPath (svc w) f)
    (remote w) = (Threw error, rem) →
  saysPathNotFound error = true →
  checkFileExists env f abs w
  = (Returned false,
     set_remote rem
       (add_call (FilesGetMetadata (if abs then f else getPath (svc w) f)) w)).
Proof.
  intros Hdbx Hmeta Hnf.
  unfold checkFileExists, resolve, request, tryCatch, bind, get, ret.
  rewrite Hdbx. simpl. rewrite Hmeta. simpl. by rewrite Hnf.
Qed.

Lemma loadTransactions_true_run (w0 : W) client rem2 blob data :
  dbx (svc w0) = Some client →
  filesDownload (sdk env) client (getPath (svc w0) "bookkeeping_data.json")
    (remote w0) = (Returned (Some blob), rem2) →
  parse (transactionsJson env) blob = Returned (Some data) →
  loadTransactions env true w0
  = (Returned tt,
     set_app (with_recent (take 10 (distinct [] (map source data)))
                          (take 10 (distinct [] (map destination data)))
                          (with_transactions data (app w0)))
       (set_remote rem2
          (add_call (FilesDownload (getPath (svc w0) "bookkeeping_data.json"))
                    w0))).
Proof.
  intros Hdbx Hdown Hparse.
  unfold loadTransactions, downloadFile, resolve, request, tryCatch,
    liftOutcome, bind, get, ret, setTransactions, updateSuggestions, onApp,
    modify.
  rewrite Hdbx. simpl. rewrite Hdown. simpl. by rewrite Hparse.
Qed.

(** X24. When the transactions file exists and its download parses to a
    collection, the load puts that collection in memory and derives the
    suggestions from it, and this does not depend on what happens to the
    settings afterwards; no request of such a load writes to the store. *)
Theorem loadDataAndSettings_existing (w : W) client rem1 rem2 blob data
    (Hdbx : dbx (svc w) = Some client)
    (Hmeta : filesGetMetadata (sdk env) client
               (getPath (svc w) "bookkeeping_data.json") (remote w)
             = (Returned tt, rem1))
    (Hdown : filesDownload (sdk env) client
               (getPath (svc w) "bookkeeping_data.json") rem1
             = (Returned (Some blob), rem2))
    (Hparse : parse (transactionsJson env) blob = Returned (Some data)) :
  let w' := (loadDataAndSettings env w).2 in
  transactions (app w') = data
  ∧ recentSources (app w') = take 10 (distinct [] (map source data))
  ∧ recentDestinations (app w') = take 10 (distinct [] (map destination data))
  ∧ Forall readOnly (requestsSince w w').
Proof.
  intros w'. subst w'.
  assert (Forall readOnly (requestsSince w (loadDataAndSettings env w).2)) as Hro.
  { rewrite loadDataAndSettings_run, checkFileExists_set_app.
    rewrite (checkFileExists_found "bookkeeping_data.json" false w client rem1
               Hdbx Hmeta). cbn [fst snd].
    set (w0 := set_app _ _).
    assert (keeps (logGrowsBy readOnly)
              (tryCatch (loadTransactions env true ;; loadSettingsOrDefaults env)
                        (onLoadFailed env))) as Hrest.
    { apply keeps_tryCatch; [apply _| |intros; apply onLoadFailed_readOnly].
      apply keeps_bind; [apply _|apply loadTransactions_true_readOnly|].
      intros; apply loadSettingsOrDefaults_readOnly. }
    specialize (Hrest w0). destruct (tryCatch _ _ w0) as [r w2]. simpl in *.
    apply logGrowsBy_requestsSince.
    etrans; [|etrans; [exact Hrest|]].
    - exists [FilesGetMetadata (getPath (svc w) "bookkeeping_data.json")].
      split; [done|]. by repeat constructor.
    - exists []. simpl. by rewrite app_nil_r. }
  enough (transactions (app (loadDataAndSettings env w).2) = data
          ∧ recentSources (app (loadDataAndSettings env w).2)
            = take 10 (distinct [] (map source data))
          ∧ recentDestinations (app (loadDataAndSettings env w).2)
            = take 10 (distinct [] (map destination data)))
    as (? & ? & ?) by done.
  clear Hro.
  rewrite loadDataAndSettings_run, checkFileExists_set_app.
  rewrite (checkFileExists_found "bookkeeping_data.json" false w client rem1
             Hdbx Hmeta). cbn [fst snd].
  set (w0 := set_app _ _).
  unfold tryCatch, bind.
  rewrite (loadTransactions_true_run w0 client rem2 blob data Hdbx Hdown Hparse).
  match goal with
  | |- context [loadSettingsOrDefaults env ?w1] =>
      pose proof (loadSettingsOrDefaults_returns w1) as Hret;
      pose proof (loadSettingsOrDefaults_transactions w1) as Hkeep;
      destruct (loadSettingsOrDefaults env w1) as [r w2]
  end.
  simpl in Hret. subst r. unfold sameView in Hkeep. simpl in Hkeep. simpl.
  by injection Hkeep as -> -> ->.
Qed.

End LoadMore.


(** ** The App component: the first load, profiles, signing out *)

Section ProfileOrders.
Import Runtime DropboxState AppState World Dropbox Aux Views.
Context {Remote Blob : Type}.

Lemma getPath_profile (s s' : Service) f :
  DropboxState.currentProfile s' = DropboxState.currentProfile s →
  getPath s' f = getPath s f.
Proof. intros H. unfold getPath. by rewrite H. Qed.

Lemma inProfile_profile (s s' : Service) (c : SdkCall Blob) :
  DropboxState.currentProfile s' = DropboxState.currentProfile s →
  inProfile s c → inProfile s' c.
Proof.
  intros H. unfold inProfile, profileFiles.
  by rewrite !(getPath_profile s s' _ H).
Qed.

#[global] Instance staysInProfile_preorder :
  PreOrder (@staysInProfile Remote Blob).
Proof.
  split.
  - intros w. split; [done|]. exists []. by rewrite app_nil_r.
  - intros w1 w2 w3 (Hp1 & l1 & H1 & HP1) (Hp2 & l2 & H2 & HP2).
    split; [congruence|].
    exists (l1 ++ l2)%list. rewrite H2, H1, app_assoc. split; [done|].
    apply Forall_app. split; [done|].
    eapply Forall_impl; [exact HP2|].
    intros c. apply inProfile_profile. congruence.
Qed.

#[global] Instance keptOrEmptied_preorder :
  PreOrder (@keptOrEmptied Remote Blob).
Proof.
  split.
  - intros w. by left.
  - intros w1 w2 w3 [H1|H1] [H2|H2]; unfold keptOrEmptied;
      rewrite ?H2, ?H1; tauto.
Qed.

Lemma sameApp_keptOrEmptied (w w' : World Remote Blob) :
  sameApp w w' → keptOrEmptied w w'.
Proof. intros H. left. by rewrite H. Qed.

End ProfileOrders.

(** The leaves of the two frames. *)
Ltac profile_leaf :=
  simpl; split; [done|];
  first [ by (exists []; simpl; rewrite ?app_nil_r)
        | by (eexists [_]; simpl; split; [reflexivity|repeat constructor]) ].

Ltac shown_leaf :=
  unfold Views.keptOrEmptied; simpl; tauto.

Section ProfileFacts.
Import Types Js Runtime DropboxState AppState World Dropbox App AppProfiles.
Import Aux Views.
Context {Remote Blob : Type}.
Variable env : Env Remote Blob.

#[local] Abbreviation W := (World Remote Blob).

(** *** A load stays with the two files of the current profile *)

Lemma profileFiles_elem (s : Service) f :
  f ∈ ["bookkeeping_data.json"; "settings.json"] → getPath s f ∈ profileFiles s.
Proof.
  intros Hf. change (profileFiles s)
    with (getPath s <$> ["bookkeeping_data.json"; "settings.json"]).
  by apply list_elem_of_fmap_2.
Qed.

Lemma checkFileExists_inProfile f :
  f ∈ ["bookkeeping_data.json"; "settings.json"] →
  keeps staysInProfile (checkFileExists env f false).
Proof.
  intros Hf w.
  unfold checkFileExists, resolve, request, tryCatch, bind, get, ret, throw.
  simpl. destruct (dbx (svc w)) as [client|]; [|reflexivity].
  destruct (filesGetMetadata _ _ _ _) as [[[]|e] rem]; simpl;
    [|destruct (saysPathNotFound e); simpl];
    (split; [done|]; eexists [_]; split; [reflexivity|];
     constructor; [by apply profileFiles_elem|constructor]).
Qed.

Lemma uploadFile_inProfile {T} (json : Codec Blob T) data f :
  f ∈ ["bookkeeping_data.json"; "settings.json"] →
  keeps staysInProfile (uploadFile env json data f false).
Proof.
  intros Hf w.
  unfold uploadFile, resolve, request, bind, get, ret, throw.
  simpl. destruct (dbx (svc w)) as [client|]; [|reflexivity].
  destruct (filesUpload _ _ _ _ _) as [r rem]; simpl.
  split; [done|]. eexists [_]; split; [reflexivity|].
  constructor; [by apply profileFiles_elem|constructor].
Qed.

Lemma downloadFile_inProfile {T} (json : Codec Blob T) f :
  f ∈ ["bookkeeping_data.json"; "settings.json"] →
  keeps staysInProfile (downloadFile env json f false).
Proof.
  intros Hf w.
  unfold downloadFile, resolve, request, tryCatch, liftOutcome, bind, get,
    ret, throw.
  simpl. destruct (dbx (svc w)) as [client|]; [|reflexivity].
  assert (staysInProfile w
            (set_remote (filesDownload (sdk env) client (getPath (svc w) f)
                           (remote w)).2
               (add_call (FilesDownload (getPath (svc w) f)) w))) as Hone.
  { split; [done|]. eexists [_]; split; [reflexivity|].
    constructor; [by apply profileFiles_elem|constructor]. }
  destruct (filesDownload _ _ _ _) as [[[blob|]|e] rem]; simpl in *;
    [destruct (parse json blob) as [?|e]; simpl| |];
    try destruct (includes (stringified e) "path_not_found"); simpl;
    exact Hone.
Qed.

Ltac profile_frame :=
  repeat first
    [ keeps_step
    | solve [profile_leaf]
    | solve [ first [apply checkFileExists_inProfile
                    |apply uploadFile_inProfile
                    |apply downloadFile_inProfile]; set_solver ] ].

Lemma handleLogout_inProfile : keeps staysInProfile (handleLogout env).
Proof.
  unfold handleLogout, logout, setIsAuthenticated, setTransactions, onApp.
  profile_frame.
Qed.

Lemma loadDataAndSettings_inProfile :
  keeps staysInProfile (loadDataAndSettings env).
Proof.
  unfold loadDataAndSettings, onCheckFailed, onLoadFailed, loadTransactions,
    loadSettingsOrDefaults, loadSettings, setIsLoading, setTransactions,
    setSettings, updateSuggestions, onApp.
  profile_frame; apply handleLogout_inProfile.
Qed.

(** X25. Whatever the store answers, a load addresses only the two files
    of the profile the adapter is on (the transactions and the settings of
    that profile) and, when the session has expired, the revocation of the
    token; it moves and deletes nothing, and it leaves the adapter on its
    profile. *)
Theorem loadDataAndSettings_stays_in_profile (w : W) :
  let w' := (loadDataAndSettings env w).2 in
  DropboxState.currentProfile (svc w') = DropboxState.currentProfile (svc w)
  ∧ Forall (inProfile (svc w)) (requestsSince w w').
Proof.
  destruct (loadDataAndSettings_inProfile w) as (Hp & l & Hl & HP).
  split; [exact Hp|]. unfold requestsSince. by rewrite Hl, drop_app_length.
Qed.

(** *** What a load shows *)

Lemma handleLogout_shown : keeps keptOrEmptied (handleLogout env).
Proof.
  unfold handleLogout, setIsAuthenticated, setTransactions, onApp.
  repeat first
    [ keeps_step | solve [shown_leaf]
    | solve [eapply keeps_weaken; [apply sameApp_keptOrEmptied|apply logout_app]] ].
Qed.

Lemma onLoadFailed_shown error : keeps keptOrEmptied (onLoadFailed env error).
Proof.
  unfold onLoadFailed.
  repeat first [ keeps_step | solve [shown_leaf] | apply handleLogout_shown ].
Qed.

Lemma onCheckFailed_shown error : keeps keptOrEmptied (onCheckFailed env error).
Proof.
  unfold onCheckFailed, setIsLoading, onApp.
  repeat first [ keeps_step | solve [shown_leaf] | apply handleLogout_shown ].
Qed.

Lemma onCheckFailed_None error (w : W) :
  (onCheckFailed env error w).1 = Returned None.
Proof.
  unfold onCheckFailed, alert, detached, setIsLoading, onApp, bind, modify, ret.
  by destruct (statusUnauthorized error).
Qed.

Lemma loadTransactions_true_cases (w : W) :
  let out := loadTransactions env true w in
  match out.1 with
  | Returned _ =>
      transactions (app out.2) = transactions (app w)
      ∨ downloadedFrom env (transactionsJson env) (dbx (svc w))
          (getPath (svc w) "bookkeeping_data.json") (transactions (app out.2))
  | Threw _ => app out.2 = app w
  end.
Proof.
  unfold loadTransactions, downloadFile, resolve, request, tryCatch,
    liftOutcome, bind, get, ret, throw, setTransactions, updateSuggestions,
    onApp, modify.
  simpl. destruct (dbx (svc w)) as [client|]; [|done]. simpl.
  destruct (filesDownload _ _ _ _) as [[[blob|]|e] rem] eqn:Hdown; simpl.
  - destruct (parse (transactionsJson env) blob) as [[data|]|e] eqn:Hparse;
      simpl.
    + right. by exists client, (remote w), rem, blob.
    + by left.
    + destruct (includes (stringified e) "path_not_found"); simpl;
        [by left|done].
  - by left.
  - destruct (includes (stringified e) "path_not_found"); simpl;
      [by left|done].
Qed.

Lemma loadTransactions_false_cases (w : W) :
  let out := loadTransactions env false w in
  match out.1 with
  | Returned _ => transactions (app out.2) = []
  | Threw _ => app out.2 = app w
  end.
Proof.
  unfold loadTransactions, uploadFile, resolve, request, bind, get, ret,
    throw, setTransactions, onApp, modify.
  simpl. destruct (dbx (svc w)) as [client|]; [|done]. simpl.
  by destruct (filesUpload _ _ _ _ _) as [[[]|e] rem].
Qed.

Lemma loadDataAndSettings_shown (w : W) :
  let w' := (loadDataAndSettings env w).2 in
  transactions (app w') = transactions (app w)
  ∨ transactions (app w') = []
  ∨ downloadedFrom env (transactionsJson env) (dbx (svc w)) (getPath (svc w) "bookkeeping_data.json")
      (transactions (app w')).
Proof.
  intros w'. subst w'.
  rewrite loadDataAndSettings_run, checkFileExists_set_app.
  pose proof (checkFileExists_local env "bookkeeping_data.json" false w)
    as (Hsvc & _ & Happ & _).
  destruct (checkFileExists env "bookkeeping_data.json" false w)
    as [[b|e] w1]; cbn [fst snd] in *.
  - set (w0 := set_app _ w1).
    assert (transactions (app w0) = transactions (app w)) as H0
      by done.
    assert (svc w0 = svc w) as Hs0 by done.
    clearbody w0. unfold tryCatch, bind.
    destruct b.
    + pose proof (loadTransactions_true_cases w0) as Hl. cbn zeta in Hl.
      destruct (loadTransactions env true w0) as [[[]|e] w2]; cbn [fst snd] in *.
      * pose proof (loadSettingsOrDefaults_returns env w2) as Hret.
        pose proof (loadSettingsOrDefaults_transactions env w2) as Hkeep.
        destruct (loadSettingsOrDefaults env w2) as [r w3].
        simpl in Hret. subst r. unfold sameView in Hkeep. simpl in Hkeep.
        injection Hkeep as Hkeep _ _. simpl. rewrite Hkeep.
        rewrite Hs0, H0 in Hl. tauto.
      * pose proof (onLoadFailed_shown e w2) as Hf.
        destruct (onLoadFailed env e w2) as [r w3]. simpl in *.
        unfold keptOrEmptied in Hf. rewrite Hl, H0 in Hf. tauto.
    + pose proof (loadTransactions_false_cases w0) as Hl. cbn zeta in Hl.
      destruct (loadTransactions env false w0) as [[[]|e] w2]; cbn [fst snd] in *.
      * pose proof (loadSettingsOrDefaults_returns env w2) as Hret.
        pose proof (loadSettingsOrDefaults_transactions env w2) as Hkeep.
        destruct (loadSettingsOrDefaults env w2) as [r w3].
        simpl in Hret. subst r. unfold sameView in Hkeep. simpl in Hkeep.
        injection Hkeep as Hkeep _ _. simpl. rewrite Hkeep. tauto.
      * pose proof (onLoadFailed_shown e w2) as Hf.
        destruct (onLoadFailed env e w2) as [r w3]. simpl in *.
        unfold keptOrEmptied in Hf. rewrite Hl, H0 in Hf. tauto.
  - set (w0 := set_app _ w1).
    assert (transactions (app w0) = transactions (app w)) as H0
      by done.
    clearbody w0. unfold tryCatch, bind.
    pose proof (onCheckFailed_None e w0) as Hnone.
    pose proof (onCheckFailed_shown e w0) as Hf.
    destruct (onCheckFailed env e w0) as [r w2]. simpl in Hnone. subst r.
    simpl in *. unfold keptOrEmptied in Hf. rewrite H0 in Hf. tauto.
Qed.

(** The settings a load ends with. *)

Lemma loadSettingsOrDefaults_cases (w : W) :
  let w' := (loadSettingsOrDefaults env w).2 in
  settings (app w') = settings (app w)
  ∨ settings (app w') = DEFAULT_SETTINGS
  ∨ downloadedFrom env (settingsJson env) (dbx (svc w))
      (getPath (svc w) "settings.json") (settings (app w')).
Proof.
  unfold loadSettingsOrDefaults, loadSettings, checkFileExists, downloadFile,
    resolve, request, tryCatch, liftOutcome, bind, get, ret, throw,
    setSettings, onApp, modify.
  simpl. destruct (dbx (svc w)) as [client|] eqn:Hdbx; [|tauto]. simpl.
  destruct (filesGetMetadata _ _ _ _) as [[[]|e] rem]; simpl.
  - rewrite Hdbx. simpl.
    match goal with
    | |- context [filesDownload ?a ?b ?c ?d] =>
        destruct (filesDownload a b c d) as [[[blob|]|e] rem'] eqn:Hdown
    end; simpl.
    + destruct (parse (settingsJson env) blob) as [[s|]|e] eqn:Hparse; simpl.
      * right; right. by exists client, rem, rem', blob.
      * tauto.
      * destruct (includes (stringified e) "path_not_found"); simpl; tauto.
    + tauto.
    + destruct (includes (stringified e) "path_not_found"); simpl; tauto.
  - destruct (saysPathNotFound e); simpl; tauto.
Qed.

Lemma handleLogout_settings :
  keeps (sameView (fun s a => (DropboxState.currentProfile s, settings a)))
        (handleLogout env).
Proof.
  unfold handleLogout, logout, setIsAuthenticated, setTransactions, onApp.
  view_frame.
Qed.

Lemma onLoadFailed_settings error :
  keeps (sameView (fun s a => (DropboxState.currentProfile s, settings a)))
        (onLoadFailed env error).
Proof.
  unfold onLoadFailed.
  view_frame; apply handleLogout_settings.
Qed.

Lemma onCheckFailed_settings error :
  keeps (sameView (fun s a => (DropboxState.currentProfile s, settings a)))
        (onCheckFailed env error).
Proof.
  unfold onCheckFailed, setIsLoading, onApp.
  view_frame; apply handleLogout_settings.
Qed.

Lemma loadTransactions_settings b :
  keeps (sameView (fun s a => (s, settings a))) (loadTransactions env b).
Proof.
  unfold loadTransactions, setTransactions, updateSuggestions, onApp.
  view_frame.
Qed.

Lemma loadDataAndSettings_settings (w : W) :
  let w' := (loadDataAndSettings env w).2 in
  settings (app w') = settings (app w)
  ∨ settings (app w') = DEFAULT_SETTINGS
  ∨ downloadedFrom env (settingsJson env) (dbx (svc w))
      (getPath (svc w) "settings.json") (settings (app w')).
Proof.
  intros w'. subst w'.
  rewrite loadDataAndSettings_run, checkFileExists_set_app.
  pose proof (checkFileExists_local env "bookkeeping_data.json" false w)
    as (Hsvc & _ & Happ & _).
  destruct (checkFileExists env "bookkeeping_data.json" false w)
    as [[b|e] w1]; cbn [fst snd] in *.
  - set (w0 := set_app _ w1).
    assert (settings (app w0) = settings (app w)) as H0 by done.
    assert (svc w0 = svc w) as Hs0 by done.
    clearbody w0. unfold tryCatch, bind.
    pose proof (loadTransactions_settings b w0) as Hl. unfold sameView in Hl.
    destruct (loadTransactions env b w0) as [[[]|e] w2]; cbn [fst snd] in *;
      injection Hl as Hs2 Hset2.
    + pose proof (loadSettingsOrDefaults_returns env w2) as Hret.
      pose proof (loadSettingsOrDefaults_cases w2) as Hc. cbn zeta in Hc.
      destruct (loadSettingsOrDefaults env w2) as [r w3].
      simpl in Hret. subst r. simpl in *.
      rewrite Hs2, Hs0, Hset2, H0 in Hc. exact Hc.
    + pose proof (onLoadFailed_settings e w2) as Hf. unfold sameView in Hf.
      destruct (onLoadFailed env e w2) as [r w3]. simpl in *.
      injection Hf as _ Hf. left. congruence.
  - set (w0 := set_app _ w1).
    assert (settings (app w0) = settings (app w)) as H0 by done.
    clearbody w0. unfold tryCatch, bind.
    pose proof (onCheckFailed_None e w0) as Hnone.
    pose proof (onCheckFailed_settings e w0) as Hf. unfold sameView in Hf.
    destruct (onCheckFailed env e w0) as [r w2]. simpl in Hnone. subst r.
    simpl in *. injection Hf as _ Hf. left. congruence.
Qed.

Lemma checkFileExists_raises f (abs : bool) (w : W) client error rem :
  dbx (svc w) = Some client →
  filesGetMetadata (sdk env) client (if abs then f else getPath (svc w) f)
    (remote w) = (Threw error, rem) →
  saysPathNotFound error = false →
  checkFileExists env f abs w
  = (Threw error,
     set_remote rem
       (add_call (FilesGetMetadata (if abs then f else getPath (svc w) f)) w)).
Proof.
  intros Hdbx Hmeta Hnf.
  unfold checkFileExists, resolve, request, tryCatch, bind, get, ret.
  rewrite Hdbx. simpl. rewrite Hmeta. simpl. by rewrite Hnf.
Qed.

Lemma loadDataAndSettings_check_throws_settings (w w1 : W) error :
  checkFileExists env "bookkeeping_data.json" false w = (Threw error, w1) →
  settings (app (loadDataAndSettings env w).2) = settings (app w).
Proof.
  intros Hcheck.
  rewrite loadDataAndSettings_run, checkFileExists_set_app.
  pose proof (checkFileExists_local env "bookkeeping_data.json" false w)
    as (_ & _ & Happ & _).
  rewrite Hcheck in *. cbn [fst snd] in *.
  set (w0 := set_app _ w1).
  assert (settings (app w0) = settings (app w)) as H0 by (simpl; congruence).
  clearbody w0. unfold tryCatch, bind.
  pose proof (onCheckFailed_None error w0) as Hnone.
  pose proof (onCheckFailed_settings error w0) as Hf. unfold sameView in Hf.
  destruct (onCheckFailed env error w0) as [r w2]. simpl in Hnone. subst r.
  simpl in *. injection Hf as _ Hf. congruence.
Qed.

(** The load when the probe says, in so many words, [path_not_found]. *)
Lemma first_run_creates (w : W) client error rem1
    (Hdbx : dbx (svc w) = Some client)
    (Hmeta : filesGetMetadata (sdk env) client
               (getPath (svc w) "bookkeeping_data.json") (remote w)
             = (Threw error, rem1))
    (Hnf : saysPathNotFound error = true) :
  let path := getPath (svc w) "bookkeeping_data.json" in
  let empty := stringify (transactionsJson env) [] in
  let w' := (loadDataAndSettings env w).2 in
  take 2 (requestsSince w w') = [FilesGetMetadata path; FilesUpload path empty]
  ∧ match filesUpload (sdk env) client path empty rem1 with
    | (Returned _, _) => transactions (app w') = []
    | (Threw e, _) =>
        requestsSince w w'
        = FilesGetMetadata path :: FilesUpload path empty
          :: (if unauthorizedOrBadToken e && confirm env ConfirmLogout
              then [AuthTokenRevoke] else [])
        ∧ settings (app w') = settings (app w)
        ∧ (if unauthorizedOrBadToken e then True
           else transactions (app w') = transactions (app w)
                ∧ ui w' = (ui w ++ [Alert AlertLoadFailed])%list)
    end.
Proof.
  intros path empty w'. subst w' path empty.
  remember (loadDataAndSettings env w) as out eqn:Hout.
  rewrite loadDataAndSettings_run, checkFileExists_set_app in Hout.
  rewrite (checkFileExists_absent env "bookkeeping_data.json" false w client
             error rem1 Hdbx Hmeta Hnf) in Hout. cbn [fst snd] in Hout.
  unfold tryCatch at 1 in Hout. unfold bind at 1 in Hout.
  unfold loadTransactions, uploadFile, resolve, request, bind, get, ret,
    throw, setTransactions, onApp, modify in Hout.
  simpl in Hout. rewrite Hdbx in Hout. simpl in Hout.
  destruct (filesUpload (sdk env) client
              (getPath (svc w) "bookkeeping_data.json")
              (stringify (transactionsJson env) []) rem1)
    as [[[]|e] rem2] eqn:Hup; simpl in Hout.
  - match type of Hout with
    | context [loadSettingsOrDefaults env ?w1] =>
        pose proof (loadSettingsOrDefaults_returns env w1) as Hret;
        pose proof (loadSettingsOrDefaults_transactions env w1) as Hkeep;
        pose proof (loadSettingsOrDefaults_readOnly env w1) as (l & Hl & _);
        destruct (loadSettingsOrDefaults env w1) as [r w2]
    end.
    simpl in Hret. subst r. unfold sameView in Hkeep. simpl in *.
    injection Hkeep as Hkeep _ _. subst out. simpl. split; [|done].
    unfold requestsSince. simpl. rewrite Hl, <- !app_assoc, drop_app_length.
    done.
  - revert Hout.
    unfold onLoadFailed, handleLogout, logout, alert, detached,
      setIsAuthenticated, setTransactions, onApp, request, tryCatch, bind,
      get, modify, ret, requestsSince.
    destruct (unauthorizedOrBadToken e); simpl.
    + destruct (confirm env ConfirmLogout); simpl.
      * rewrite Hdbx. simpl.
        destruct (authTokenRevoke _ _ _) as [[[]|?] ?]; simpl;
          destruct (confirm env ConfirmOpenDropboxLogout); simpl;
          intros ->; simpl;
          rewrite <- !app_assoc, drop_app_length; done.
      * intros ->; simpl. rewrite <- !app_assoc, drop_app_length. done.
    + intros ->; simpl. rewrite <- !app_assoc, drop_app_length. done.
Qed.


(** X26. The first load of a profile, when the probe of the transactions
    file fails.  The adapter takes the failure for an absent file only if
    the error says [path_not_found] in so many words; then the load creates
    the file: its first two requests are the probe and the upload of the
    empty collection to the same path; if the upload succeeds, no
    transaction is shown; if it fails, nothing more is sent apart from the
    revocation behind a confirmed logout, the settings are not read, and,
    unless the failure is one of authentication, the transactions in memory
    stay and the user is told that loading failed.  Any other failure of
    the probe is raised and stops the load: nothing is uploaded, nothing
    more is sent apart from the revocation behind a confirmed logout after
    a status of 401 or 400, the settings stay, and for another status the
    transactions in memory stay and the user is told that the file could
    not be checked.  The answer of the Dropbox SDK for a path that is not
    there (status 409, summary [path/not_found/], tag [path]) is of the
    second kind: for a profile without a transactions file the load creates
    nothing. *)
Theorem loadDataAndSettings_first_run (w : W) client error rem1
    (Hdbx : dbx (svc w) = Some client)
    (Hmeta : filesGetMetadata (sdk env) client
               (getPath (svc w) "bookkeeping_data.json") (remote w)
             = (Threw error, rem1)) :
  let path := getPath (svc w) "bookkeeping_data.json" in
  let empty := stringify (transactionsJson env) [] in
  let w' := (loadDataAndSettings env w).2 in
  (if saysPathNotFound error then
     take 2 (requestsSince w w') = [FilesGetMetadata path; FilesUpload path empty]
     ∧ match filesUpload (sdk env) client path empty rem1 with
       | (Returned _, _) => transactions (app w') = []
       | (Threw e, _) =>
           requestsSince w w'
           = FilesGetMetadata path :: FilesUpload path empty
             :: (if unauthorizedOrBadToken e && confirm env ConfirmLogout
                 then [AuthTokenRevoke] else [])
           ∧ settings (app w') = settings (app w)
           ∧ (if unauthorizedOrBadToken e then True
              else transactions (app w') = transactions (app w)
                   ∧ ui w' = (ui w ++ [Alert AlertLoadFailed])%list)
       end
   else
     requestsSince w w'
     = FilesGetMetadata path
       :: (if statusUnauthorized error && confirm env ConfirmLogout
           then [AuthTokenRevoke] else [])
     ∧ settings (app w') = settings (app w)
     ∧ (if statusUnauthorized error then True
        else transactions (app w') = transactions (app w)
             ∧ ui w' = (ui w ++ [Alert AlertCannotCheckFile])%list))
  ∧ saysPathNotFound Scenario.pathNotFound = false
  ∧ statusUnauthorized Scenario.pathNotFound = false.
Proof.
  intros path empty w'. split; [|split; reflexivity].
  destruct (saysPathNotFound error) eqn:Hnf.
  - exact (first_run_creates w client error rem1 Hdbx Hmeta Hnf).
  - pose proof (checkFileExists_raises "bookkeeping_data.json" false w client
                  error rem1 Hdbx Hmeta Hnf) as Hcheck.
    destruct (loadDataAndSettings_check_throws env w _ error Hcheck)
      as (_ & Hreq & Hother & _).
    split; [exact Hreq|].
    split; [exact (loadDataAndSettings_check_throws_settings w _ error Hcheck)|].
    destruct (statusUnauthorized error); [done|].
    destruct (Hother eq_refl) as (Ht & _ & Hui). by split.
Qed.

(** *** Switching profile *)

Lemma loadDataAndSettings_currentProfile :
  keeps (sameView (fun _ a => AppState.currentProfile a))
        (loadDataAndSettings env).
Proof.
  unfold loadDataAndSettings, onCheckFailed, onLoadFailed, handleLogout,
    logout, loadTransactions, loadSettingsOrDefaults, loadSettings,
    setIsLoading, setIsAuthenticated, setTransactions, setSettings,
    updateSuggestions, onApp.
  view_frame.
Qed.

Lemma handleSwitchProfile_run name (w : W) :
  let w0 :=
    set_app (with_settings DEFAULT_SETTINGS
               (with_transactions []
                  (with_currentProfile name
                     (with_isLoading true (app w)))))
            (set_svc (set_currentProfile name (svc w)) w) in
  handleSwitchProfile env name w
  = let w1 := (loadDataAndSettings env w0).2 in
    (Returned tt, set_app (with_isLoading false (app w1)) w1).
Proof.
  intros w0.
  unfold handleSwitchProfile, setProfile, setCurrentProfile, setIsLoading,
    setTransactions, setSettings, onApp.
  unfold bind at 1 2 3 4 5 6. unfold modify. simpl.
  match goal with
  | |- context [loadDataAndSettings env ?x] => change x with w0
  end.
  pose proof (loadDataAndSettings_outcome env w0) as Hret.
  destruct (loadDataAndSettings env w0) as [r w1]. simpl in Hret. by subst r.
Qed.

(** The part of a load that is left after its download is the rest of
    the load. *)
Lemma loadDataAndSettings_resumes (w w1 w2 : W) data :
  checkFileExists env "bookkeeping_data.json" false
    (set_app (with_isLoading true (app w)) w) = (Returned true, w1) →
  downloadFile env (transactionsJson env) "bookkeeping_data.json" false w1
  = (Returned data, w2) →
  loadDataAndSettings env w = resumeAfterDownload env data w2.
Proof.
  intros Hcheck Hdown.
  unfold loadDataAndSettings, resumeAfterDownload, loadTransactions,
    tryFinally, setIsLoading, onApp.
  unfold bind at 1. unfold modify at 1. cbn [fst snd].
  unfold tryCatch at 1 2. unfold bind at 1 2. unfold tryCatch at 1.
  unfold bind at 1. rewrite Hcheck. unfold ret at 1. cbn [fst snd].
  unfold bind at 1 2. rewrite Hdown.
  unfold tryCatch, bind. by destruct data.
Qed.

Lemma loadSettingsOrDefaults_profile :
  keeps (sameView (fun s a => (DropboxState.currentProfile s,
                               AppState.currentProfile a, transactions a)))
        (loadSettingsOrDefaults env).
Proof.
  unfold loadSettingsOrDefaults, loadSettings, setSettings, onApp. view_frame.
Qed.

Lemma resumeAfterDownload_shows data (w : W) :
  let w' := (resumeAfterDownload env (Some data) w).2 in
  transactions (app w') = data
  ∧ AppState.currentProfile (app w') = AppState.currentProfile (app w)
  ∧ DropboxState.currentProfile (svc w') = DropboxState.currentProfile (svc w).
Proof.
  intros w'. subst w'.
  remember (resumeAfterDownload env (Some data) w) as out eqn:Hout.
  unfold resumeAfterDownload, tryFinally, tryCatch, setTransactions,
    updateSuggestions, onApp, bind, modify in Hout. cbn [fst snd] in Hout.
  match type of Hout with
  | context [loadSettingsOrDefaults env ?x] =>
      pose proof (loadSettingsOrDefaults_returns env x) as Hret;
      pose proof (loadSettingsOrDefaults_profile x) as Hkeep;
      destruct (loadSettingsOrDefaults env x) as [r w2]
  end.
  simpl in Hret. subst r out. unfold sameView in Hkeep. simpl in *.
  injection Hkeep as H1 H2 H3. done.
Qed.

(** X27. A switch to the profile [name] that runs from its start to its
    end with nothing else running in between never raises and ends with the
    loading flag off and with both the adapter and the App on [name].
    Every request it makes addresses the two files of [name] (or revokes
    the token): no file of the profile left behind is read or written.  The
    transactions shown at its end are none, or the parsed content of a
    download of the transactions file of [name], and the settings are the
    defaults or the parsed content of a download of the settings file of
    [name].  The switch neither waits for nor cancels a load that is in
    flight: a load begun on the profile left behind that resumes after the
    switch with the collection it has downloaded shows that collection
    under [name]. *)
Theorem handleSwitchProfile_isolates name (w : W) :
  let w' := (handleSwitchProfile env name w).2 in
  let target := set_currentProfile name (svc w) in
  (handleSwitchProfile env name w).1 = Returned tt
  ∧ isLoading (app w') = false
  ∧ DropboxState.currentProfile (svc w') = name
  ∧ AppState.currentProfile (app w') = name
  ∧ Forall (inProfile target) (requestsSince w w')
  ∧ (transactions (app w') = []
     ∨ downloadedFrom env (transactionsJson env) (dbx (svc w))
         (getPath target "bookkeeping_data.json") (transactions (app w')))
  ∧ (settings (app w') = DEFAULT_SETTINGS
     ∨ downloadedFrom env (settingsJson env) (dbx (svc w))
         (getPath target "settings.json") (settings (app w')))
  ∧ (∀ stale,
       let late := (resumeAfterDownload env (Some stale) w').2 in
       transactions (app late) = stale
       ∧ AppState.currentProfile (app late) = name
       ∧ DropboxState.currentProfile (svc late) = name).
Proof.
  intros w' target.
  assert (DropboxState.currentProfile (svc w') = name
          ∧ AppState.currentProfile (app w') = name) as [Hsvc Happ].
  { subst w'. rewrite handleSwitchProfile_run.
    set (w0 := set_app _ _). cbn [fst snd].
    destruct (loadDataAndSettings_inProfile w0) as (Hp & _).
    pose proof (loadDataAndSettings_currentProfile w0) as Hcur.
    unfold sameView in Hcur.
    destruct (loadDataAndSettings env w0) as [r w1]. simpl in *. done. }
  assert (∀ stale,
            let late := (resumeAfterDownload env (Some stale) w').2 in
            transactions (app late) = stale
            ∧ AppState.currentProfile (app late) = name
            ∧ DropboxState.currentProfile (svc late) = name) as Hlate.
  { intros stale late.
    destruct (resumeAfterDownload_shows stale w') as (Ht & Ha & Hs).
    fold late in Ht, Ha, Hs. by rewrite Ha, Hs. }
  clear Hsvc Happ. revert Hlate. generalize (resumeAfterDownload env).
  intros resume Hlate.
  subst w'. revert Hlate. rewrite handleSwitchProfile_run.
  set (w0 := set_app _ _). cbn [fst snd].
  destruct (loadDataAndSettings_inProfile w0) as (Hp & l & Hl & HP).
  pose proof (loadDataAndSettings_currentProfile w0) as Hcur.
  pose proof (loadDataAndSettings_shown w0) as Hshown.
  pose proof (loadDataAndSettings_settings w0) as Hset.
  unfold sameView in Hcur. cbn zeta in Hshown, Hset.
  destruct (loadDataAndSettings env w0) as [r w1]. simpl in *.
  intros Hlate.
  repeat split; try done.
  - unfold requestsSince. simpl. by rewrite Hl, drop_app_length.
  - tauto.
  - tauto.
  - apply Hlate.
  - apply Hlate.
  - apply Hlate.
Qed.

(** *** Loading the registry of profiles *)

Lemma loadProfiles_run (w : W) :
  loadProfiles env w
  = let out := getProfiles env w in
    match out.1 with
    | Returned l =>
        (Returned tt,
         set_app (with_currentProfile (DropboxState.currentProfile (svc out.2))
                    (with_profiles l (app out.2))) out.2)
    | Threw e => (Threw e, out.2)
    end.
Proof.
  unfold loadProfiles, setProfiles, setCurrentProfile, getProfile, onApp,
    bind, get, modify.
  by destruct (getProfiles env w) as [[l|e] w1].
Qed.

(** X28. [loadProfiles] never raises.  It puts the list answered by
    [getProfiles] and the adapter's current profile into the state of the
    App; the list is [Default] alone when there is no session.  It only
    reads from the store, and it leaves the adapter, the stored tokens, the
    transactions and the settings as they were. *)
Theorem loadProfiles_mirrors (w : W) :
  let w' := (loadProfiles env w).2 in
  (loadProfiles env w).1 = Returned tt
  ∧ Returned (profiles (app w')) = (getProfiles env w).1
  ∧ (if dbx (svc w) is Some _ then True else profiles (app w') = ["Default"])
  ∧ AppState.currentProfile (app w') = DropboxState.currentProfile (svc w)
  ∧ svc w' = svc w ∧ localStorage w' = localStorage w
  ∧ transactions (app w') = transactions (app w)
  ∧ settings (app w') = settings (app w)
  ∧ AppState.isAuthenticated (app w') = AppState.isAuthenticated (app w)
  ∧ Forall readOnly (requestsSince w w').
Proof.
  intros w'. subst w'. rewrite loadProfiles_run. cbn zeta.
  destruct (getProfiles_returns env w) as (l & w1 & Hget).
  pose proof (getProfiles_local env w) as (Hsvc & Hls & Happ & _).
  pose proof (getProfiles_readOnly env w) as Hro.
  assert (dbx (svc w) = None → l = ["Default"]) as Hout.
  { intros Hnone. revert Hget. unfold getProfiles, bind, get, ret.
    rewrite Hnone. by intros [= <- _]. }
  rewrite Hget in *. simpl in *.
  rewrite Hsvc, Hls, Happ. repeat split; try done.
  - destruct (dbx (svc w)); [done|]. by apply Hout.
  - by apply logGrowsBy_requestsSince.
Qed.

(** *** Signing out *)

(** X29. [handleLogout] never raises.  Declined, it changes nothing and
    sends nothing.  Confirmed, it ends signed out also when the revocation
    fails: the client object and the stored token are gone, the App is
    marked signed out and shows no transaction, and its only request is the
    revocation; the settings, the list of profiles and the current profile
    stay as they were. *)
Theorem handleLogout_signs_out (w : W) :
  let w' := (handleLogout env w).2 in
  (handleLogout env w).1 = Returned tt
  ∧ if confirm env ConfirmLogout then
      dbx (svc w') = None
      ∧ localStorage w' !! "dropbox_token" = None
      ∧ localStorage w' !! "dropbox_refresh_token" = None
      ∧ AppState.isAuthenticated (app w') = false
      ∧ transactions (app w') = []
      ∧ requestsSince w w' = (if dbx (svc w) is Some _ then [AuthTokenRevoke] else [])
      ∧ settings (app w') = settings (app w)
      ∧ profiles (app w') = profiles (app w)
      ∧ AppState.currentProfile (app w') = AppState.currentProfile (app w)
      ∧ DropboxState.currentProfile (svc w')
        = DropboxState.currentProfile (svc w)
    else w' = w.
Proof.
  intros w'. subst w'. split; [apply handleLogout_returns|].
  unfold handleLogout, logout, setIsAuthenticated, setTransactions, onApp,
    request, tryCatch, bind, get, modify, ret, requestsSince.
  destruct (confirm env ConfirmLogout); [|done]. simpl.
  destruct (dbx (svc w)) as [client|]; simpl.
  - destruct (authTokenRevoke _ _ _) as [[[]|?] ?]; simpl;
      destruct (confirm env ConfirmOpenDropboxLogout); simpl;
      rewrite drop_app_length, lookup_delete_ne, !lookup_delete_eq by done;
      done.
  - destruct (confirm env ConfirmOpenDropboxLogout); simpl;
      rewrite drop_all, lookup_delete_ne, !lookup_delete_eq by done; done.
Qed.

End ProfileFacts.


(** *** Runs against the scripted store *)

Section LoadRuns.
Import Types Runtime DropboxState AppState World Aux Scenario.

Lemma updateSuggestions_recent_witness :
  let data := [lunch; salary; lunch] in
  let w' := (App.updateSuggestions data (signedIn "Default" [] [])).2 in
  (length (App.distinct [] (map source data)) ≤ 10)%nat
  ∧ source salary ∈ recentSources (app w')
  ∧ (length (App.distinct [] (map destination data)) ≤ 10)%nat
  ∧ destination salary ∈ recentDestinations (app w').
Proof.
  intros data w'.
  destruct (updateSuggestions_recent data (signedIn "Default" [] []))
    as (_ & _ & _ & _ & _ & _ & _ & Hs & Hd & _).
  assert (salary ∈ data) as Hin by (right; left).
  split; [vm_compute; lia|]. split; [apply Hs; [vm_compute; lia|exact Hin]|].
  split; [vm_compute; lia|]. apply Hd; [vm_compute; lia|exact Hin].
Defined.

Lemma logout_clears_session_witness :
  let w := signedIn "Work" [lunch] [Fails expiredToken] in
  let w' := (Dropbox.logout (scriptedEnv true) w).2 in
  "theme" ≠ "dropbox_token" ∧ "theme" ≠ "dropbox_refresh_token"
  ∧ localStorage w' !! "theme" = localStorage w !! "theme"
  ∧ dbx (svc w') = None.
Proof.
  intros w w'.
  destruct (logout_clears_session (scriptedEnv true) w)
    as (_ & Hdbx & _ & _ & _ & Hother & _).
  split; [done|]. split; [done|]. split; [|exact Hdbx].
  apply Hother; done.
Defined.

Lemma loadDataAndSettings_existing_witness :
  let w := signedIn "Work" []
             [Done; Body (Some (TransactionsDoc [lunch; salary]));
              Fails pathNotFound] in
  let w' := (App.loadDataAndSettings (scriptedEnv true) w).2 in
  dbx (svc w) = Some client0
  ∧ transactions (app w') = [lunch; salary]
  ∧ recentSources (app w') = ["Cash"; "Salary"]
  ∧ Forall readOnly (requestsSince w w').
Proof.
  intros w w'. split; [reflexivity|].
  destruct (loadDataAndSettings_existing (scriptedEnv true) w client0
              [Body (Some (TransactionsDoc [lunch; salary])); Fails pathNotFound]
              [Fails pathNotFound]
              (TransactionsDoc [lunch; salary]) [lunch; salary]
              eq_refl eq_refl eq_refl eq_refl)
    as (Ht & Hs & _ & Hro).
  split; [exact Ht|]. split; [exact Hs|exact Hro].
Defined.

Lemma loadDataAndSettings_first_run_witness :
  let w := signedIn "Work" [lunch] [Fails pathNotFound] in
  let w' := (App.loadDataAndSettings (scriptedEnv true) w).2 in
  let v := signedIn "Work" [lunch] [Fails notFoundLiteral; Fails offline] in
  let v' := (App.loadDataAndSettings (scriptedEnv true) v).2 in
  dbx (svc w) = Some client0
  ∧ requestsSince w w'
    = [FilesGetMetadata "/profiles/Work/bookkeeping_data.json"]
  ∧ transactions (app w') = [lunch]
  ∧ ui w' = (ui w ++ [Alert AlertCannotCheckFile])%list
  ∧ Dropbox.saysPathNotFound notFoundLiteral = true
  ∧ take 2 (requestsSince v v')
    = [FilesGetMetadata "/profiles/Work/bookkeeping_data.json";
       FilesUpload "/profiles/Work/bookkeeping_data.json" (TransactionsDoc [])]
  ∧ transactions (app v') = [lunch].
Proof.
  intros w w' v v'. split; [reflexivity|].
  destruct (loadDataAndSettings_first_run (scriptedEnv true) w client0
              pathNotFound [] eq_refl eq_refl) as [Hraised _].
  destruct (loadDataAndSettings_first_run (scriptedEnv true) v client0
              notFoundLiteral [Fails offline] eq_refl eq_refl) as [Hcreated _].
  cbv zeta in Hraised, Hcreated.
  change (Dropbox.saysPathNotFound pathNotFound) with false in Hraised.
  change (Dropbox.saysPathNotFound notFoundLiteral) with true in Hcreated.
  change (App.statusUnauthorized pathNotFound) with false in Hraised.
  cbv iota in Hraised, Hcreated. cbn [andb] in Hraised.
  destruct Hraised as (Hreq & _ & Ht & Hui).
  destruct Hcreated as (Hreq2 & _ & _ & Ht2 & _).
  split; [exact Hreq|]. split; [exact Ht|]. split; [exact Hui|].
  split; [reflexivity|]. split; [exact Hreq2|exact Ht2].
Defined.

End LoadRuns.

